(** * webserver-chan: the HTTP framing layer, embedded and verified

    A shallow embedding of the HTTP server of the repository (socket wrapper,
    dynamic buffer, header splitting and parsing, body readers, response
    encoder and the per-connection serve loop) and of its two echo servers
    on the same socket wrapper, followed by the properties proved about
    them.

    Modelling conventions.
    - A Node [Buffer] is a [list ascii] (one [ascii] per byte).  A JavaScript
      string is a [list ascii] as well, one [ascii] per character: this is
      what the string is for ASCII text, where [Buffer.toString()] and
      [Buffer.from(str)] are the identity and [trim], [toLowerCase] and
      [parseInt] meet no other white space or letter than the ASCII ones.
      A property that depends on how bytes decode to text carries the
      hypothesis that the bytes decoded are ASCII ([ascii_only]); bytes
      that are only copied or searched (bodies, line breaks, header
      terminators) are arbitrary.
    - A JavaScript [number] holding a length, an index or a status code is a
      [Z]; [-1] is the "not found" / "unknown" value the source uses.  The
      two agree on the integers up to [JS.MAX_SAFE_INTEGER]; a property of
      a length read by [parseInt] carries that bound.
    - [undefined] and [null] are [None].
    - A thrown exception is the [Throw] result of a function without
      effects and the [Thrown] outcome of a function on the connection. *)

From Stdlib Require Import List ZArith Lia Bool Ascii String DecimalString.
Import ListNotations.

Open Scope Z_scope.

(** ** Bytes and buffers *)

Definition Buffer := list ascii.
Definition JsString := list ascii.

Definition bytes (s : string) : list ascii := list_ascii_of_string s.

Definition CR : ascii := ascii_of_nat 13.
Definition LF : ascii := ascii_of_nat 10.
Definition CRLF : list ascii := [CR; LF].

Definition blen (b : list ascii) : Z := Z.of_nat (List.length b).

(** ASCII bytes, which decode to the character with the same code and
    encode back to themselves. *)
Definition is_ascii (c : ascii) : bool := (nat_of_ascii c <? 128)%nat.
Definition ascii_only (b : list ascii) : bool := forallb is_ascii b.

Module Buf.

(** [Buffer.alloc(n)]: [n] zero bytes. *)
Definition alloc (n : Z) : Buffer := repeat Ascii.zero (Z.to_nat n).

(** Relative index of [TypedArray.prototype.subarray] / [copyWithin]:
    negative indices count from the end, everything is clamped to
    [0 .. len]. *)
Definition rel_index (len i : Z) : Z :=
  if i <? 0 then Z.max (len + i) 0 else Z.min i len.

(** [b.subarray(start, end)]. *)
Definition subarray (b : Buffer) (start end_ : Z) : Buffer :=
  let len := blen b in
  let from := rel_index len start in
  let final := rel_index len end_ in
  firstn (Z.to_nat (final - from)) (skipn (Z.to_nat from) b).

(** [b.subarray(start)]. *)
Definition subarray_from (b : Buffer) (start : Z) : Buffer :=
  subarray b start (blen b).

(** [src.copy(target, targetStart, sourceStart)]: the new contents of
    [target].  The copy stops at the end of [target]. *)
Definition copy (src target : Buffer) (targetStart sourceStart : Z) : Buffer :=
  let ts := Z.to_nat targetStart in
  let piece := firstn (List.length target - ts)%nat (skipn (Z.to_nat sourceStart) src) in
  firstn ts target ++ piece ++ skipn (ts + List.length piece)%nat target.

(** [b.copyWithin(target, start, end)]: the new contents of [b]. *)
Definition copyWithin (b : Buffer) (target start end_ : Z) : Buffer :=
  let len := blen b in
  let to := rel_index len target in
  let from := rel_index len start in
  let final := rel_index len end_ in
  let count := Z.min (final - from) (len - to) in
  if 0 <? count then
    firstn (Z.to_nat to) b
      ++ firstn (Z.to_nat count) (skipn (Z.to_nat from) b)
      ++ skipn (Z.to_nat (to + count)) b
  else b.

(** [Buffer.concat(list)]. *)
Definition concat (l : list Buffer) : Buffer := List.concat l.

End Buf.

(** ** The dynamic buffer (types.ts: [DynamicBuf]) *)

Record DynamicBuf := mkDynamicBuf {
  buf_data : Buffer;     (* [data]: the storage; its size is the capacity *)
  buf_length : Z         (* [length]: how many bytes of the storage are in use *)
}.

(** The buffer [serveClient] starts from: [{data: Buffer.alloc(0), length: 0}]. *)
Definition emptyDynamicBuf : DynamicBuf :=
  {| buf_data := Buf.alloc 0; buf_length := 0 |}.

Definition capacity (buf : DynamicBuf) : Z := blen (buf_data buf).

(** [buf.data.subarray(0, buf.length)]: the bytes the buffer holds. *)
Definition peek (buf : DynamicBuf) : Buffer :=
  Buf.subarray (buf_data buf) 0 (buf_length buf).

(** The loop [while (cap < newLength) cap *= power] of [expandBufferCap];
    [fuel] bounds the number of iterations. *)
Fixpoint grow_cap (fuel : nat) (cap newLength power : Z) : Z :=
  match fuel with
  | O => cap
  | S fuel' =>
      if cap <? newLength then grow_cap fuel' (cap * power) newLength power
      else cap
  end.

Definition expandBufferCap (buf : DynamicBuf) (newLength power : Z) : Buffer :=
  let oldLength := blen (buf_data buf) in
  let cap := Z.max oldLength 32 in
  Buf.alloc (grow_cap (Z.to_nat newLength) cap newLength power).

Definition bufferPush (buf : DynamicBuf) (data : Buffer) : DynamicBuf :=
  let newLength := buf_length buf + blen data in
  let storage :=
    if blen (buf_data buf) <? newLength then
      let grownBuf := expandBufferCap buf newLength 2 in
      Buf.copy (buf_data buf) grownBuf 0 0
    else buf_data buf in
  {| buf_data := Buf.copy data storage (buf_length buf) 0;
     buf_length := newLength |}.

Definition bufferPop (buf : DynamicBuf) (length : Z) : DynamicBuf :=
  {| buf_data := Buf.copyWithin (buf_data buf) 0 length (buf_length buf);
     buf_length := buf_length buf - length |}.

(** A run of pushes and pops, and the byte queue it denotes. *)
Inductive BufOp :=
| Push (data : Buffer)
| Pop (n : Z).

Definition apply_op (buf : DynamicBuf) (op : BufOp) : DynamicBuf :=
  match op with
  | Push d => bufferPush buf d
  | Pop n => bufferPop buf n
  end.

Definition run_ops (ops : list BufOp) (buf : DynamicBuf) : DynamicBuf :=
  fold_left apply_op ops buf.

Definition queue_op (q : list ascii) (op : BufOp) : list ascii :=
  match op with
  | Push d => q ++ d
  | Pop n => skipn (Z.to_nat n) q
  end.

Definition queue_ops (ops : list BufOp) (q : list ascii) : list ascii :=
  fold_left queue_op ops q.

(** No pop is negative or larger than the queue at that moment. *)
Fixpoint pops_ok (ops : list BufOp) (q : list ascii) : Prop :=
  match ops with
  | [] => True
  | op :: rest =>
      match op with
      | Push _ => True
      | Pop n => 0 <= n <= blen q
      end /\ pops_ok rest (queue_op q op)
  end.

(** The largest queue length seen during a run that starts with queue [q]. *)
Fixpoint max_length_held (ops : list BufOp) (q : list ascii) : Z :=
  match ops with
  | [] => blen q
  | op :: rest => Z.max (blen q) (max_length_held rest (queue_op q op))
  end.

Definition pow2_multiple_of_floor (cap : Z) : Prop :=
  exists k : nat, cap = 32 * 2 ^ Z.of_nat k.

(** ** JavaScript string primitives used by the server *)

Module JS.

Fixpoint str_eqb (a b : list ascii) : bool :=
  match a, b with
  | [], [] => true
  | x :: a', y :: b' => Ascii.eqb x y && str_eqb a' b'
  | _, _ => false
  end.

Fixpoint starts_with (needle hay : list ascii) : bool :=
  match needle, hay with
  | [], _ => true
  | n :: ns, h :: hs => Ascii.eqb n h && starts_with ns hs
  | _ :: _, [] => false
  end.

(** Search [needle] in [hay], which starts at absolute offset [i]. *)
Fixpoint indexOf_at (needle hay : list ascii) (i : Z) : Z :=
  match hay with
  | [] => if starts_with needle [] then i else -1
  | _ :: tl => if starts_with needle hay then i else indexOf_at needle tl (i + 1)
  end.

(** [buf.indexOf(needle, byteOffset)]: offset of the first occurrence at
    or after [byteOffset], [-1] if there is none. *)
Definition indexOf (b : Buffer) (needle : list ascii) (byteOffset : Z) : Z :=
  let len := blen b in
  let start := if byteOffset <? 0 then Z.max (len + byteOffset) 0 else byteOffset in
  if len <? start then
    match needle with [] => len | _ :: _ => -1 end
  else indexOf_at needle (skipn (Z.to_nat start) b) start.

(** [s.split(sep)] for a one-character separator. *)
Fixpoint split (sep : ascii) (s : list ascii) : list (list ascii) :=
  match s with
  | [] => [[]]
  | c :: rest =>
      if Ascii.eqb c sep then [] :: split sep rest
      else match split sep rest with
           | tok :: toks => (c :: tok) :: toks
           | [] => [[c]]
           end
  end.

(** [arr.join(sep)]. *)
Fixpoint join (sep : list ascii) (l : list (list ascii)) : list ascii :=
  match l with
  | [] => []
  | [x] => x
  | x :: rest => x ++ sep ++ join sep rest
  end.

(** White space removed by [trim] from ASCII text: TAB, LF, VT, FF, CR and
    space. *)
Definition is_white_space (c : ascii) : bool :=
  let n := nat_of_ascii c in
  ((9 <=? n) && (n <=? 13))%nat || (n =? 32)%nat.

Fixpoint trimStart (s : list ascii) : list ascii :=
  match s with
  | c :: rest => if is_white_space c then trimStart rest else s
  | [] => []
  end.

Definition trimEnd (s : list ascii) : list ascii := rev (trimStart (rev s)).

Definition trim (s : list ascii) : list ascii := trimEnd (trimStart s).

Definition lower_char (c : ascii) : ascii :=
  let n := nat_of_ascii c in
  if ((65 <=? n) && (n <=? 90))%nat then ascii_of_nat (n + 32) else c.

Definition toLowerCase (s : list ascii) : list ascii := map lower_char s.

(** Value of a digit in any radix up to 36. *)
Definition digit_value (c : ascii) : option Z :=
  let n := nat_of_ascii c in
  if ((48 <=? n) && (n <=? 57))%nat then Some (Z.of_nat (n - 48))
  else if ((97 <=? n) && (n <=? 122))%nat then Some (Z.of_nat (n - 87))
  else if ((65 <=? n) && (n <=? 90))%nat then Some (Z.of_nat (n - 55))
  else None.

(** The longest prefix of digits of [radix], as a number; [acc] is [None]
    while no digit has been read. *)
Fixpoint parse_digits (radix : Z) (s : list ascii) (acc : option Z) : option Z :=
  match s with
  | [] => acc
  | c :: rest =>
      match digit_value c with
      | Some d =>
          if d <? radix then
            parse_digits radix rest
              (Some (match acc with Some a => a * radix + d | None => d end))
          else acc
      | None => acc
      end
  end.

(** The integers a [number] holds exactly: up to [2^53 - 1] in absolute
    value.  Within them [parseInt] returns the integer read and a template
    literal prints every digit. *)
Definition MAX_SAFE_INTEGER : Z := 2 ^ 53 - 1.

(** [parseInt(s)] with no radix argument, on ASCII text; [None] is [NaN].
    The result is the integer read, which is the [number] returned as long
    as it does not exceed [MAX_SAFE_INTEGER] in absolute value. *)
Definition parseInt (s : list ascii) : option Z :=
  let s1 := trimStart s in
  let '(negative, s2) :=
    match s1 with
    | c :: r =>
        if Ascii.eqb c "-" then (true, r)
        else if Ascii.eqb c "+" then (false, r)
        else (false, s1)
    | [] => (false, s1)
    end in
  let '(radix, s3) :=
    match s2 with
    | z :: x :: r =>
        if Ascii.eqb z "0" && (Ascii.eqb x "x" || Ascii.eqb x "X")
        then (16, r) else (10, s2)
    | _ => (10, s2)
    end in
  match parse_digits radix s3 None with
  | Some v => Some (if negative then - v else v)
  | None => None
  end.

(** [`${n}`] for an integer [n] of at most [MAX_SAFE_INTEGER] in absolute
    value: all its digits. *)
Definition numberToString (n : Z) : list ascii :=
  list_ascii_of_string (NilEmpty.string_of_int (Z.to_int n)).

End JS.

(** ** Node's header validators (node:http)

    [validateHeaderName] accepts a non-empty HTTP token;
    [validateHeaderValue] accepts a value whose characters are TAB or lie
    in U+0020..U+007E or U+0080..U+00FF.  The server only uses whether they
    throw. *)

Module NodeHttp.

Definition is_token_char (c : ascii) : bool :=
  let n := nat_of_ascii c in
  ((48 <=? n) && (n <=? 57))%nat
  || ((65 <=? n) && (n <=? 90))%nat
  || ((97 <=? n) && (n <=? 122))%nat
  || existsb (Ascii.eqb c) (bytes "^_`-!#$%&'*+.|~").

Definition validateHeaderName (name : JsString) : bool :=
  match name with
  | [] => false
  | _ :: _ => forallb is_token_char name
  end.

Definition is_value_char (c : ascii) : bool :=
  let n := nat_of_ascii c in
  (n =? 9)%nat || ((32 <=? n) && (n <=? 126))%nat || (128 <=? n)%nat.

Definition validateHeaderValue (name value : JsString) : bool :=
  forallb is_value_char value.

End NodeHttp.

(** ** Configuration (data.ts) *)

Definition kMaxHeaderLen : Z := 1824 * 8.
Definition HTTP_VERSION : JsString := bytes "HTTP/1.1".

(** ** Exceptions and results *)

Inductive Exn :=
| HTTPError (statusCode : Z) (message : JsString)  (* [class HTTPError] *)
| Error (message : JsString)                       (* [new Error(msg)], socket errors *)
| TypeError.                                       (* raised by the JS runtime *)

Inductive Result (A : Type) :=
| Ok (a : A)
| Throw (e : Exn).
Arguments Ok {A} a.
Arguments Throw {A} e.

(** ** Line splitting *)

(** Checks for the presence of any of CRLF, CR, LF at or after [start]. *)
Definition findDelimiter (buf : Buffer) (start : Z) : Z * Z :=
  let crlf := JS.indexOf buf CRLF start in
  let cr := JS.indexOf buf [CR] start in
  let lf := JS.indexOf buf [LF] start in
  if 0 <=? crlf then (crlf, 2)
  else if 0 <=? cr then (cr, 1)
  else if 0 <=? lf then (lf, 1)
  else (-1, 0).

(** The [while (true)] loop of [splitLines]; [fuel] bounds its iterations. *)
Fixpoint splitLines_loop (fuel : nat) (buf : Buffer) (start : Z)
    (lines : list Buffer) : list Buffer :=
  match fuel with
  | O => lines
  | S fuel' =>
      let '(next, delimOffset) := findDelimiter buf start in
      if next =? -1 then
        let chunk := Buf.subarray_from buf start in
        if JS.str_eqb chunk [] then lines else lines ++ [chunk]
      else
        let chunk := Buf.subarray buf start next in
        splitLines_loop fuel' buf (next + delimOffset) (lines ++ [chunk])
  end.

(** Every iteration but the last moves [start] forward, so
    [length buf + 1] iterations are enough (lemma [splitLines_loop_fuel]). *)
Definition splitLines (buf : Buffer) : list Buffer :=
  splitLines_loop (S (List.length buf)) buf 0 [].

(** ** The request parser *)

Record HTTPReq := mkHTTPReq {
  req_method : JsString;
  req_uri : Buffer;
  req_version : option JsString;   (* [undefined] when the start line has two tokens *)
  req_headers : list Buffer
}.

(** [const [method, uri, version] = reqLine.toString().split(" ")]; then
    [Buffer.from(uri)] throws a TypeError when [uri] is [undefined].  On an
    ASCII line the tokens are its bytes between the spaces. *)
Definition parseRequestLine (reqLine : Buffer)
    : Result (JsString * Buffer * option JsString) :=
  let parsed := JS.split " " reqLine in
  match parsed with
  | method :: rest =>
      match rest with
      | uri :: rest' => Ok (method, uri, nth_error rest' 0)
      | [] => Throw TypeError
      end
  | [] => Throw TypeError
  end.

(** [validateHeader], on an ASCII field: the text is the field's bytes. *)
Definition validateHeader (headerField : Buffer) : bool :=
  let fieldTokens := JS.split ":" headerField in
  let headerName := JS.trim (nth 0 fieldTokens []) in
  let headerValue := JS.trim (JS.join (bytes ",") (skipn 1 fieldTokens)) in
  NodeHttp.validateHeaderName headerName
  && NodeHttp.validateHeaderValue headerName headerValue.

(** The elements [l[from]], ..., [l[to_ - 1]] visited by
    [for (let i = from; i < to_; i++)]. *)
Definition index_range {A : Type} (l : list A) (from to_ : Z) : list A :=
  firstn (Z.to_nat (to_ - from)) (skipn (Z.to_nat from) l).

(** The [for] loop of [parseHTTPReq]: copy the fields, stop at the first
    one that fails validation. *)
Fixpoint collect_headers (fields : list Buffer) (headers : list Buffer)
    : Result (list Buffer) :=
  match fields with
  | [] => Ok headers
  | headerField :: rest =>
      if negb (validateHeader headerField)
      then Throw (HTTPError 400 (bytes "Bad field."))
      else collect_headers rest (headers ++ [headerField])
  end.

(** The condition of the [console.assert] that closes [parseHTTPReq]. *)
Definition last_line_is_empty (lines : list Buffer) : bool :=
  blen (last lines []) =? 0.

(** [parseHTTPReq]: the parsed request together with the outcome of its
    final [console.assert] (which prints and does not throw). *)
Definition parseHTTPReq (data : Buffer) : Result (HTTPReq * bool) :=
  let lines := splitLines data in
  match lines with
  | [] => Throw TypeError    (* [lines[0]] is [undefined] *)
  | line0 :: _ =>
      match parseRequestLine line0 with
      | Throw e => Throw e
      | Ok (method, uri, version) =>
          match collect_headers (index_range lines 1 (Z.of_nat (List.length lines) - 1)) [] with
          | Throw e => Throw e
          | Ok headers =>
              Ok ({| req_method := method; req_uri := uri;
                     req_version := version; req_headers := headers |},
                  last_line_is_empty lines)
          end
      end
  end.

(** ** Header lookup *)

(** The body of the [for] loop of [getField] over the fields it visits,
    for ASCII fields and an ASCII key. *)
Fixpoint getField_scan (fields : list Buffer) (key : JsString)
    : Result (option Buffer) :=
  match fields with
  | [] => Ok None
  | headerField :: rest =>
      let headerName := JS.trim (nth 0 (JS.split ":" headerField) []) in
      if JS.str_eqb (JS.toLowerCase key) (JS.toLowerCase headerName) then
        match nth_error (JS.split ":" headerField) 1 with
        | Some v => Ok (Some (JS.trim v))
        | None => Throw TypeError     (* [undefined.trim()] *)
        end
      else getField_scan rest key
  end.

(** [for (let i = 1; i < headers.length - 1; i++)]. *)
Definition getField (headers : list Buffer) (key : JsString)
    : Result (option Buffer) :=
  getField_scan (index_range headers 1 (Z.of_nat (List.length headers) - 1)) key.

(** ** The connection: state and monad

    One connection owns one socket wrapper ([TCPConn]), one [DynamicBuf]
    and the body readers created while it is served.  The peer is a script
    of socket events, consumed by [socketRead] in order; [sent] collects
    what was passed to [socket.write].  A [BodyReader] is a closure over
    mutable variables: the variables live in [readers], the reader value
    is a handle to them, so two references to one reader share its state. *)

Inductive SockEvent :=
| EvData (data : Buffer)     (* "data" *)
| EvEnd                      (* "end" *)
| EvError (err : JsString).  (* "error" *)

Inductive ReaderState :=
| ConnLengthReader (remainingBodyLen : Z)       (* [readerFromConnLength] *)
| MemoryReader (data : Buffer) (done : bool).   (* [readerFromMemory] *)

Record BodyReader := mkBodyReader {
  reader_length : Z;      (* [length]: the Content-Length, -1 if unknown *)
  reader_id : nat         (* which closure [read] is *)
}.

Record HTTPRes := mkHTTPRes {
  res_statusCode : Z;
  res_headers : list Buffer;
  res_body : BodyReader
}.

Record World := mkWorld {
  incoming : list SockEvent;   (* events the socket will still deliver *)
  conn_err : option JsString;  (* [conn.err] *)
  conn_ended : bool;           (* [conn.ended] *)
  sent : list Buffer;          (* chunks written to the socket, oldest first *)
  destroyed : bool;            (* [socket.destroy()] was called *)
  buf : DynamicBuf;            (* the [buf] of [serveClient] *)
  readers : list ReaderState;  (* variables captured by the body readers *)
  console : list JsString      (* failed [console.assert]s, oldest first *)
}.

(** A connection as [socketInit] and [serveClient] set it up, with the
    events its socket is going to deliver. *)
Definition newConn (events : list SockEvent) : World :=
  {| incoming := events; conn_err := None; conn_ended := false; sent := [];
     destroyed := false; buf := emptyDynamicBuf; readers := []; console := [] |}.

Definition set_incoming (l : list SockEvent) (w : World) : World :=
  mkWorld l (conn_err w) (conn_ended w) (sent w) (destroyed w) (buf w) (readers w) (console w).
Definition set_conn_err (e : option JsString) (w : World) : World :=
  mkWorld (incoming w) e (conn_ended w) (sent w) (destroyed w) (buf w) (readers w) (console w).
Definition set_conn_ended (b : bool) (w : World) : World :=
  mkWorld (incoming w) (conn_err w) b (sent w) (destroyed w) (buf w) (readers w) (console w).
Definition set_sent (l : list Buffer) (w : World) : World :=
  mkWorld (incoming w) (conn_err w) (conn_ended w) l (destroyed w) (buf w) (readers w) (console w).
Definition set_destroyed (b : bool) (w : World) : World :=
  mkWorld (incoming w) (conn_err w) (conn_ended w) (sent w) b (buf w) (readers w) (console w).
Definition set_buf (b : DynamicBuf) (w : World) : World :=
  mkWorld (incoming w) (conn_err w) (conn_ended w) (sent w) (destroyed w) b (readers w) (console w).
Definition set_readers (l : list ReaderState) (w : World) : World :=
  mkWorld (incoming w) (conn_err w) (conn_ended w) (sent w) (destroyed w) (buf w) l (console w).
Definition set_console (l : list JsString) (w : World) : World :=
  mkWorld (incoming w) (conn_err w) (conn_ended w) (sent w) (destroyed w) (buf w) (readers w) l.

(** How an [async] function ends: it returns, it throws, it awaits a read
    that never completes, or the model ran out of loop iterations. *)
Inductive Outcome (A : Type) :=
| Returned (a : A)
| Thrown (e : Exn)
| Pending
| OutOfFuel.
Arguments Returned {A} a.
Arguments Thrown {A} e.
Arguments Pending {A}.
Arguments OutOfFuel {A}.

Definition M (A : Type) : Type := World -> Outcome A * World.

Definition ret {A} (a : A) : M A := fun w => (Returned a, w).
Definition throw {A} (e : Exn) : M A := fun w => (Thrown e, w).
Definition out_of_fuel {A} : M A := fun w => (OutOfFuel, w).

Definition bind {A B} (m : M A) (k : A -> M B) : M B :=
  fun w =>
    match m w with
    | (Returned a, w') => k a w'
    | (Thrown e, w') => (Thrown e, w')
    | (Pending, w') => (Pending, w')
    | (OutOfFuel, w') => (OutOfFuel, w')
    end.

Declare Scope conn_scope.
Delimit Scope conn_scope with conn.
Notation "x <- m ;; k" := (bind m (fun x => k))
  (at level 61, m at next level, right associativity) : conn_scope.
Notation "m ;;; k" := (bind m (fun _ => k))
  (at level 61, right associativity) : conn_scope.
Open Scope conn_scope.

Definition lift {A} (r : Result A) : M A :=
  match r with
  | Ok a => ret a
  | Throw e => throw e
  end.

Definition get_buf : M DynamicBuf := fun w => (Returned (buf w), w).
Definition modify_buf (f : DynamicBuf -> DynamicBuf) : M unit :=
  fun w => (Returned tt, set_buf (f (buf w)) w).

(** [console.assert(cond)]: prints when [cond] is false, never throws. *)
Definition console_assert (cond : bool) (what : string) : M unit :=
  fun w =>
    (Returned tt,
     if cond then w else set_console (console w ++ [bytes what]) w).

(** ** The socket wrapper *)

(** [socketRead]: an empty buffer is EOF.  A read on an open connection
    completes with the next socket event. *)
Definition socketRead : M Buffer :=
  fun w =>
    match conn_err w with
    | Some e => (Thrown (Error e), w)
    | None =>
        if conn_ended w then (Returned [], w)
        else
          match incoming w with
          | [] => (Pending, w)
          | EvData data :: rest => (Returned data, set_incoming rest w)
          | EvEnd :: rest => (Returned [], set_conn_ended true (set_incoming rest w))
          | EvError e :: rest =>
              (Thrown (Error e), set_conn_err (Some e) (set_incoming rest w))
          end
    end.

(** [socketWrite]: fails with the recorded error of the connection, if
    any; otherwise the chunk is handed to [socket.write], whose callback
    reports a failure once the socket cannot be written to any more: the
    server's sockets are not half-open, so that is after the peer's end
    has been read, and after [socket.destroy()].  Nothing is sent then and
    the connection record is left as it is.  The lines written by
    [console.log] are not recorded. *)
Definition socketWrite (data : Buffer) : M unit :=
  console_assert (0 <? blen data) "socketWrite: data.length > 0" ;;;
  fun w =>
    match conn_err w with
    | Some e => (Thrown (Error e), w)
    | None =>
        if conn_ended w || destroyed w
        then (Thrown (Error (if destroyed w then bytes "write after destroy"
                             else bytes "write after end")), w)
        else (Returned tt, set_sent (sent w ++ [data]) w)
    end.

(** ** Body readers *)

Definition new_reader (length : Z) (st : ReaderState) : M BodyReader :=
  fun w =>
    (Returned {| reader_length := length; reader_id := List.length (readers w) |},
     set_readers (readers w ++ [st]) w).

Definition set_reader_state (id : nat) (st : ReaderState) : M unit :=
  fun w =>
    (Returned tt,
     set_readers (firstn id (readers w) ++ [st] ++ skipn (S id) (readers w)) w).

Definition readerFromConnLength (remainingBodyLen : Z) : M BodyReader :=
  new_reader remainingBodyLen (ConnLengthReader remainingBodyLen).

Definition readerFromMemory (data : Buffer) : M BodyReader :=
  new_reader (blen data) (MemoryReader data false).

(** The [read] closure of [readerFromConnLength], on reader [id] whose
    captured variable is [remainingBodyLen]. *)
Definition connLength_read (id : nat) (remainingBodyLen : Z) : M Buffer :=
  if remainingBodyLen =? 0 then ret []
  else
    b <- get_buf ;;
    (if buf_length b =? 0 then
       data <- socketRead ;;
       modify_buf (fun b => bufferPush b data) ;;;
       if blen data =? 0
       then throw (Error (bytes "Unexpected EOF from HTTP body"))
       else ret tt
     else ret tt) ;;;
    b <- get_buf ;;
    let howMuchToConsume := Z.min (buf_length b) remainingBodyLen in
    set_reader_state id (ConnLengthReader (remainingBodyLen - howMuchToConsume)) ;;;
    let data := Buf.subarray (buf_data b) 0 howMuchToConsume in
    modify_buf (fun b => bufferPop b howMuchToConsume) ;;;
    ret data.

(** The [read] closure of [readerFromMemory]. *)
Definition memory_read (id : nat) (data : Buffer) (done : bool) : M Buffer :=
  if done then ret []
  else set_reader_state id (MemoryReader data true) ;;; ret data.

(** [reader.read()]. *)
Definition read (r : BodyReader) : M Buffer :=
  fun w =>
    match nth_error (readers w) (reader_id r) with
    | Some (ConnLengthReader remainingBodyLen) =>
        connLength_read (reader_id r) remainingBodyLen w
    | Some (MemoryReader data done) => memory_read (reader_id r) data done w
    | None => (Thrown TypeError, w)
    end.

Definition opt_equals (v : option Buffer) (other : Buffer) : bool :=
  match v with
  | Some b => JS.str_eqb b other
  | None => false
  end.

(** [readerFromReq]: the body reader of a parsed request. *)
Definition readerFromReq (req : HTTPReq) : M BodyReader :=
  contentLen <- lift (getField (req_headers req) (bytes "Content-Length")) ;;
  bodyLen <-
    match contentLen with
    | Some v =>
        match JS.parseInt v with
        | None => throw (HTTPError 400 (bytes "Bad Content-Length."))
        | Some n => ret n
        end
    | None => ret (-1)
    end ;;
  let bodyAllowed :=
    negb (JS.str_eqb (req_method req) (bytes "GET")
          || JS.str_eqb (req_method req) (bytes "HEAD")) in
  te <- lift (getField (req_headers req) (bytes "Transfer-Encoding")) ;;
  let chunked := opt_equals te (bytes "chunked") in
  if negb bodyAllowed && ((0 <? bodyLen) || chunked) then
    throw (HTTPError 400 (bytes "HTTP body not allowed."))
  else
    let bodyLen := if negb bodyAllowed then 0 else bodyLen in
    if 0 <=? bodyLen then readerFromConnLength bodyLen
    else if chunked then throw (HTTPError 501 (bytes "TODO:"))
    else throw (HTTPError 501 (bytes "TODO:")).

(** ** Request handler and response writer *)

Definition handleReq (req : HTTPReq) (body : BodyReader) : M HTTPRes :=
  res <- (if JS.str_eqb (req_uri req) (bytes "/echo") then ret body
          else readerFromMemory (bytes "hello world." ++ [LF])) ;;
  ret {| res_statusCode := 200;
         res_headers := [bytes "Server: my_first_http_server"];
         res_body := res |}.

(** [encodeHTTPRes]: [reduce] without an initial value starts from the
    first header and throws a TypeError on an empty array. *)
Definition encodeHTTPRes (res : HTTPRes) : Result Buffer :=
  let delimiter := CRLF in
  let statusLine := HTTP_VERSION ++ bytes " " ++ JS.numberToString (res_statusCode res) in
  match res_headers res with
  | [] => Throw TypeError
  | first :: rest =>
      let joinedHeaderFields :=
        fold_left (fun prev b => Buf.concat [prev; delimiter; b]) rest first in
      Ok (Buf.concat [statusLine; delimiter; joinedHeaderFields])
  end.

Definition is_none {A} (o : option A) : bool :=
  match o with None => true | Some _ => false end.

(** The loop of [writeHTTPRes] that streams the body. *)
Fixpoint write_body (fuel : nat) (body : BodyReader) : M unit :=
  match fuel with
  | O => out_of_fuel
  | S fuel' =>
      data <- read body ;;
      if blen data =? 0 then ret tt
      else socketWrite data ;;; write_body fuel' body
  end.

(** [writeHTTPRes]; the result is the response object as the call leaves
    it (its header list has been pushed to). *)
Definition writeHTTPRes (fuel : nat) (res : HTTPRes) : M HTTPRes :=
  if reader_length (res_body res) <? 0 then
    throw (Error (bytes "TODO: chunked encoding"))
  else
    found <- lift (getField (res_headers res) (bytes "Content-Length")) ;;
    console_assert (is_none found) "writeHTTPRes: Content-Length not set" ;;;
    let res :=
      {| res_statusCode := res_statusCode res;
         res_headers := res_headers res
           ++ [bytes "Content-Length: " ++ JS.numberToString (reader_length (res_body res))];
         res_body := res_body res |} in
    header <- lift (encodeHTTPRes res) ;;
    socketWrite header ;;;
    write_body fuel (res_body res) ;;;
    ret res.

(** ** The serve loop *)

Definition collectMessage : M (option HTTPReq) :=
  b <- get_buf ;;
  let index := JS.indexOf (Buf.subarray (buf_data b) 0 (buf_length b)) (CRLF ++ CRLF) 0 in
  if index <? 0 then
    if kMaxHeaderLen <=? buf_length b
    then throw (HTTPError 413 (bytes "Header is too large."))
    else ret None
  else
    parsed <- lift (parseHTTPReq (Buf.subarray (buf_data b) 0 (index + 4))) ;;
    console_assert (snd parsed) "parseHTTPReq: the header ends on an empty line" ;;;
    modify_buf (fun b => bufferPop b (index + 4)) ;;;
    ret (Some (fst parsed)).

(** [while ((await reqBody.read()).length > 0) {}]. *)
Fixpoint drain (fuel : nat) (reqBody : BodyReader) : M unit :=
  match fuel with
  | O => out_of_fuel
  | S fuel' =>
      data <- read reqBody ;;
      if 0 <? blen data then drain fuel' reqBody else ret tt
  end.

Definition version_is (req : HTTPReq) (v : string) : bool :=
  match req_version req with
  | Some s => JS.str_eqb s (bytes v)
  | None => false
  end.

(** The [while (true)] loop of [serveClient]. *)
Fixpoint serve_loop (fuel : nat) : M unit :=
  match fuel with
  | O => out_of_fuel
  | S fuel' =>
      msg <- collectMessage ;;
      match msg with
      | None =>
          data <- socketRead ;;
          modify_buf (fun b => bufferPush b data) ;;;
          b <- get_buf ;;
          if (blen data =? 0) && (buf_length b =? 0) then ret tt
          else if blen data =? 0 then throw (HTTPError 400 (bytes "Unexpected EOF."))
          else serve_loop fuel'
      | Some msg =>
          reqBody <- readerFromReq msg ;;
          res <- handleReq msg reqBody ;;
          writeHTTPRes fuel' res ;;;
          if version_is msg "1.0" then ret tt
          else drain fuel' reqBody ;;; serve_loop fuel'
      end
  end.

Definition serveClient (fuel : nat) : M unit :=
  modify_buf (fun _ => emptyDynamicBuf) ;;;
  serve_loop fuel.

(** [handleNewConn]: serve, answer an [HTTPError] with an error response
    (best effort), destroy the socket. *)
Definition handleNewConn (fuel : nat) : M unit :=
  fun w =>
    match serveClient fuel w with
    | (Returned _, w') => (Returned tt, set_destroyed true w')
    | (Thrown (HTTPError statusCode message), w') =>
        let attempt :=
          body <- readerFromMemory (message ++ [LF]) ;;
          writeHTTPRes fuel
            {| res_statusCode := statusCode; res_headers := []; res_body := body |} in
        match attempt w' with
        | (Returned _, w'') => (Returned tt, set_destroyed true w'')
        | (Thrown _, w'') => (Returned tt, set_destroyed true w'')
        | (Pending, w'') => (Pending, w'')
        | (OutOfFuel, w'') => (OutOfFuel, w'')
        end
    | (Thrown _, w') => (Returned tt, set_destroyed true w')
    | (Pending, w') => (Pending, w')
    | (OutOfFuel, w') => (OutOfFuel, w')
    end.

(** ** Definitions used to state the properties *)

(** The buffer uses a prefix of its storage. *)
Definition buf_wf (b : DynamicBuf) : Prop :=
  0 <= buf_length b <= capacity b.

(** [needle] occurs in [b] at offset [j]. *)
Definition occurs_at (needle b : list ascii) (j : Z) : bool :=
  (0 <=? j) && JS.starts_with needle (skipn (Z.to_nat j) b).

(** The byte of [b] at offset [j]. *)
Definition byte_at (b : list ascii) (j : Z) : option ascii :=
  if j <? 0 then None else nth_error b (Z.to_nat j).

(** The delimiter policy in the words of the specification: the earliest
    line break wins, and a CR immediately followed by LF counts as one
    two-byte break.  [hay] starts at absolute offset [i]. *)
Fixpoint spec_earliest_delimiter_at (hay : list ascii) (i : Z) : Z * Z :=
  match hay with
  | [] => (-1, 0)
  | c :: tl =>
      if Ascii.eqb c CR then
        match tl with
        | d :: _ => if Ascii.eqb d LF then (i, 2) else (i, 1)
        | [] => (i, 1)
        end
      else if Ascii.eqb c LF then (i, 1)
      else spec_earliest_delimiter_at tl (i + 1)
  end.

Definition spec_findDelimiter (buf : Buffer) (start : Z) : Z * Z :=
  spec_earliest_delimiter_at (skipn (Z.to_nat start) buf) start.

(** The variables captured by reader [r]. *)
Definition reader_state (w : World) (r : BodyReader) : option ReaderState :=
  nth_error (readers w) (reader_id r).

(** The number [readerFromReq] takes from a Content-Length lookup:
    [-1] when the field is absent, [None] when [parseInt] gives [NaN]. *)
Definition parsed_length (contentLen : option Buffer) : option Z :=
  match contentLen with
  | Some v => JS.parseInt v
  | None => Some (-1)
  end.

Definition no_body_method (req : HTTPReq) : bool :=
  JS.str_eqb (req_method req) (bytes "GET")
  || JS.str_eqb (req_method req) (bytes "HEAD").

(** The capacities the buffer can have. *)
Definition cap_shape (cap : Z) : Prop :=
  cap = 0 \/ pow2_multiple_of_floor cap.

(** A run used as an example. *)
Definition ex_ops : list BufOp :=
  [Push (bytes "hello"); Pop 2; Push (bytes "xy"); Pop 5; Push []].

(** [headerField] is named [key], up to case. *)
Definition name_matches (key : JsString) (headerField : Buffer) : bool :=
  JS.str_eqb (JS.toLowerCase key)
    (JS.toLowerCase (JS.trim (nth 0 (JS.split ":" headerField) []))).

(** The value [getField] returns for a matching field. *)
Definition field_value (headerField : Buffer) : Result (option Buffer) :=
  match nth_error (JS.split ":" headerField) 1 with
  | Some v => Ok (Some (JS.trim v))
  | None => Throw TypeError
  end.

(** Write a response with an in-memory body on a fresh connection. *)
Definition respond (statusCode : Z) (headers : list Buffer) (payload : Buffer)
    : Outcome HTTPRes * World :=
  (body <- readerFromMemory payload ;;
   writeHTTPRes 8 {| res_statusCode := statusCode; res_headers := headers;
                     res_body := body |}) (newConn []).

Definition req_1_0 : Buffer := bytes "GET / HTTP/1.0" ++ CRLF ++ CRLF.
Definition req_1_1 : Buffer := bytes "GET / HTTP/1.1" ++ CRLF ++ CRLF.

(** What [writeHTTPRes] writes for the default answer of [handleReq]. *)
Definition hello_header : Buffer :=
  bytes "HTTP/1.1 200" ++ CRLF ++ bytes "Server: my_first_http_server"
    ++ CRLF ++ bytes "Content-Length: 13".
Definition hello_body : Buffer := bytes "hello world." ++ [LF].

(** [next] is the first offset at or after [start] where [needle] occurs. *)
Definition first_occurrence (needle buf : list ascii) (start next : Z) : Prop :=
  start <= next
  /\ occurs_at needle buf next = true
  /\ forall j, start <= j < next -> occurs_at needle buf j = false.

Definition no_occurrence (needle buf : list ascii) (start : Z) : Prop :=
  forall j, start <= j -> occurs_at needle buf j = false.

(** The delimiter [findDelimiter] picks: the first CRLF if there is one
    anywhere ahead; else the first CR; else the first LF; else none. *)
Definition delimiter_by_priority (buf : Buffer) (start next delimOffset : Z) : Prop :=
  (delimOffset = 2 /\ first_occurrence CRLF buf start next)
  \/ (delimOffset = 1 /\ no_occurrence CRLF buf start
      /\ first_occurrence [CR] buf start next)
  \/ (delimOffset = 1 /\ no_occurrence [CR] buf start
      /\ first_occurrence [LF] buf start next)
  \/ (next = -1 /\ delimOffset = 0
      /\ no_occurrence [CR] buf start /\ no_occurrence [LF] buf start).

(** The lines the loop of [splitLines] adds from scan position [start] on. *)
Definition lines_from (buf : Buffer) (start : Z) : list Buffer :=
  splitLines_loop (S (Z.to_nat (blen buf - start))) buf start [].

(** The example of the specification: "a", LF, "b", CR, LF, "c". *)
Definition mixed_breaks : Buffer := bytes "a" ++ [LF] ++ bytes "b" ++ CRLF ++ bytes "c".

(** A request whose start line has four tokens, and one with two. *)
Definition req_four_tokens : Buffer :=
  bytes "GET / HTTP/1.1 extra" ++ CRLF ++ bytes "Host: a" ++ CRLF ++ CRLF.
Definition req_two_tokens : Buffer := bytes "GET /" ++ CRLF ++ CRLF.


(** A connection whose buffer holds "hello", its socket script, and a
    fixed-length reader of declared length 5 on it. *)
Definition hello_conn (events : list SockEvent) (buffered : Buffer) : World :=
  snd (readerFromConnLength 5
         (set_buf (bufferPush emptyDynamicBuf buffered) (newConn events))).
Definition hello_reader : BodyReader := {| reader_length := 5; reader_id := 0 |}.

(** What [readerFromConnLength n] returns on connection [w]. *)
Definition fixed_length_reader (n : Z) (w : World) : Outcome BodyReader * World :=
  (Returned {| reader_length := n; reader_id := List.length (readers w) |},
   set_readers (readers w ++ [ConnLengthReader n]) w).

Definition mkReq (method : string) (headers : list Buffer) : HTTPReq :=
  {| req_method := bytes method; req_uri := bytes "/";
     req_version := Some (bytes "HTTP/1.1"); req_headers := headers |}.

(** ** Definitions used to state further properties *)

Definition is_line_break (c : ascii) : bool := Ascii.eqb c CR || Ascii.eqb c LF.

(** No CR and no LF among the bytes of [l]. *)
Definition no_line_break (l : list ascii) : bool :=
  forallb (fun c => negb (is_line_break c)) l.

(** The lines [lines], each followed by CRLF. *)
Definition terminated_lines (lines : list Buffer) : Buffer :=
  List.concat (map (fun l => l ++ CRLF) lines).

(** What [splitLines] makes of the bytes after the last line break. *)
Definition last_piece (tail : Buffer) : list Buffer :=
  match tail with
  | [] => []
  | _ :: _ => [tail]
  end.

(** The lines of a small header block. *)
Definition ex_header_lines : list Buffer :=
  [bytes "GET / HTTP/1.1"; bytes "Host: a"; []].

(** A start-line token: no space, no CR, no LF. *)
Definition is_token (l : list ascii) : bool :=
  forallb (fun c => negb (Ascii.eqb c " " || is_line_break c)) l.

(** The header block of a request on the wire: start line, header lines
    and the empty line, each followed by CRLF. *)
Definition request_header (method uri version : JsString) (headers : list Buffer)
    : Buffer :=
  terminated_lines
    ((method ++ bytes " " ++ uri ++ bytes " " ++ version) :: headers ++ [[]]).

(** The four bytes that end a header block. *)
Definition header_end : list ascii := CRLF ++ CRLF.

(** No header terminator anywhere in [b]. *)
Definition no_header_end (b : Buffer) : Prop :=
  forall j, occurs_at header_end b j = false.

(** The socket side of the connection is the same in [w] and [w']. *)
Definition same_socket (w w' : World) : Prop :=
  incoming w' = incoming w /\ conn_err w' = conn_err w
  /\ conn_ended w' = conn_ended w /\ destroyed w' = destroyed w.

(** The Content-Length line that [writeHTTPRes] pushes. *)
Definition content_length_line (n : Z) : Buffer :=
  bytes "Content-Length: " ++ JS.numberToString n.

(** A line that is not empty and has no CR or LF. *)
Definition is_line (l : Buffer) : bool :=
  match l with
  | [] => false
  | _ :: _ => no_line_break l
  end.

(** A GET request without header fields, on the wire. *)
Definition get_request (target : JsString * JsString) : Buffer :=
  request_header (bytes "GET") (fst target) (snd target) [].

(** Uri and version of a GET request that [handleReq] answers with its
    default body and after which [serveClient] goes on. *)
Definition plain_get (target : JsString * JsString) : bool :=
  is_token (fst target) && is_token (snd target)
  && negb (JS.str_eqb (fst target) (bytes "/echo"))
  && negb (JS.str_eqb (snd target) (bytes "1.0")).

(** The two chunks written for the default answer. *)
Definition hello_response : list Buffer := [hello_header; hello_body].

(** The two chunks [handleNewConn] writes for an [HTTPError]. *)
Definition error_response (statusCode : Z) (message : JsString) : list Buffer :=
  [HTTP_VERSION ++ bytes " " ++ JS.numberToString statusCode ++ CRLF
     ++ content_length_line (blen (message ++ [LF]));
   message ++ [LF]].

(** ** The promise-based echo server

    The same socket wrapper, with a serve loop that writes back every
    chunk it reads. *)

Module EchoServer.

(** [while (true) { data = await socketRead(conn); if (data.length === 0)
    break; await socketWrite(conn, data); }] *)
Fixpoint serve_loop (fuel : nat) : M unit :=
  match fuel with
  | O => out_of_fuel
  | S fuel' =>
      data <- socketRead ;;
      if blen data =? 0 then ret tt
      else socketWrite data ;;; serve_loop fuel'
  end.

Definition serveClient (fuel : nat) : M unit := serve_loop fuel.

(** [try { await serveClient(socket) } catch {...} finally { socket.destroy() }] *)
Definition handleNewConn (fuel : nat) : M unit :=
  fun w =>
    match serveClient fuel w with
    | (Returned _, w') => (Returned tt, set_destroyed true w')
    | (Thrown _, w') => (Returned tt, set_destroyed true w')
    | (Pending, w') => (Pending, w')
    | (OutOfFuel, w') => (OutOfFuel, w')
    end.

End EchoServer.

(** How a socket script ends: with "end" or with "error". *)
Inductive StreamEnd :=
| Ends
| Fails (err : JsString).

Definition end_event (e : StreamEnd) : SockEvent :=
  match e with
  | Ends => EvEnd
  | Fails err => EvError err
  end.

Definition not_empty (b : Buffer) : bool :=
  match b with
  | [] => false
  | _ :: _ => true
  end.

(** ** The echo server with a dynamic buffer

    Messages are lines ending in LF; the server answers each line with
    "Echo: " and the line, and the line "quit" with an empty line, after
    which it destroys the socket.  On a destroyed socket no event arrives
    any more and a write fails. *)

Module LineEcho.

Definition socketRead : M Buffer :=
  fun w =>
    if destroyed w && is_none (conn_err w) && negb (conn_ended w)
    then (Pending, w)
    else socketRead w.

Definition socketWrite (data : Buffer) : M unit :=
  fun w =>
    if destroyed w && is_none (conn_err w)
    then (Thrown (Error (bytes "write after destroy")),
          snd (console_assert (0 <? blen data) "socketWrite: data.length > 0" w))
    else socketWrite data w.

(** Checks for a complete message in the buffer and takes it off. *)
Definition collectMessage : M (option Buffer) :=
  b <- get_buf ;;
  let index := JS.indexOf (Buf.subarray (buf_data b) 0 (buf_length b)) [LF] 0 in
  if index <? 0 then ret None
  else
    let msg := Buf.subarray (buf_data b) 0 (index + 1) in
    modify_buf (fun b => bufferPop b (index + 1)) ;;;
    ret (Some msg).

Definition socket_destroy : M unit :=
  fun w => (Returned tt, set_destroyed true w).

Definition processMessage (msg : Buffer) : M unit :=
  if JS.str_eqb msg (bytes "quit" ++ [LF]) then
    socketWrite [LF] ;;;
    socket_destroy
  else
    let reply := Buf.concat [bytes "Echo: "; msg] in
    socketWrite reply.

Fixpoint serve_loop (fuel : nat) : M unit :=
  match fuel with
  | O => out_of_fuel
  | S fuel' =>
      msg <- collectMessage ;;
      match msg with
      | None =>
          data <- socketRead ;;
          modify_buf (fun b => bufferPush b data) ;;;
          if blen data =? 0 then ret tt
          else serve_loop fuel'
      | Some msg =>
          processMessage msg ;;;
          serve_loop fuel'
      end
  end.

Definition serveClient (fuel : nat) : M unit :=
  modify_buf (fun _ => emptyDynamicBuf) ;;;
  serve_loop fuel.

End LineEcho.

(** The complete lines of a byte sequence, each with its LF, and the bytes
    after the last LF. *)
Fixpoint cut_lines (s : list ascii) : list Buffer * Buffer :=
  match s with
  | [] => ([], [])
  | c :: rest =>
      let '(ls, tail) := cut_lines rest in
      if Ascii.eqb c LF then ([c] :: ls, tail)
      else match ls with
           | [] => ([], c :: tail)
           | l :: ls' => ((c :: l) :: ls', tail)
           end
  end.

Definition no_LF (l : list ascii) : bool :=
  forallb (fun c => negb (Ascii.eqb c LF)) l.

Definition is_quit (msg : Buffer) : bool := JS.str_eqb msg (bytes "quit" ++ [LF]).

Definition echo_reply (msg : Buffer) : Buffer := bytes "Echo: " ++ msg.

(** Two lines and the beginning of a third, cut into three chunks. *)
Definition ex_line_chunks : list Buffer :=
  [bytes "he"; bytes "llo" ++ [LF] ++ bytes "wor"; bytes "ld" ++ [LF] ++ bytes "xy"].

(** The answers to a run of plain GET requests. *)
Definition hello_responses (targets : list (JsString * JsString)) : list Buffer :=
  List.concat (map (fun _ => hello_response) targets).

(** A GET request that fits the header limit. *)
Definition short_plain_get (target : JsString * JsString) : bool :=
  plain_get target && (blen (get_request target) <=? kMaxHeaderLen).

(** What [serveClient] comes to when the stream ends between two requests. *)
Definition end_outcome (fin : StreamEnd) : Outcome unit :=
  match fin with
  | Ends => Returned tt
  | Fails err => Thrown (Error err)
  end.

(** Two requests cut into three chunks, away from the request borders. *)
Definition ex_request_chunks : list Buffer :=
  [bytes "GET / HT";
   bytes "TP/1.1" ++ CRLF ++ CRLF ++ bytes "GET /a HTTP/1.1" ++ CRLF;
   CRLF].
Definition ex_targets : list (JsString * JsString) :=
  [(bytes "/", bytes "HTTP/1.1"); (bytes "/a", bytes "HTTP/1.1")].

(** The header [writeHTTPRes] writes for an answer of [handleReq] with a
    body of [n] bytes. *)
Definition ok_header (n : Z) : Buffer :=
  HTTP_VERSION ++ bytes " 200" ++ CRLF ++ bytes "Server: my_first_http_server"
    ++ CRLF ++ content_length_line n.

(** A request for "/echo", on the wire. *)
Definition echo_request (method version : JsString) (headers : list Buffer) : Buffer :=
  request_header method (bytes "/echo") version headers.

(** The header fields of a request with a body of five bytes.  The
    Content-Length stands between two other fields. *)
Definition ex_echo_headers : list Buffer :=
  [bytes "Host: a"; bytes "Content-Length: 5"; bytes "Accept: x"].

(** What the line echo server writes for a run of lines: an echo for each
    line before the first "quit", an empty line for that one, and nothing
    for the lines after it. *)
Fixpoint answers_until_quit (lines : list Buffer) : list Buffer :=
  match lines with
  | [] => []
  | l :: rest =>
      if is_quit l then [[LF]] else echo_reply l :: answers_until_quit rest
  end.

(** The serve loop does not come back: it waits for an event that is never
    delivered, or it has failed. *)
Definition stuck_or_failed (o : Outcome unit) : Prop :=
  o = Pending \/ exists e, o = Thrown e.

(** Three lines, the second of them "quit", cut into two chunks. *)
Definition ex_quit_chunks : list Buffer :=
  [bytes "hi" ++ [LF] ++ bytes "qu"; bytes "it" ++ [LF] ++ bytes "more" ++ [LF]].

(** * Properties *)

(** ** Buffers *)

Lemma blen_nonneg (b : list ascii) : 0 <= blen b.
Proof. unfold blen; lia. Qed.

Lemma blen_app (a b : list ascii) : blen (a ++ b) = blen a + blen b.
Proof. unfold blen; rewrite length_app; lia. Qed.

Lemma blen_nil_inv (b : list ascii) : blen b = 0 -> b = [].
Proof. destruct b; [reflexivity | unfold blen; simpl; lia]. Qed.

Lemma alloc_blen (n : Z) : 0 <= n -> blen (Buf.alloc n) = n.
Proof. intros Hn; unfold blen, Buf.alloc; rewrite repeat_length; lia. Qed.

Lemma rel_index_in_range (len i : Z) :
  0 <= i <= len -> Buf.rel_index len i = i.
Proof.
  intros H; unfold Buf.rel_index.
  destruct (i <? 0) eqn:E; [apply Z.ltb_lt in E; lia | lia].
Qed.

Lemma subarray_prefix (b : Buffer) (n : Z) :
  0 <= n <= blen b -> Buf.subarray b 0 n = firstn (Z.to_nat n) b.
Proof.
  intros H; unfold Buf.subarray.
  rewrite !rel_index_in_range by lia.
  rewrite Z.sub_0_r; reflexivity.
Qed.

Lemma peek_wf (b : DynamicBuf) :
  buf_wf b -> peek b = firstn (Z.to_nat (buf_length b)) (buf_data b).
Proof. intros H; unfold peek; apply subarray_prefix; exact H. Qed.

Lemma peek_blen (b : DynamicBuf) : buf_wf b -> blen (peek b) = buf_length b.
Proof.
  intros H; rewrite peek_wf by assumption.
  unfold buf_wf, capacity, blen in *.
  rewrite firstn_length_le; lia.
Qed.

(** [copy] when the source fits in the target. *)
Lemma copy_fits (src target : Buffer) (ts : Z) :
  0 <= ts -> ts + blen src <= blen target ->
  Buf.copy src target ts 0
  = firstn (Z.to_nat ts) target ++ src
      ++ skipn (Z.to_nat ts + List.length src) target.
Proof.
  intros H0 Hfit; unfold Buf.copy.
  change (skipn (Z.to_nat 0) src) with src.
  rewrite (firstn_all2 src) by (unfold blen in *; lia).
  reflexivity.
Qed.

Lemma copy_fits_blen (src target : Buffer) (ts : Z) :
  0 <= ts -> ts + blen src <= blen target ->
  blen (Buf.copy src target ts 0) = blen target.
Proof.
  intros H0 Hfit; rewrite copy_fits by assumption.
  unfold blen in *.
  rewrite !length_app, firstn_length_le, length_skipn by lia.
  lia.
Qed.

Lemma copy_fits_prefix (src target : Buffer) (ts : Z) :
  0 <= ts -> ts + blen src <= blen target ->
  firstn (Z.to_nat (ts + blen src)) (Buf.copy src target ts 0)
  = firstn (Z.to_nat ts) target ++ src.
Proof.
  intros H0 Hfit; rewrite copy_fits by assumption.
  unfold blen in *.
  rewrite app_assoc.
  rewrite firstn_app.
  rewrite firstn_all2 by (rewrite length_app, firstn_length_le; lia).
  replace (Z.to_nat (ts + Z.of_nat (List.length src))
           - List.length (firstn (Z.to_nat ts) target ++ src))%nat with 0%nat
    by (rewrite length_app, firstn_length_le; lia).
  simpl; apply app_nil_r.
Qed.

(** The doubling loop reaches the requested length and multiplies the
    starting capacity by a power of two. *)
Lemma grow_cap_reaches (fuel : nat) (cap newLength : Z) :
  0 < cap -> newLength <= cap + Z.of_nat fuel ->
  newLength <= grow_cap fuel cap newLength 2.
Proof.
  revert cap; induction fuel as [|fuel IH]; intros cap Hcap Hle; simpl.
  - lia.
  - destruct (cap <? newLength) eqn:E.
    + apply IH; lia.
    + apply Z.ltb_ge in E; exact E.
Qed.

Lemma grow_cap_pow2 (fuel : nat) (cap newLength : Z) :
  exists k : nat, grow_cap fuel cap newLength 2 = cap * 2 ^ Z.of_nat k.
Proof.
  revert cap; induction fuel as [|fuel IH]; intros cap; simpl.
  - exists 0%nat; simpl; lia.
  - destruct (cap <? newLength).
    + destruct (IH (cap * 2)) as [k Hk].
      exists (S k). rewrite Hk, Nat2Z.inj_succ, Z.pow_succ_r by lia. lia.
    + exists 0%nat; simpl; lia.
Qed.

Lemma expandBufferCap_blen (b : DynamicBuf) (newLength : Z) :
  newLength <= blen (expandBufferCap b newLength 2)
  /\ capacity b <= blen (expandBufferCap b newLength 2)
  /\ exists k : nat,
       blen (expandBufferCap b newLength 2) = Z.max (capacity b) 32 * 2 ^ Z.of_nat k.
Proof.
  unfold expandBufferCap, capacity.
  set (cap := Z.max (blen (buf_data b)) 32).
  assert (Hcap : 32 <= cap) by (unfold cap; lia).
  destruct (grow_cap_pow2 (Z.to_nat newLength) cap newLength) as [k Hk].
  assert (Hpow : 1 <= 2 ^ Z.of_nat k) by (apply Z.pow_le_mono_r with (b := 0); lia).
  assert (Hge : newLength <= grow_cap (Z.to_nat newLength) cap newLength 2)
    by (apply grow_cap_reaches; lia).
  assert (Hmono : cap <= cap * 2 ^ Z.of_nat k).
  { generalize dependent (2 ^ Z.of_nat k); intros; nia. }
  rewrite alloc_blen by lia.
  repeat split; try assumption.
  - unfold cap in *; lia.
  - exists k; exact Hk.
Qed.

Lemma bufferPush_spec (b : DynamicBuf) (d : Buffer) :
  buf_wf b ->
  buf_wf (bufferPush b d)
  /\ peek (bufferPush b d) = peek b ++ d
  /\ capacity b <= capacity (bufferPush b d)
  /\ (capacity (bufferPush b d) = capacity b
      \/ exists k : nat,
           capacity (bufferPush b d) = Z.max (capacity b) 32 * 2 ^ Z.of_nat k).
Proof.
  intros Hwf.
  pose proof (blen_nonneg d) as Hd.
  pose proof (peek_wf b Hwf) as Hpeek.
  unfold buf_wf, capacity in Hwf.
  set (newLength := buf_length b + blen d).
  set (storage :=
         if blen (buf_data b) <? newLength
         then Buf.copy (buf_data b) (expandBufferCap b newLength 2) 0 0
         else buf_data b).
  assert (Hst : newLength <= blen storage
                /\ blen (buf_data b) <= blen storage
                /\ firstn (Z.to_nat (buf_length b)) storage = peek b
                /\ (blen storage = blen (buf_data b)
                    \/ exists k : nat,
                         blen storage = Z.max (blen (buf_data b)) 32 * 2 ^ Z.of_nat k)).
  { unfold storage.
    destruct (blen (buf_data b) <? newLength) eqn:E.
    - destruct (expandBufferCap_blen b newLength) as (H1 & H2 & H3).
      unfold capacity in *.
      rewrite copy_fits_blen by lia.
      split; [exact H1 | split; [exact H2 | split; [ | right; exact H3]]].
      rewrite copy_fits by lia. simpl firstn at 2. simpl app.
      rewrite firstn_app.
      replace (Z.to_nat (buf_length b) - List.length (buf_data b))%nat with 0%nat
        by (unfold blen in *; lia).
      simpl firstn at 2. rewrite app_nil_r. symmetry; exact Hpeek.
    - apply Z.ltb_ge in E.
      split; [exact E | split; [lia | split; [symmetry; exact Hpeek | left; reflexivity]]]. }
  destruct Hst as (Hs1 & Hs2 & Hs3 & Hs4).
  assert (Hdata : buf_data (bufferPush b d) = Buf.copy d storage (buf_length b) 0)
    by reflexivity.
  assert (Hlen : buf_length (bufferPush b d) = newLength) by reflexivity.
  assert (Hcap : capacity (bufferPush b d) = blen storage).
  { unfold capacity; rewrite Hdata; apply copy_fits_blen; unfold newLength in *; lia. }
  assert (Hwf' : buf_wf (bufferPush b d)).
  { unfold buf_wf; rewrite Hcap, Hlen; unfold newLength in *; lia. }
  split; [exact Hwf' | split; [ | split]].
  - rewrite (peek_wf _ Hwf'), Hdata, Hlen. unfold newLength.
    rewrite copy_fits_prefix by (unfold newLength in *; lia).
    rewrite Hs3; reflexivity.
  - rewrite Hcap; unfold capacity; exact Hs2.
  - rewrite Hcap; unfold capacity; exact Hs4.
Qed.

Lemma bufferPop_spec (b : DynamicBuf) (n : Z) :
  buf_wf b -> 0 <= n <= buf_length b ->
  buf_wf (bufferPop b n)
  /\ peek (bufferPop b n) = skipn (Z.to_nat n) (peek b)
  /\ capacity (bufferPop b n) = capacity b.
Proof.
  intros Hwf Hn.
  pose proof (peek_wf b Hwf) as Hpeek.
  unfold buf_wf, capacity in Hwf.
  assert (Hdata : buf_data (bufferPop b n)
                  = Buf.copyWithin (buf_data b) 0 n (buf_length b)) by reflexivity.
  assert (Hlen : buf_length (bufferPop b n) = buf_length b - n) by reflexivity.
  assert (Hcw : blen (Buf.copyWithin (buf_data b) 0 n (buf_length b)) = blen (buf_data b)
                /\ firstn (Z.to_nat (buf_length b - n))
                     (Buf.copyWithin (buf_data b) 0 n (buf_length b))
                   = skipn (Z.to_nat n) (firstn (Z.to_nat (buf_length b)) (buf_data b))).
  { unfold Buf.copyWithin.
    rewrite !rel_index_in_range by lia.
    rewrite Z.sub_0_r.
    replace (Z.min (buf_length b - n) (blen (buf_data b))) with (buf_length b - n) by lia.
    destruct (0 <? buf_length b - n) eqn:E.
    - apply Z.ltb_lt in E.
      change (Z.to_nat 0) with 0%nat. rewrite Z.add_0_l. simpl firstn at 1 3. simpl app.
      assert (Hk : List.length (firstn (Z.to_nat (buf_length b - n))
                                  (skipn (Z.to_nat n) (buf_data b)))
                   = Z.to_nat (buf_length b - n)).
      { rewrite firstn_length_le; [reflexivity | ].
        rewrite length_skipn; unfold blen in *; lia. }
      split.
      + unfold blen in *. rewrite length_app, Hk, length_skipn. lia.
      + rewrite firstn_app, Hk, Nat.sub_diag. simpl firstn at 3.
        rewrite app_nil_r, firstn_firstn, Nat.min_id.
        rewrite skipn_firstn_comm. f_equal. lia.
    - apply Z.ltb_ge in E. split; [reflexivity | ].
      replace (Z.to_nat (buf_length b - n)) with 0%nat by lia.
      rewrite skipn_all2; [reflexivity | ].
      rewrite length_firstn; lia. }
  destruct Hcw as [Hc1 Hc2].
  assert (Hcap : capacity (bufferPop b n) = capacity b)
    by (unfold capacity; rewrite Hdata; exact Hc1).
  assert (Hwf' : buf_wf (bufferPop b n)).
  { unfold buf_wf; rewrite Hcap, Hlen; unfold capacity; lia. }
  split; [exact Hwf' | split; [ | exact Hcap]].
  rewrite (peek_wf _ Hwf'), Hdata, Hlen, Hc2, Hpeek; reflexivity.
Qed.

Lemma emptyDynamicBuf_wf : buf_wf emptyDynamicBuf.
Proof. unfold buf_wf, capacity; simpl; unfold blen; simpl; lia. Qed.

Lemma pow2_multiple_double (cap : Z) (k : nat) :
  cap_shape cap -> 32 <= Z.max cap 32 * 2 ^ Z.of_nat k ->
  pow2_multiple_of_floor (Z.max cap 32 * 2 ^ Z.of_nat k).
Proof.
  intros [H0 | [j Hj]] _.
  - subst cap. exists k. reflexivity.
  - exists (j + k)%nat.
    assert (Hp : 1 <= 2 ^ Z.of_nat j) by (apply Z.pow_le_mono_r with (b := 0); lia).
    replace (Z.max cap 32) with cap by lia.
    rewrite Hj, Nat2Z.inj_add, Z.pow_add_r by lia. ring.
Qed.

Lemma run_ops_invariant (ops : list BufOp) :
  forall b : DynamicBuf,
    buf_wf b -> cap_shape (capacity b) -> pops_ok ops (peek b) ->
    buf_wf (run_ops ops b)
    /\ peek (run_ops ops b) = queue_ops ops (peek b)
    /\ cap_shape (capacity (run_ops ops b))
    /\ capacity b <= capacity (run_ops ops b)
    /\ max_length_held ops (peek b) <= capacity (run_ops ops b).
Proof.
  induction ops as [|op ops IH]; intros b Hwf Hshape Hok.
  - unfold run_ops, queue_ops; simpl.
    split; [exact Hwf | split; [reflexivity | split; [exact Hshape | split; [lia | ]]]].
    rewrite peek_blen by assumption. unfold buf_wf in Hwf; lia.
  - destruct Hok as [Hop Hrest].
    assert (Hstep : buf_wf (apply_op b op)
                    /\ peek (apply_op b op) = queue_op (peek b) op
                    /\ cap_shape (capacity (apply_op b op))
                    /\ capacity b <= capacity (apply_op b op)).
    { destruct op as [d | n]; simpl.
      - destruct (bufferPush_spec b d Hwf) as (H1 & H2 & H3 & H4).
        split; [exact H1 | split; [exact H2 | split; [ | exact H3]]].
        destruct H4 as [H4 | [k H4]].
        + rewrite H4; exact Hshape.
        + right. rewrite H4. apply pow2_multiple_double; [exact Hshape | ].
          assert (Hp : 1 <= 2 ^ Z.of_nat k) by (apply Z.pow_le_mono_r with (b := 0); lia).
          generalize dependent (2 ^ Z.of_nat k); intros; nia.
      - rewrite peek_blen in Hop by assumption.
        destruct (bufferPop_spec b n Hwf Hop) as (H1 & H2 & H3).
        split; [exact H1 | split; [exact H2 | rewrite H3; split; [exact Hshape | lia]]]. }
    destruct Hstep as (S1 & S2 & S3 & S4).
    rewrite <- S2 in Hrest.
    destruct (IH (apply_op b op) S1 S3 Hrest) as (I1 & I2 & I3 & I4 & I5).
    change (run_ops (op :: ops) b) with (run_ops ops (apply_op b op)).
    change (queue_ops (op :: ops) (peek b)) with (queue_ops ops (queue_op (peek b) op)).
    simpl max_length_held.
    rewrite <- S2.
    split; [exact I1 | split; [exact I2 | split; [exact I3 | split; [lia | ]]]].
    rewrite peek_blen by assumption. unfold buf_wf in Hwf. lia.
Qed.

Lemma bufferPush_nil_capacity (b : DynamicBuf) :
  buf_wf b -> capacity (bufferPush b []) = capacity b.
Proof.
  intros Hwf. unfold buf_wf, capacity in *. unfold bufferPush.
  change (blen []) with 0. rewrite Z.add_0_r.
  destruct (blen (buf_data b) <? buf_length b) eqn:E;
    [apply Z.ltb_lt in E; lia | ].
  simpl buf_data. apply copy_fits_blen; change (blen []) with 0; lia.
Qed.

Lemma max_length_held_ge (ops : list BufOp) (q : list ascii) :
  blen q <= max_length_held ops q.
Proof. destruct ops; simpl; lia. Qed.

Lemma run_ops_no_bytes (ops : list BufOp) :
  forall b : DynamicBuf,
    buf_wf b -> capacity b = 0 -> pops_ok ops (peek b) ->
    max_length_held ops (peek b) = 0 ->
    capacity (run_ops ops b) = 0.
Proof.
  induction ops as [|op ops IH]; intros b Hwf Hcap Hok Hmax.
  - exact Hcap.
  - destruct Hok as [Hop Hrest]. simpl in Hmax.
    pose proof (max_length_held_ge ops (queue_op (peek b) op)) as Hge.
    pose proof (blen_nonneg (peek b)) as Hq.
    pose proof (blen_nonneg (queue_op (peek b) op)) as Hq'.
    change (run_ops (op :: ops) b) with (run_ops ops (apply_op b op)).
    destruct op as [d | n]; simpl apply_op; simpl queue_op in *.
    + assert (Hd : d = []).
      { apply blen_nil_inv. rewrite blen_app in *. pose proof (blen_nonneg d). lia. }
      subst d.
      destruct (bufferPush_spec b [] Hwf) as (H1 & H2 & _).
      apply IH; [exact H1 | rewrite bufferPush_nil_capacity; assumption | | ].
      * rewrite H2; exact Hrest.
      * rewrite H2; lia.
    + rewrite peek_blen in Hop by assumption.
      destruct (bufferPop_spec b n Hwf Hop) as (H1 & H2 & H3).
      apply IH; [exact H1 | rewrite H3; exact Hcap | | ].
      * rewrite H2; exact Hrest.
      * rewrite H2; lia.
Qed.

(** C9 (as amended).  For every run of pushes and pops from the empty
    buffer of [serveClient] in which no pop is larger than the current
    length, the bytes the buffer holds are the queue of pushed minus popped
    bytes; the capacity is 0 as long as no byte was ever held, a
    power-of-two multiple of 32 once one was, and never below the largest
    length held. *)
Theorem C9_buffer_is_queue (ops : list BufOp) :
  pops_ok ops [] ->
  peek (run_ops ops emptyDynamicBuf) = queue_ops ops []
  /\ (max_length_held ops [] = 0 -> capacity (run_ops ops emptyDynamicBuf) = 0)
  /\ (0 < max_length_held ops [] ->
      pow2_multiple_of_floor (capacity (run_ops ops emptyDynamicBuf)))
  /\ max_length_held ops [] <= capacity (run_ops ops emptyDynamicBuf).
Proof.
  intros Hok.
  assert (Hpeek0 : peek emptyDynamicBuf = []) by reflexivity.
  assert (Hshape0 : cap_shape (capacity emptyDynamicBuf)) by (left; reflexivity).
  rewrite <- Hpeek0 in Hok.
  destruct (run_ops_invariant ops emptyDynamicBuf emptyDynamicBuf_wf Hshape0 Hok)
    as (_ & I2 & I3 & _ & I5).
  rewrite Hpeek0 in *.
  split; [exact I2 | split; [ | split; [ | exact I5]]].
  - intros Hmax. apply run_ops_no_bytes.
    + exact emptyDynamicBuf_wf.
    + reflexivity.
    + rewrite Hpeek0; exact Hok.
    + rewrite Hpeek0; exact Hmax.
  - intros Hpos. destruct I3 as [I3 | I3]; [lia | exact I3].
Qed.

Lemma C9_buffer_is_queue_witness :
  pops_ok ex_ops []
  /\ peek (run_ops ex_ops emptyDynamicBuf) = queue_ops ex_ops []
  /\ (max_length_held ex_ops [] = 0 -> capacity (run_ops ex_ops emptyDynamicBuf) = 0)
  /\ (0 < max_length_held ex_ops [] ->
      pow2_multiple_of_floor (capacity (run_ops ex_ops emptyDynamicBuf)))
  /\ max_length_held ex_ops [] <= capacity (run_ops ex_ops emptyDynamicBuf).
Proof.
  assert (Hok : pops_ok ex_ops []) by (simpl; unfold blen; simpl; lia).
  split; [exact Hok | apply (C9_buffer_is_queue ex_ops Hok)].
Defined.

(** C9 as stated fails: after pushing the empty chunk that [serveClient]
    pushes at end of stream, the capacity is 0, which is no power-of-two
    multiple of 32. *)
Lemma C9_capacity_counterexample :
  pops_ok [Push []] []
  /\ capacity (run_ops [Push []] emptyDynamicBuf) = 0
  /\ ~ pow2_multiple_of_floor (capacity (run_ops [Push []] emptyDynamicBuf)).
Proof.
  split; [simpl; tauto | split; [reflexivity | ]].
  intros [k Hk]. change (capacity (run_ops [Push []] emptyDynamicBuf)) with 0 in Hk.
  assert (Hp : 0 < 2 ^ Z.of_nat k) by (apply Z.pow_pos_nonneg; lia).
  lia.
Qed.

(** ** Header lookup *)

Lemma index_range_interior {A : Type} (first : A) (mid : list A) (last : A) :
  index_range (first :: mid ++ [last]) 1
    (Z.of_nat (List.length (first :: mid ++ [last])) - 1) = mid.
Proof.
  unfold index_range. change (Z.to_nat 1) with 1%nat. simpl skipn.
  simpl List.length. rewrite length_app. simpl List.length.
  replace (Z.to_nat (Z.of_nat (S (List.length mid + 1)) - 1 - 1)) with (List.length mid) by lia.
  rewrite firstn_app, Nat.sub_diag, firstn_all. simpl. apply app_nil_r.
Qed.

(** The scan returns the value of the first field whose name matches. *)
Lemma getField_scan_first_match (pre : list Buffer) (f : Buffer) (post : list Buffer)
    (key : JsString) :
  forallb (fun h => negb (name_matches key h)) pre = true ->
  name_matches key f = true ->
  getField_scan (pre ++ f :: post) key = field_value f.
Proof.
  intros Hpre Hf. induction pre as [|h pre IH]; simpl.
  - unfold name_matches in Hf. rewrite Hf. reflexivity.
  - simpl in Hpre. apply andb_true_iff in Hpre as [Hh Hpre].
    unfold name_matches in Hh. apply negb_true_iff in Hh. rewrite Hh.
    apply IH; exact Hpre.
Qed.

Lemma getField_scan_no_match (fields : list Buffer) (key : JsString) :
  forallb (fun h => negb (name_matches key h)) fields = true ->
  getField_scan fields key = Ok None.
Proof.
  induction fields as [|h fields IH]; simpl; intros H; [reflexivity | ].
  apply andb_true_iff in H as [Hh H].
  unfold name_matches in Hh. apply negb_true_iff in Hh. rewrite Hh.
  apply IH; exact H.
Qed.

(** Names are compared up to case. *)
Lemma getField_case_insensitive (headers : list Buffer) (k1 k2 : JsString) :
  JS.toLowerCase k1 = JS.toLowerCase k2 ->
  getField headers k1 = getField headers k2.
Proof.
  intros Hk. unfold getField.
  induction (index_range headers 1 (Z.of_nat (List.length headers) - 1)) as [|h l IH];
    simpl; [reflexivity | ].
  rewrite Hk, IH. reflexivity.
Qed.

(** C3.  [getField] never looks at the first and the last entry of the
    header list: on a one-element list it finds nothing, and on a longer
    list it scans the entries strictly between the first and the last.  A
    Content-Length header that stands first or last is not found. *)
Theorem C3_getField_skips_first_and_last :
  (forall h key, getField [h] key = Ok None)
  /\ (forall first mid last key,
        getField (first :: mid ++ [last]) key = getField_scan mid key)
  /\ getField [bytes "Content-Length: 5"] (bytes "Content-Length") = Ok None
  /\ getField [bytes "Content-Length: 5"; bytes "Host: a"] (bytes "Content-Length")
     = Ok None
  /\ getField [bytes "Host: a"; bytes "Content-Length: 5"] (bytes "content-length")
     = Ok None
  /\ getField [bytes "Host: a"; bytes "Content-Length: 5"; bytes "Accept: b"]
       (bytes "content-length") = Ok (Some (bytes "5")).
Proof.
  split; [intros; reflexivity | split].
  - intros first mid last key. unfold getField.
    rewrite index_range_interior. reflexivity.
  - repeat split; reflexivity.
Qed.

(** ** The response encoder *)

Lemma join_absorb (sep a r : list ascii) (rest : list (list ascii)) :
  JS.join sep ((a ++ sep ++ r) :: rest) = a ++ sep ++ JS.join sep (r :: rest).
Proof.
  destruct rest as [|x rest]; simpl.
  - reflexivity.
  - rewrite <- !app_assoc. reflexivity.
Qed.

Lemma reduce_is_join (first : Buffer) (rest : list Buffer) :
  fold_left (fun prev b => Buf.concat [prev; CRLF; b]) rest first
  = JS.join CRLF (first :: rest).
Proof.
  revert first; induction rest as [|r rest IH]; intros first.
  - reflexivity.
  - cbn [fold_left]. rewrite IH.
    unfold Buf.concat. cbn [List.concat]. rewrite app_nil_r.
    apply join_absorb.
Qed.

(** For a non-empty header list the encoder writes the status line, CRLF
    and the header lines joined with CRLF. *)
Lemma encodeHTTPRes_joined (statusCode : Z) (first : Buffer) (rest : list Buffer)
    (body : BodyReader) :
  encodeHTTPRes {| res_statusCode := statusCode; res_headers := first :: rest;
                   res_body := body |}
  = Ok ((HTTP_VERSION ++ bytes " " ++ JS.numberToString statusCode)
          ++ CRLF ++ JS.join CRLF (first :: rest)).
Proof.
  unfold encodeHTTPRes. cbn [res_headers res_statusCode].
  rewrite reduce_is_join. unfold Buf.concat. cbn [List.concat].
  rewrite app_nil_r. reflexivity.
Qed.

(** C1.  For a non-empty header list [encodeHTTPRes] returns the status
    line, CRLF and the header lines joined with CRLF, and nothing after the
    last header line: the final CRLF of the claim is never written.  For
    status 200 and the headers "X: y" and "Content-Length: 2" the output
    ends with "Content-Length: 2". *)
Theorem C1_encodeHTTPRes_no_final_CRLF :
  (forall (statusCode : Z) (first : Buffer) (rest : list Buffer) (body : BodyReader),
     let res := {| res_statusCode := statusCode; res_headers := first :: rest;
                   res_body := body |} in
     let statusLine := HTTP_VERSION ++ bytes " " ++ JS.numberToString statusCode in
     encodeHTTPRes res = Ok (statusLine ++ CRLF ++ JS.join CRLF (first :: rest))
     /\ encodeHTTPRes res
        <> Ok (statusLine ++ CRLF ++ JS.join CRLF (first :: rest) ++ CRLF))
  /\ encodeHTTPRes {| res_statusCode := 200;
                      res_headers := [bytes "X: y"; bytes "Content-Length: 2"];
                      res_body := {| reader_length := 2; reader_id := 0 |} |}
     = Ok (bytes "HTTP/1.1 200" ++ CRLF ++ bytes "X: y" ++ CRLF
             ++ bytes "Content-Length: 2").
Proof.
  split; [ | reflexivity].
  intros statusCode first rest body res statusLine.
  pose proof (encodeHTTPRes_joined statusCode first rest body) as H.
  fold res in H. fold statusLine in H.
  split; [exact H | ].
  rewrite H. intros Heq. injection Heq as Heq.
  apply app_inv_head in Heq. apply (app_inv_head CRLF) in Heq.
  apply (f_equal (@List.length ascii)) in Heq.
  rewrite length_app in Heq. change (List.length CRLF) with 2%nat in Heq. lia.
Qed.

(** ** The response writer *)

(** C5.  A response whose header list already has a Content-Length is not
    rejected: the [console.assert] prints and the write goes on, so two
    Content-Length lines are sent.  When the existing field is the only
    entry of the list, [getField] does not see it and nothing is printed. *)
Theorem C5_double_content_length_is_sent :
  (let '(o, w) := respond 200 [bytes "X: y"; bytes "Content-Length: 2"; bytes "Z: w"]
                    (bytes "hi") in
   o = Returned {| res_statusCode := 200;
                   res_headers := [bytes "X: y"; bytes "Content-Length: 2"; bytes "Z: w";
                                   bytes "Content-Length: 2"];
                   res_body := {| reader_length := 2; reader_id := 0 |} |}
   /\ sent w = [bytes "HTTP/1.1 200" ++ CRLF ++ bytes "X: y" ++ CRLF
                  ++ bytes "Content-Length: 2" ++ CRLF ++ bytes "Z: w" ++ CRLF
                  ++ bytes "Content-Length: 2";
                bytes "hi"]
   /\ console w = [bytes "writeHTTPRes: Content-Length not set"])
  /\ (let '(o, w) := respond 200 [bytes "Content-Length: 2"] (bytes "hi") in
      sent w = [bytes "HTTP/1.1 200" ++ CRLF ++ bytes "Content-Length: 2" ++ CRLF
                  ++ bytes "Content-Length: 2";
                bytes "hi"]
      /\ console w = []).
Proof. vm_compute. repeat split; reflexivity. Qed.

(** ** The serve loop *)

(** One turn of the loop on a complete request: after the response is
    written the loop returns exactly when the version token is the string
    "1.0"; otherwise it drains the request body and goes on. *)
Lemma serve_loop_after_response (fuel : nat) (w w1 w2 w3 w4 : World)
    (msg : HTTPReq) (reqBody : BodyReader) (res res' : HTTPRes) :
  collectMessage w = (Returned (Some msg), w1) ->
  readerFromReq msg w1 = (Returned reqBody, w2) ->
  handleReq msg reqBody w2 = (Returned res, w3) ->
  writeHTTPRes fuel res w3 = (Returned res', w4) ->
  serve_loop (S fuel) w
  = if version_is msg "1.0" then (Returned tt, w4)
    else (drain fuel reqBody ;;; serve_loop fuel) w4.
Proof.
  intros H1 H2 H3 H4.
  cbn [serve_loop]. unfold bind at 1. rewrite H1.
  unfold bind at 1. rewrite H2.
  unfold bind at 1. rewrite H3.
  unfold bind at 1. rewrite H4.
  destruct (version_is msg "1.0"); reflexivity.
Qed.

(** The version token of a start line "... HTTP/1.0" is not "1.0". *)
Lemma version_token_http_1_0 (req : HTTPReq) :
  req_version req = Some (bytes "HTTP/1.0") -> version_is req "1.0" = false.
Proof. intros H; unfold version_is; rewrite H; reflexivity. Qed.

(** C2.  The start line "GET / HTTP/1.0" parses to the version token
    "HTTP/1.0", which the loop compares with "1.0": two pipelined HTTP/1.0
    requests are both answered and the loop then awaits a third request.
    Only the literal token "1.0" ends the loop after one response.  An
    HTTP/1.1 request is answered and the loop awaits the next one. *)
Theorem C2_http_1_0_is_kept_alive :
  parseRequestLine (bytes "GET / HTTP/1.0")
  = Ok (bytes "GET", bytes "/", Some (bytes "HTTP/1.0"))
  /\ (let '(o, w) := serveClient 10 (newConn [EvData (req_1_0 ++ req_1_0)]) in
      o = Pending
      /\ sent w = [hello_header; hello_body; hello_header; hello_body]
      /\ peek (buf w) = [])
  /\ (let '(o, w) := serveClient 10
                       (newConn [EvData (bytes "GET / 1.0" ++ CRLF ++ CRLF ++ req_1_0)]) in
      o = Returned tt
      /\ sent w = [hello_header; hello_body]
      /\ peek (buf w) = req_1_0)
  /\ (let '(o, w) := serveClient 10 (newConn [EvData req_1_1]) in
      o = Pending
      /\ sent w = [hello_header; hello_body]
      /\ peek (buf w) = []).
Proof. vm_compute. repeat split; reflexivity. Qed.

(** ** Line splitting *)

Lemma starts_with_length (needle hay : list ascii) :
  JS.starts_with needle hay = true -> (List.length needle <= List.length hay)%nat.
Proof.
  revert hay; induction needle as [|n ns IH]; intros hay H; simpl in *; [lia | ].
  destruct hay as [|h hs]; [discriminate | ].
  apply andb_true_iff in H as [_ H]. apply IH in H. simpl; lia.
Qed.

Lemma starts_with_nil_hay (needle : list ascii) :
  needle <> [] -> JS.starts_with needle [] = false.
Proof. destruct needle; [congruence | reflexivity]. Qed.

(** [indexOf_at] returns the first offset where the needle starts. *)
Lemma indexOf_at_spec (needle : list ascii) :
  needle <> [] ->
  forall (hay : list ascii) (i : Z),
    (JS.indexOf_at needle hay i = -1
     /\ forall k : nat, JS.starts_with needle (skipn k hay) = false)
    \/ (exists k : nat,
          JS.indexOf_at needle hay i = i + Z.of_nat k
          /\ JS.starts_with needle (skipn k hay) = true
          /\ forall k' : nat, (k' < k)%nat -> JS.starts_with needle (skipn k' hay) = false).
Proof.
  intros Hne. induction hay as [|h tl IH]; intros i.
  - left. simpl. rewrite starts_with_nil_hay by assumption.
    split; [reflexivity | ]. intros k. rewrite skipn_nil.
    apply starts_with_nil_hay; assumption.
  - cbn [JS.indexOf_at]. destruct (JS.starts_with needle (h :: tl)) eqn:E.
    + right. exists 0%nat. split; [lia | split; [exact E | intros; lia]].
    + destruct (IH (i + 1)) as [[Hr Hno] | (k & Hr & Hyes & Hno)].
      * left. split; [exact Hr | ]. intros [|k]; [exact E | apply Hno].
      * right. exists (S k). split; [rewrite Hr; lia | split; [exact Hyes | ]].
        intros [|k'] Hlt; [exact E | apply Hno; lia].
Qed.

Lemma occurs_at_fits (needle b : list ascii) (j : Z) :
  needle <> [] ->
  occurs_at needle b j = true -> 0 <= j /\ j + blen needle <= blen b.
Proof.
  unfold occurs_at. intros Hne H. apply andb_true_iff in H as [Hj H].
  apply Z.leb_le in Hj. apply starts_with_length in H.
  rewrite length_skipn in H. unfold blen.
  destruct needle as [|n ns]; [congruence | ].
  simpl in *. lia.
Qed.

(** [indexOf] from a non-negative offset: the first occurrence at or after
    it, or -1 when there is none. *)
Lemma indexOf_spec (b needle : list ascii) (start : Z) :
  needle <> [] -> 0 <= start ->
  (JS.indexOf b needle start = -1
   /\ forall j, start <= j -> occurs_at needle b j = false)
  \/ (start <= JS.indexOf b needle start
      /\ occurs_at needle b (JS.indexOf b needle start) = true
      /\ forall j, start <= j < JS.indexOf b needle start -> occurs_at needle b j = false).
Proof.
  intros Hne Hstart. unfold JS.indexOf.
  destruct (start <? 0) eqn:E0; [apply Z.ltb_lt in E0; lia | ].
  destruct (blen b <? start) eqn:E1.
  - apply Z.ltb_lt in E1. left. split; [destruct needle; congruence | ].
    intros j Hj. unfold occurs_at.
    rewrite skipn_all2 by (unfold blen in *; lia).
    rewrite starts_with_nil_hay by assumption. apply andb_false_r.
  - apply Z.ltb_ge in E1.
    destruct (indexOf_at_spec needle Hne (skipn (Z.to_nat start) b) start)
      as [[Hr Hno] | (k & Hr & Hyes & Hno)].
    + left. split; [exact Hr | ]. intros j Hj. unfold occurs_at.
      specialize (Hno (Z.to_nat (j - start))). rewrite skipn_skipn in Hno.
      replace (Z.to_nat (j - start) + Z.to_nat start)%nat with (Z.to_nat j) in Hno by lia.
      rewrite Hno. apply andb_false_r.
    + right. rewrite Hr. split; [lia | split].
      * unfold occurs_at. rewrite skipn_skipn in Hyes.
        replace (Z.to_nat (start + Z.of_nat k)) with (k + Z.to_nat start)%nat by lia.
        rewrite Hyes. apply andb_true_iff; split; [apply Z.leb_le; lia | reflexivity].
      * intros j Hj. unfold occurs_at.
        specialize (Hno (Z.to_nat (j - start))). rewrite skipn_skipn in Hno.
        replace (Z.to_nat (j - start) + Z.to_nat start)%nat with (Z.to_nat j) in Hno by lia.
        rewrite Hno by lia. apply andb_false_r.
Qed.

Lemma findDelimiter_priority (buf : Buffer) (start : Z) :
  0 <= start ->
  delimiter_by_priority buf start
    (fst (findDelimiter buf start)) (snd (findDelimiter buf start)).
Proof.
  intros Hstart. unfold findDelimiter, delimiter_by_priority, first_occurrence, no_occurrence.
  assert (N1 : CRLF <> []) by discriminate.
  assert (N2 : [CR] <> []) by discriminate.
  assert (N3 : [LF] <> []) by discriminate.
  destruct (indexOf_spec buf CRLF start N1 Hstart) as [[R1 H1] | (R1 & O1 & H1)].
  - rewrite R1. simpl (0 <=? -1).  cbv iota.
    destruct (indexOf_spec buf [CR] start N2 Hstart) as [[R2 H2] | (R2 & O2 & H2)].
    + rewrite R2. simpl (0 <=? -1). cbv iota.
      destruct (indexOf_spec buf [LF] start N3 Hstart) as [[R3 H3] | (R3 & O3 & H3)].
      * rewrite R3. simpl. right; right; right. auto.
      * destruct (0 <=? JS.indexOf buf [LF] start) eqn:E;
          [ | apply Z.leb_gt in E; lia].
        simpl. right; right; left. auto.
    + destruct (0 <=? JS.indexOf buf [CR] start) eqn:E;
        [ | apply Z.leb_gt in E; lia].
      simpl. right; left. auto.
  - destruct (0 <=? JS.indexOf buf CRLF start) eqn:E;
      [ | apply Z.leb_gt in E; lia].
    simpl. left. auto.
Qed.

(** What the loop needs: a delimiter that was found lies inside the buffer
    and ahead of [start]. *)
Lemma findDelimiter_progress (buf : Buffer) (start : Z) :
  0 <= start ->
  fst (findDelimiter buf start) = -1
  \/ (start <= fst (findDelimiter buf start)
      /\ 1 <= snd (findDelimiter buf start)
      /\ fst (findDelimiter buf start) + snd (findDelimiter buf start) <= blen buf).
Proof.
  intros Hstart.
  destruct (findDelimiter_priority buf start Hstart)
    as [(Ho & Hs & Hocc & _) | [(Ho & _ & Hs & Hocc & _) | [(Ho & _ & Hs & Hocc & _) | (Hn & _)]]].
  - right. apply occurs_at_fits in Hocc; [ | discriminate].
    rewrite Ho. change (blen CRLF) with 2 in Hocc. lia.
  - right. apply occurs_at_fits in Hocc; [ | discriminate].
    rewrite Ho. change (blen [CR]) with 1 in Hocc. lia.
  - right. apply occurs_at_fits in Hocc; [ | discriminate].
    rewrite Ho. change (blen [LF]) with 1 in Hocc. lia.
  - left; exact Hn.
Qed.

(** The loop of [splitLines] ends before its fuel does: any two amounts of
    fuel above the number of bytes left give the same lines. *)
Lemma splitLines_loop_fuel (buf : Buffer) :
  forall (fuel1 fuel2 : nat) (start : Z) (lines : list Buffer),
    0 <= start <= blen buf ->
    (Z.to_nat (blen buf - start) < fuel1)%nat ->
    (Z.to_nat (blen buf - start) < fuel2)%nat ->
    splitLines_loop fuel1 buf start lines = splitLines_loop fuel2 buf start lines.
Proof.
  induction fuel1 as [|fuel1 IH]; intros fuel2 start lines Hstart H1 H2; [lia | ].
  destruct fuel2 as [|fuel2]; [lia | ].
  cbn [splitLines_loop].
  destruct (findDelimiter_progress buf start (proj1 Hstart)) as [Hn | (Hs & Ho & Hfit)];
    destruct (findDelimiter buf start) as [next delimOffset]; cbn [fst snd] in *.
  - subst next. reflexivity.
  - destruct (next =? -1); [reflexivity | ].
    apply IH; lia.
Qed.

Lemma splitLines_loop_S (fuel : nat) (buf : Buffer) (start : Z) (lines : list Buffer) :
  splitLines_loop (S fuel) buf start lines
  = let '(next, delimOffset) := findDelimiter buf start in
    if next =? -1 then
      (if JS.str_eqb (Buf.subarray_from buf start) [] then lines
       else lines ++ [Buf.subarray_from buf start])
    else splitLines_loop fuel buf (next + delimOffset)
           (lines ++ [Buf.subarray buf start next]).
Proof. reflexivity. Qed.

(** The loop equation of [splitLines], free of fuel. *)
Lemma splitLines_unfold (buf : Buffer) :
  splitLines buf
  = let '(next, delimOffset) := findDelimiter buf 0 in
    if next =? -1 then (if JS.str_eqb buf [] then [] else [buf])
    else splitLines_loop (S (Z.to_nat (blen buf - (next + delimOffset)))) buf
           (next + delimOffset) [Buf.subarray buf 0 next].
Proof.
  unfold splitLines. rewrite splitLines_loop_S.
  destruct (findDelimiter_progress buf 0 (Z.le_refl 0)) as [Hn | (Hs & Ho & Hfit)];
    destruct (findDelimiter buf 0) as [next delimOffset]; cbn [fst snd] in *.
  - subst next. simpl (-1 =? -1).  cbv iota.
    assert (Hsub : Buf.subarray_from buf 0 = buf).
    { unfold Buf.subarray_from. rewrite subarray_prefix by (pose proof (blen_nonneg buf); lia).
      apply firstn_all2. unfold blen; lia. }
    rewrite Hsub. reflexivity.
  - destruct (next =? -1) eqn:E; [apply Z.eqb_eq in E; lia | ].
    cbn [app]. apply splitLines_loop_fuel; unfold blen in *; lia.
Qed.

(** The lines collected so far are only added to. *)
Lemma splitLines_loop_app (fuel : nat) (buf : Buffer) :
  forall (start : Z) (lines1 lines2 : list Buffer),
    splitLines_loop fuel buf start (lines1 ++ lines2)
    = lines1 ++ splitLines_loop fuel buf start lines2.
Proof.
  induction fuel as [|fuel IH]; intros start lines1 lines2; [reflexivity | ].
  cbn [splitLines_loop].
  destruct (findDelimiter buf start) as [next delimOffset].
  destruct (next =? -1).
  - destruct (JS.str_eqb (Buf.subarray_from buf start) []);
      [reflexivity | apply eq_sym, app_assoc].
  - rewrite <- app_assoc. apply IH.
Qed.

(** At any scan position the loop adds the lines [lines_from] gives. *)
Lemma splitLines_loop_lines_from (buf : Buffer) (start : Z) (fuel : nat)
    (lines : list Buffer) :
  0 <= start <= blen buf ->
  (Z.to_nat (blen buf - start) < fuel)%nat ->
  splitLines_loop fuel buf start lines = lines ++ lines_from buf start.
Proof.
  intros Hstart Hfuel. unfold lines_from.
  rewrite <- (app_nil_r lines) at 1. rewrite splitLines_loop_app.
  f_equal. apply splitLines_loop_fuel; [exact Hstart | exact Hfuel | lia].
Qed.

(** One iteration of the loop, free of fuel: the bytes up to the delimiter
    are a line and the scan resumes behind the delimiter. *)
Lemma lines_from_unfold (buf : Buffer) (start : Z) :
  0 <= start <= blen buf ->
  lines_from buf start
  = if fst (findDelimiter buf start) =? -1
    then last_piece (Buf.subarray_from buf start)
    else Buf.subarray buf start (fst (findDelimiter buf start))
           :: lines_from buf (fst (findDelimiter buf start) + snd (findDelimiter buf start)).
Proof.
  intros Hstart. unfold lines_from at 1. rewrite splitLines_loop_S.
  destruct (findDelimiter_progress buf start (proj1 Hstart)) as [Hn | (Hs & Ho & Hfit)];
    destruct (findDelimiter buf start) as [next delimOffset]; cbn [fst snd] in *.
  - subst next. simpl (-1 =? -1). cbv iota.
    destruct (Buf.subarray_from buf start); reflexivity.
  - destruct (next =? -1) eqn:E; [apply Z.eqb_eq in E; lia | ].
    rewrite splitLines_loop_lines_from by lia. reflexivity.
Qed.

Lemma splitLines_lines_from (buf : Buffer) : splitLines buf = lines_from buf 0.
Proof.
  unfold splitLines, lines_from. f_equal. f_equal. unfold blen. lia.
Qed.

(** C4 (as amended).  At each scan position [start] of [splitLines],
    [findDelimiter] takes the first CRLF that occurs anywhere at or after
    the position as a two-byte delimiter, even when a bare CR or LF comes
    before it; when no CRLF is left it takes the first CR, even when an LF
    comes before it; when no CR is left it takes the first LF; otherwise
    there is no delimiter.  The loop of [splitLines] then adds the bytes
    from [start] up to the delimiter as a line and resumes behind the two
    bytes or the one byte of the delimiter; without a delimiter it adds the
    bytes left, if any, and stops.  [splitLines] is this scan from
    position 0, and its scan positions do not pass the end of the buffer. *)
Theorem C4_findDelimiter_prefers_CRLF (buf : Buffer) (start : Z) :
  0 <= start ->
  let '(next, delimOffset) := findDelimiter buf start in
  delimiter_by_priority buf start next delimOffset
  /\ (next <> -1 -> start <= next /\ next + delimOffset <= blen buf)
  /\ (start <= blen buf ->
      lines_from buf start
      = (if next =? -1 then last_piece (Buf.subarray_from buf start)
         else Buf.subarray buf start next :: lines_from buf (next + delimOffset))
      /\ forall (fuel : nat) (lines : list Buffer),
           (Z.to_nat (blen buf - start) < fuel)%nat ->
           splitLines_loop fuel buf start lines = lines ++ lines_from buf start)
  /\ splitLines buf = lines_from buf 0.
Proof.
  intros Hstart.
  pose proof (findDelimiter_priority buf start Hstart) as Hp.
  pose proof (findDelimiter_progress buf start Hstart) as Hg.
  pose proof (lines_from_unfold buf start) as Hu.
  destruct (findDelimiter buf start) as [next delimOffset]. cbn [fst snd] in Hp, Hg, Hu.
  split; [exact Hp | split; [ | split]].
  - intros Hnext. destruct Hg as [Hg | Hg]; [contradiction | lia].
  - intros Hend. split; [apply Hu; lia | ].
    intros fuel lines Hfuel. apply splitLines_loop_lines_from; [lia | exact Hfuel].
  - apply splitLines_lines_from.
Qed.

Lemma C4_findDelimiter_prefers_CRLF_witness :
  0 <= 0 <= blen mixed_breaks
  /\ findDelimiter mixed_breaks 0 = (3, 2)
  /\ delimiter_by_priority mixed_breaks 0 3 2
  /\ lines_from mixed_breaks 0
     = (bytes "a" ++ [LF] ++ bytes "b") :: lines_from mixed_breaks 5
  /\ splitLines mixed_breaks = lines_from mixed_breaks 0.
Proof.
  assert (H0 : 0 <= 0 <= blen mixed_breaks) by (unfold blen; simpl; lia).
  split; [exact H0 | split; [reflexivity | ]].
  destruct (C4_findDelimiter_prefers_CRLF mixed_breaks 0 (proj1 H0))
    as (Hp & _ & Hl & Hs).
  split; [exact Hp | split; [exact (proj1 (Hl (proj2 H0))) | exact Hs]].
Defined.

(** In "a", LF, "b", CR, LF, "c" the first break taken is the CRLF at
    offset 3, and the first line keeps the bare LF. *)
Example splitLines_mixed_breaks :
  findDelimiter mixed_breaks 0 = (3, 2)
  /\ splitLines mixed_breaks = [bytes "a" ++ [LF] ++ bytes "b"; bytes "c"].
Proof. split; reflexivity. Qed.

(** C4 as stated fails: the earliest-break policy takes the bare LF at
    offset 1 and gives the first line "a"; the code takes the CRLF at
    offset 3 and gives the first line "a", LF, "b". *)
Lemma C4_earliest_break_counterexample :
  spec_findDelimiter mixed_breaks 0 = (1, 1)
  /\ findDelimiter mixed_breaks 0 <> spec_findDelimiter mixed_breaks 0
  /\ hd_error (splitLines mixed_breaks) <> Some (bytes "a").
Proof. repeat split; vm_compute; discriminate. Qed.

(** ** The request parser *)

Lemma collect_headers_spec (fields headers : list Buffer) :
  collect_headers fields headers
  = if forallb validateHeader fields then Ok (headers ++ fields)
    else Throw (HTTPError 400 (bytes "Bad field.")).
Proof.
  revert headers; induction fields as [|f fields IH]; intros headers; simpl.
  - rewrite app_nil_r; reflexivity.
  - destruct (validateHeader f); simpl; [ | reflexivity].
    rewrite IH, <- app_assoc. reflexivity.
Qed.

(** [parseRequestLine] has no error of its own: it fails only when the
    runtime fails on a missing second token. *)
Lemma parseRequestLine_throws_TypeError (reqLine : Buffer) (e : Exn) :
  parseRequestLine reqLine = Throw e -> e = TypeError.
Proof.
  unfold parseRequestLine.
  destruct (JS.split " " reqLine) as [|method [|uri rest]]; intros H;
    try discriminate; injection H as H; congruence.
Qed.

(** A start line without a space makes the parser fail with a TypeError,
    which is no [HTTPError]: no 400 response is written for it. *)
Example parseHTTPReq_one_token :
  parseHTTPReq (bytes "GET" ++ CRLF ++ CRLF) = Throw TypeError.
Proof. reflexivity. Qed.

(** C6 (as amended).  [parseHTTPReq] does not count the tokens of the start
    line.  For an ASCII header block whose first line has at least two
    space-separated tokens, the outcome depends on the header lines alone:
    if all of them validate, the request is parsed with the first two tokens
    as method and uri and the third token as version, undefined when there
    are only two tokens and with any further token ignored; otherwise the
    error is 400 "Bad field.". *)
Theorem C6_start_line_tokens_not_counted
    (data line0 : Buffer) (others : list Buffer)
    (method uri : JsString) (toks : list JsString) :
  ascii_only data = true ->
  splitLines data = line0 :: others ->
  JS.split " " line0 = method :: uri :: toks ->
  let fields := index_range (line0 :: others) 1
                  (Z.of_nat (List.length (line0 :: others)) - 1) in
  parseHTTPReq data
  = if forallb validateHeader fields then
      Ok ({| req_method := method; req_uri := uri;
             req_version := nth_error toks 0; req_headers := fields |},
          last_line_is_empty (line0 :: others))
    else Throw (HTTPError 400 (bytes "Bad field.")).
Proof.
  intros _ Hlines Htoks fields.
  unfold parseHTTPReq. rewrite Hlines.
  unfold parseRequestLine. rewrite Htoks.
  fold fields. rewrite collect_headers_spec.
  destruct (forallb validateHeader fields); reflexivity.
Qed.

Lemma C6_start_line_tokens_not_counted_witness :
  ascii_only req_four_tokens = true
  /\ splitLines req_four_tokens = [bytes "GET / HTTP/1.1 extra"; bytes "Host: a"; []]
  /\ JS.split " " (bytes "GET / HTTP/1.1 extra")
     = [bytes "GET"; bytes "/"; bytes "HTTP/1.1"; bytes "extra"]
  /\ parseHTTPReq req_four_tokens
     = Ok ({| req_method := bytes "GET"; req_uri := bytes "/";
              req_version := Some (bytes "HTTP/1.1"); req_headers := [bytes "Host: a"] |},
           true).
Proof.
  split; [reflexivity | split; [reflexivity | split; [reflexivity | ]]].
  exact (C6_start_line_tokens_not_counted req_four_tokens
           (bytes "GET / HTTP/1.1 extra") [bytes "Host: a"; []]
           (bytes "GET") (bytes "/") [bytes "HTTP/1.1"; bytes "extra"]
           eq_refl eq_refl eq_refl).
Defined.

(** C6 as stated fails: the start line "GET /" has two tokens, and the
    request is parsed without error, its version undefined. *)
Lemma C6_two_tokens_counterexample :
  ascii_only req_two_tokens = true
  /\ List.length (JS.split " " (bytes "GET /")) = 2%nat
  /\ parseHTTPReq req_two_tokens
     = Ok ({| req_method := bytes "GET"; req_uri := bytes "/";
              req_version := None; req_headers := [] |}, true).
Proof. repeat split; reflexivity. Qed.

(** ** The fixed-length body reader *)

Lemma nth_error_set_reader (rs : list ReaderState) (id : nat) (st st' : ReaderState) :
  nth_error rs id = Some st ->
  nth_error (firstn id rs ++ [st'] ++ skipn (S id) rs) id = Some st'.
Proof.
  intros H.
  assert (Hlt : (id < List.length rs)%nat) by (apply nth_error_Some; congruence).
  rewrite nth_error_app2 by (rewrite firstn_length_le; lia).
  rewrite firstn_length_le by lia. rewrite Nat.sub_diag. reflexivity.
Qed.






(** Declared length 5 and "hello" buffered: the first read returns
    "hello", the reads after it return the empty buffer and change nothing. *)
Example fixed_length_hello :
  let '(o1, w1) := read hello_reader (hello_conn [] (bytes "hello")) in
  let '(o2, w2) := read hello_reader w1 in
  let '(o3, w3) := read hello_reader w2 in
  o1 = Returned (bytes "hello") /\ o2 = Returned [] /\ o3 = Returned []
  /\ w2 = w1 /\ w3 = w1.
Proof. vm_compute. repeat split; reflexivity. Qed.

(** Declared length 5, "he" buffered, "ll" still to come and then the end
    of the stream: the reads return "he", then "ll", then fail. *)
Example fixed_length_short_stream :
  let '(o1, w1) := read hello_reader (hello_conn [EvData (bytes "ll"); EvEnd] (bytes "he")) in
  let '(o2, w2) := read hello_reader w1 in
  let '(o3, w3) := read hello_reader w2 in
  o1 = Returned (bytes "he") /\ o2 = Returned (bytes "ll")
  /\ o3 = Thrown (Error (bytes "Unexpected EOF from HTTP body")).
Proof. vm_compute. repeat split; reflexivity. Qed.

(** ** Choosing the body reader *)

(** The choice made by [readerFromReq] once both header lookups have
    succeeded and the Content-Length, if any, has an integer prefix. *)
Lemma readerFromReq_selection (req : HTTPReq) (w : World)
    (cl te : option Buffer) (bodyLen : Z) :
  getField (req_headers req) (bytes "Content-Length") = Ok cl ->
  getField (req_headers req) (bytes "Transfer-Encoding") = Ok te ->
  parsed_length cl = Some bodyLen ->
  readerFromReq req w
  = if no_body_method req then
      if (0 <? bodyLen) || opt_equals te (bytes "chunked")
      then (Thrown (HTTPError 400 (bytes "HTTP body not allowed.")), w)
      else fixed_length_reader 0 w
    else if 0 <=? bodyLen then fixed_length_reader bodyLen w
    else (Thrown (HTTPError 501 (bytes "TODO:")), w).
Proof.
  intros Hcl Hte Hlen.
  unfold readerFromReq. rewrite Hcl, Hte. unfold no_body_method.
  assert (Hb : (match cl with
                | Some v =>
                    match JS.parseInt v with
                    | Some n => ret n
                    | None => throw (HTTPError 400 (bytes "Bad Content-Length."))
                    end
                | None => ret (-1)
                end) = ret bodyLen).
  { destruct cl as [v | ]; cbn [parsed_length] in Hlen.
    - rewrite Hlen; reflexivity.
    - injection Hlen as Hlen; subst; reflexivity. }
  unfold lift at 1. unfold bind at 1. unfold ret at 1.
  rewrite Hb.
  unfold bind at 1. unfold ret at 1.
  unfold lift at 1. unfold bind at 1. unfold ret at 1.
  set (ch := opt_equals te (bytes "chunked")).
  destruct (JS.str_eqb (req_method req) (bytes "GET")
            || JS.str_eqb (req_method req) (bytes "HEAD")); cbn [negb andb].
  - destruct ((0 <? bodyLen) || ch); reflexivity.
  - destruct (0 <=? bodyLen); [reflexivity | ].
    destruct ch; reflexivity.
Qed.

(** A Content-Length without an integer prefix is refused first, whatever
    the method. *)
Lemma readerFromReq_bad_length (req : HTTPReq) (w : World) (v : Buffer) :
  getField (req_headers req) (bytes "Content-Length") = Ok (Some v) ->
  JS.parseInt v = None ->
  readerFromReq req w = (Thrown (HTTPError 400 (bytes "Bad Content-Length.")), w).
Proof.
  intros Hcl Hnan. unfold readerFromReq. rewrite Hcl.
  unfold lift at 1. unfold bind at 1. unfold ret at 1.
  rewrite Hnan. reflexivity.
Qed.

(** C8 (as amended).  For a request with ASCII header fields, once the
    two header lookups have completed, [readerFromReq] chooses in this
    order.  A Content-Length without an integer prefix fails with 400 "Bad
    Content-Length.", whatever the method.  Otherwise, with [bodyLen] the
    number read, or [-1] without a Content-Length: GET and HEAD with a
    positive Content-Length or chunked encoding fail with 400 "HTTP body not
    allowed."; GET and HEAD otherwise, a negative Content-Length included,
    get a fixed-length reader of length 0; other methods get a fixed-length
    reader of length [bodyLen] when it is 0 or more (and at most
    [JS.MAX_SAFE_INTEGER]), and 501 when it is negative, chunked or not. *)
Theorem C8_body_reader_selection (req : HTTPReq) (w : World)
    (cl te : option Buffer) :
  forallb ascii_only (req_headers req) = true ->
  getField (req_headers req) (bytes "Content-Length") = Ok cl ->
  getField (req_headers req) (bytes "Transfer-Encoding") = Ok te ->
  let chunked := opt_equals te (bytes "chunked") in
  (parsed_length cl = None ->
   readerFromReq req w = (Thrown (HTTPError 400 (bytes "Bad Content-Length.")), w))
  /\ (forall bodyLen : Z,
       parsed_length cl = Some bodyLen ->
       (no_body_method req = true -> (0 < bodyLen \/ chunked = true) ->
        readerFromReq req w = (Thrown (HTTPError 400 (bytes "HTTP body not allowed.")), w))
       /\ (no_body_method req = true -> bodyLen <= 0 -> chunked = false ->
           readerFromReq req w = fixed_length_reader 0 w)
       /\ (no_body_method req = false -> 0 <= bodyLen <= JS.MAX_SAFE_INTEGER ->
           readerFromReq req w = fixed_length_reader bodyLen w)
       /\ (no_body_method req = false -> bodyLen < 0 ->
           readerFromReq req w = (Thrown (HTTPError 501 (bytes "TODO:")), w))).
Proof.
  intros _ Hcl Hte chunked. split.
  - intros Hnan. destruct cl as [v | ]; [ | discriminate Hnan].
    exact (readerFromReq_bad_length req w v Hcl Hnan).
  - intros bodyLen Hlen.
    rewrite (readerFromReq_selection req w cl te bodyLen Hcl Hte Hlen).
    fold chunked.
    split; [ | split; [ | split]].
    + intros Hm [Hpos | Hch]; rewrite Hm.
      * replace (0 <? bodyLen) with true by (symmetry; apply Z.ltb_lt; lia). reflexivity.
      * rewrite Hch, orb_true_r. reflexivity.
    + intros Hm Hle Hch. rewrite Hm, Hch.
      replace (0 <? bodyLen) with false by (symmetry; apply Z.ltb_ge; lia). reflexivity.
    + intros Hm Hge. rewrite Hm.
      replace (0 <=? bodyLen) with true by (symmetry; apply Z.leb_le; lia). reflexivity.
    + intros Hm Hlt. rewrite Hm.
      replace (0 <=? bodyLen) with false by (symmetry; apply Z.leb_gt; lia). reflexivity.
Qed.

Lemma C8_body_reader_selection_witness :
  let req := mkReq "POST" [bytes "Host: a"; bytes "Content-Length: 5"; bytes "Accept: b"] in
  forallb ascii_only (req_headers req) = true
  /\ getField (req_headers req) (bytes "Content-Length") = Ok (Some (bytes "5"))
  /\ getField (req_headers req) (bytes "Transfer-Encoding") = Ok None
  /\ parsed_length (Some (bytes "5")) = Some 5
  /\ no_body_method req = false
  /\ 0 <= 5 <= JS.MAX_SAFE_INTEGER
  /\ readerFromReq req (newConn []) = fixed_length_reader 5 (newConn []).
Proof.
  intros req.
  split; [reflexivity | split; [reflexivity | split; [reflexivity | split; [reflexivity | ]]]].
  split; [reflexivity | split; [unfold JS.MAX_SAFE_INTEGER; lia | ]].
  destruct (C8_body_reader_selection req (newConn []) (Some (bytes "5")) None
              eq_refl eq_refl eq_refl) as (_ & H).
  destruct (H 5 eq_refl) as (_ & _ & H5 & _).
  apply H5; [reflexivity | unfold JS.MAX_SAFE_INTEGER; lia].
Defined.

(** C8 as stated fails on both sides of its first rule.  A GET request
    with Content-Length -5, a non-zero Content-Length on a method without
    body, is not refused: it gets a reader of declared length 0.  A GET
    request with Content-Length "abc" is refused, with 400 "Bad
    Content-Length.": that check comes before the method is looked at. *)
Lemma C8_negative_length_counterexample :
  let req := mkReq "GET" [bytes "Host: a"; bytes "Content-Length: -5"; bytes "Accept: b"] in
  let req' := mkReq "GET" [bytes "Host: a"; bytes "Content-Length: abc"; bytes "Accept: b"] in
  parseHTTPReq (bytes "GET / HTTP/1.1" ++ CRLF ++ bytes "Host: a" ++ CRLF
                  ++ bytes "Content-Length: -5" ++ CRLF ++ bytes "Accept: b"
                  ++ CRLF ++ CRLF) = Ok (req, true)
  /\ getField (req_headers req) (bytes "Content-Length") = Ok (Some (bytes "-5"))
  /\ JS.parseInt (bytes "-5") = Some (-5)
  /\ fst (readerFromReq req (newConn []))
     = Returned {| reader_length := 0; reader_id := 0 |}
  /\ fst (readerFromReq req' (newConn []))
     = Thrown (HTTPError 400 (bytes "Bad Content-Length.")).
Proof. vm_compute. repeat split; reflexivity. Qed.

Lemma fst_fixed_length_reader (n : Z) (w : World) :
  fst (fixed_length_reader n w)
  = Returned {| reader_length := n; reader_id := List.length (readers w) |}.
Proof. reflexivity. Qed.

(** The only failure of [getField] is the runtime's, on a matching field
    that has no colon. *)
Lemma getField_throws_TypeError (headers : list Buffer) (key : JsString) (e : Exn) :
  getField headers key = Throw e -> e = TypeError.
Proof.
  unfold getField.
  induction (index_range headers 1 (Z.of_nat (List.length headers) - 1)) as [|h l IH];
    cbn [getField_scan]; [intros H; discriminate H | ].
  destruct (JS.str_eqb (JS.toLowerCase key)
              (JS.toLowerCase (JS.trim (nth 0 (JS.split ":" h) [])))); [ | exact IH].
  destruct (nth_error (JS.split ":" h) 1); [intros H; discriminate H | ].
  intros H; injection H as H; congruence.
Qed.

(** [readerFromReq] answers 400 "Bad Content-Length." only for a
    Content-Length that was found and has no integer prefix. *)
Lemma readerFromReq_bad_length_only (req : HTTPReq) (w : World) :
  fst (readerFromReq req w) = Thrown (HTTPError 400 (bytes "Bad Content-Length.")) ->
  exists v,
    getField (req_headers req) (bytes "Content-Length") = Ok (Some v)
    /\ JS.parseInt v = None.
Proof.
  intros H.
  destruct (getField (req_headers req) (bytes "Content-Length")) as [cl | e] eqn:Hcl.
  2: { pose proof (getField_throws_TypeError _ _ _ Hcl) as He. subst e.
       unfold readerFromReq in H. rewrite Hcl in H. discriminate. }
  destruct (parsed_length cl) as [bodyLen | ] eqn:Hlen.
  2: { destruct cl as [v | ]; [ | discriminate]. exists v. split; [reflexivity | exact Hlen]. }
  exfalso.
  destruct (getField (req_headers req) (bytes "Transfer-Encoding")) as [te | e] eqn:Hte.
  - rewrite (readerFromReq_selection req w cl te bodyLen Hcl Hte Hlen) in H.
    destruct (no_body_method req).
    + destruct ((0 <? bodyLen) || opt_equals te (bytes "chunked")); discriminate.
    + destruct (0 <=? bodyLen); discriminate.
  - pose proof (getField_throws_TypeError _ _ _ Hte) as He. subst e.
    unfold readerFromReq in H. rewrite Hcl, Hte in H.
    unfold lift at 1 in H. unfold bind at 1 in H. unfold ret at 1 in H.
    destruct cl as [v | ]; cbn [parsed_length] in Hlen.
    + rewrite Hlen in H. discriminate.
    + discriminate.
Qed.

(** C10 (as amended).  For a request with ASCII header fields,
    [readerFromReq] answers 400 "Bad Content-Length." exactly when the
    Content-Length it finds has no integer prefix.  For a method other than
    GET and HEAD, a value with integer prefix [n] gives a fixed-length
    reader of length [n] when [n] is 0 or more (and at most
    [JS.MAX_SAFE_INTEGER]), and 501 when [n] is negative; "5x" is read as 5
    and "-1" as -1. *)
Theorem C10_content_length_by_parseInt (req : HTTPReq) (w : World) :
  forallb ascii_only (req_headers req) = true ->
  (fst (readerFromReq req w) = Thrown (HTTPError 400 (bytes "Bad Content-Length."))
   <-> exists v,
         getField (req_headers req) (bytes "Content-Length") = Ok (Some v)
         /\ JS.parseInt v = None)
  /\ (forall (v : Buffer) (te : option Buffer) (n : Z),
        no_body_method req = false ->
        getField (req_headers req) (bytes "Content-Length") = Ok (Some v) ->
        getField (req_headers req) (bytes "Transfer-Encoding") = Ok te ->
        JS.parseInt v = Some n ->
        n <= JS.MAX_SAFE_INTEGER ->
        fst (readerFromReq req w)
        = if 0 <=? n
          then Returned {| reader_length := n; reader_id := List.length (readers w) |}
          else Thrown (HTTPError 501 (bytes "TODO:")))
  /\ JS.parseInt (bytes "5x") = Some 5
  /\ JS.parseInt (bytes "-1") = Some (-1).
Proof.
  intros _.
  split; [split | split; [ | split; reflexivity]].
  - apply readerFromReq_bad_length_only.
  - intros (v & Hcl & Hnan). rewrite (readerFromReq_bad_length req w v Hcl Hnan). reflexivity.
  - intros v te n Hm Hcl Hte Hn _.
    rewrite (readerFromReq_selection req w (Some v) te n Hcl Hte Hn), Hm.
    destruct (0 <=? n); reflexivity.
Qed.

Lemma C10_content_length_by_parseInt_witness :
  let req := mkReq "POST" [bytes "Host: a"; bytes "Content-Length: 5x"; bytes "Accept: b"] in
  forallb ascii_only (req_headers req) = true
  /\ no_body_method req = false
  /\ getField (req_headers req) (bytes "Content-Length") = Ok (Some (bytes "5x"))
  /\ getField (req_headers req) (bytes "Transfer-Encoding") = Ok None
  /\ JS.parseInt (bytes "5x") = Some 5
  /\ 5 <= JS.MAX_SAFE_INTEGER
  /\ fst (readerFromReq req (newConn []))
     = Returned {| reader_length := 5; reader_id := 0 |}.
Proof.
  intros req.
  split; [reflexivity | split; [reflexivity | split; [reflexivity | split; [reflexivity | ]]]].
  split; [reflexivity | split; [unfold JS.MAX_SAFE_INTEGER; lia | ]].
  destruct (C10_content_length_by_parseInt req (newConn []) eq_refl) as (_ & H & _).
  refine (H (bytes "5x") None 5 eq_refl eq_refl eq_refl eq_refl _).
  unfold JS.MAX_SAFE_INTEGER; lia.
Defined.

(** On a POST request the Content-Length "-1" leads to 501. *)
Example readerFromReq_post_negative_length :
  fst (readerFromReq
         (mkReq "POST" [bytes "Host: a"; bytes "Content-Length: -1"; bytes "Accept: b"])
         (newConn []))
  = Thrown (HTTPError 501 (bytes "TODO:")).
Proof. reflexivity. Qed.

(** C10 as stated fails: on a HEAD request the Content-Length "-1" does
    not lead to 501; the request gets a reader of declared length 0. *)
Lemma C10_head_negative_length_counterexample :
  let req := mkReq "HEAD" [bytes "Host: a"; bytes "Content-Length: -1"; bytes "Accept: b"] in
  getField (req_headers req) (bytes "Content-Length") = Ok (Some (bytes "-1"))
  /\ fst (readerFromReq req (newConn []))
     = Returned {| reader_length := 0; reader_id := 0 |}
  /\ fst (readerFromReq req (newConn [])) <> Thrown (HTTPError 501 (bytes "TODO:")).
Proof. vm_compute. repeat split; try reflexivity. discriminate. Qed.

(** ** More on the response writer *)

Lemma bind_returned {A B : Type} (m : M A) (k : A -> M B) (w w' : World) (b : B) :
  bind m k w = (Returned b, w') ->
  exists a w1, m w = (Returned a, w1) /\ k a w1 = (Returned b, w').
Proof.
  unfold bind. destruct (m w) as [[a | e | | ] w1]; intros H; try discriminate.
  exists a, w1. split; [reflexivity | exact H].
Qed.

(** When [writeHTTPRes] returns, the response it leaves has exactly one
    more header than the one it was given: a Content-Length with the
    declared length of the body, pushed at the end. *)
Lemma writeHTTPRes_pushes_content_length (fuel : nat) (res res' : HTTPRes) (w w' : World) :
  writeHTTPRes fuel res w = (Returned res', w') ->
  res_headers res'
  = res_headers res
      ++ [bytes "Content-Length: " ++ JS.numberToString (reader_length (res_body res))]
  /\ res_statusCode res' = res_statusCode res
  /\ res_body res' = res_body res
  /\ 0 <= reader_length (res_body res).
Proof.
  unfold writeHTTPRes.
  destruct (reader_length (res_body res) <? 0) eqn:E; [intros H; discriminate H | ].
  apply Z.ltb_ge in E. intros H.
  apply bind_returned in H as (found & w1 & _ & H).
  apply bind_returned in H as (u1 & w2 & _ & H).
  apply bind_returned in H as (header & w3 & _ & H).
  apply bind_returned in H as (u2 & w4 & _ & H).
  apply bind_returned in H as (u3 & w5 & _ & H).
  unfold ret in H. injection H as H _. subst res'. cbn.
  repeat split; try reflexivity; lia.
Qed.

(** A request for "/echo" whose only header is its Content-Length: the
    lookup misses the field, no length is known, and the connection is
    answered with 501 and closed. *)
Example echo_with_single_header :
  let request := bytes "POST /echo HTTP/1.1" ++ CRLF ++ bytes "Content-Length: 5"
                   ++ CRLF ++ CRLF ++ bytes "hello" in
  let '(o, w) := handleNewConn 10 (newConn [EvData request]) in
  o = Returned tt
  /\ sent w = [bytes "HTTP/1.1 501" ++ CRLF ++ bytes "Content-Length: 6";
               bytes "TODO:" ++ [LF]]
  /\ destroyed w = true.
Proof. vm_compute. repeat split; reflexivity. Qed.

(** The same request with a header before and after the Content-Length is
    echoed. *)
Example echo_with_interior_header :
  let request := bytes "POST /echo HTTP/1.1" ++ CRLF ++ bytes "Host: a" ++ CRLF
                   ++ bytes "Content-Length: 5" ++ CRLF ++ bytes "Accept: b"
                   ++ CRLF ++ CRLF ++ bytes "hello" in
  let '(o, w) := handleNewConn 10 (newConn [EvData request; EvEnd]) in
  o = Returned tt
  /\ sent w = [bytes "HTTP/1.1 200" ++ CRLF ++ bytes "Server: my_first_http_server"
                 ++ CRLF ++ bytes "Content-Length: 5";
               bytes "hello"]
  /\ destroyed w = true.
Proof. vm_compute. repeat split; reflexivity. Qed.

(** [readerFromConnLength n] creates a reader of declared length [n] with
    [n] bytes to go, and touches nothing else. *)
Lemma readerFromConnLength_state (n : Z) (w : World) :
  let '(o, w') := readerFromConnLength n w in
  exists r,
    o = Returned r
    /\ reader_length r = n
    /\ reader_state w' r = Some (ConnLengthReader n)
    /\ buf w' = buf w /\ incoming w' = incoming w /\ sent w' = sent w.
Proof.
  unfold readerFromConnLength, new_reader, reader_state. cbn.
  eexists. split; [reflexivity | ]. cbn.
  split; [reflexivity | split; [ | repeat split]].
  rewrite nth_error_app2 by lia. rewrite Nat.sub_diag. reflexivity.
Qed.

(** ** Splitting and joining lines *)

Lemma indexOf_at_line_break_free (needle : list ascii) (n : ascii) (ns l : list ascii) :
  needle = n :: ns -> is_line_break n = true -> no_line_break l = true ->
  forall i, JS.indexOf_at needle l i = -1.
Proof.
  intros Hn Hbrk. subst needle. induction l as [|c l IH]; intros Hl i.
  - reflexivity.
  - cbn [no_line_break forallb] in Hl. apply andb_true_iff in Hl as [Hc Hl].
    cbn [JS.indexOf_at JS.starts_with].
    destruct (Ascii.eqb n c) eqn:E.
    + apply Ascii.eqb_eq in E. subst c. rewrite Hbrk in Hc. discriminate.
    + cbn [andb]. apply IH. exact Hl.
Qed.

Lemma indexOf_at_first_CRLF (l rest : list ascii) :
  no_line_break l = true ->
  forall i, JS.indexOf_at CRLF (l ++ CRLF ++ rest) i = i + blen l.
Proof.
  induction l as [|c l IH]; intros Hl i.
  - cbn. unfold blen; simpl. lia.
  - cbn [no_line_break forallb] in Hl. apply andb_true_iff in Hl as [Hc Hl].
    cbn [app JS.indexOf_at]. unfold CRLF at 1. cbn [JS.starts_with].
    destruct (Ascii.eqb CR c) eqn:E.
    + apply Ascii.eqb_eq in E. subst c. discriminate.
    + cbn [andb]. rewrite (IH Hl). unfold blen. cbn [List.length]. lia.
Qed.

Lemma indexOf_after_prefix (pre x needle : list ascii) :
  JS.indexOf (pre ++ x) needle (blen pre) = JS.indexOf_at needle x (blen pre).
Proof.
  unfold JS.indexOf. pose proof (blen_nonneg pre) as Hp.
  destruct (blen pre <? 0) eqn:E0; [apply Z.ltb_lt in E0; lia | ].
  destruct (blen (pre ++ x) <? blen pre) eqn:E1.
  - apply Z.ltb_lt in E1. rewrite blen_app in E1. pose proof (blen_nonneg x). lia.
  - unfold blen. rewrite Nat2Z.id.
    rewrite skipn_app, skipn_all, Nat.sub_diag. reflexivity.
Qed.

Lemma subarray_middle (pre l rest : list ascii) :
  Buf.subarray (pre ++ l ++ rest) (blen pre) (blen pre + blen l) = l.
Proof.
  unfold Buf.subarray.
  pose proof (blen_nonneg pre). pose proof (blen_nonneg l). pose proof (blen_nonneg rest).
  rewrite !rel_index_in_range by (rewrite !blen_app; lia).
  unfold blen. rewrite Nat2Z.id.
  rewrite skipn_app, skipn_all, Nat.sub_diag. cbn [app skipn].
  replace (Z.to_nat (Z.of_nat (List.length pre) + Z.of_nat (List.length l)
                     - Z.of_nat (List.length pre))) with (List.length l) by lia.
  rewrite firstn_app, firstn_all, Nat.sub_diag. cbn. apply app_nil_r.
Qed.

Lemma subarray_from_suffix (pre tail : list ascii) :
  Buf.subarray_from (pre ++ tail) (blen pre) = tail.
Proof.
  unfold Buf.subarray_from.
  replace (blen (pre ++ tail)) with (blen pre + blen tail) by (rewrite blen_app; reflexivity).
  rewrite <- (app_nil_r tail) at 1. rewrite subarray_middle. reflexivity.
Qed.

Lemma findDelimiter_first_CRLF (pre l rest : list ascii) :
  no_line_break l = true ->
  findDelimiter (pre ++ l ++ CRLF ++ rest) (blen pre) = (blen pre + blen l, 2).
Proof.
  intros Hl. unfold findDelimiter.
  rewrite !indexOf_after_prefix, (indexOf_at_first_CRLF l rest Hl).
  pose proof (blen_nonneg pre). pose proof (blen_nonneg l).
  destruct (0 <=? blen pre + blen l) eqn:E; [reflexivity | apply Z.leb_gt in E; lia].
Qed.

Lemma findDelimiter_none (pre tail : list ascii) :
  no_line_break tail = true ->
  findDelimiter (pre ++ tail) (blen pre) = (-1, 0).
Proof.
  intros Ht. unfold findDelimiter. rewrite !indexOf_after_prefix.
  rewrite (indexOf_at_line_break_free CRLF CR [LF] tail eq_refl eq_refl Ht).
  rewrite (indexOf_at_line_break_free [CR] CR [] tail eq_refl eq_refl Ht).
  rewrite (indexOf_at_line_break_free [LF] LF [] tail eq_refl eq_refl Ht).
  reflexivity.
Qed.

Lemma str_eqb_nil (l : list ascii) : JS.str_eqb l [] = match l with [] => true | _ => false end.
Proof. destruct l; reflexivity. Qed.

(** The loop of [splitLines] over lines that end in CRLF. *)
Lemma splitLines_loop_terminated (lines : list Buffer) :
  forall (pre tail : Buffer) (acc : list Buffer) (fuel : nat),
    forallb no_line_break lines = true ->
    no_line_break tail = true ->
    (List.length (terminated_lines lines ++ tail) < fuel)%nat ->
    splitLines_loop fuel (pre ++ terminated_lines lines ++ tail) (blen pre) acc
    = acc ++ lines ++ last_piece tail.
Proof.
  induction lines as [|l lines IH]; intros pre tail acc fuel Hls Ht Hfuel.
  - destruct fuel as [|fuel]; [lia | ].
    cbn [terminated_lines map List.concat app].
    rewrite splitLines_loop_S, (findDelimiter_none pre tail Ht).
    change (-1 =? -1) with true. cbv iota.
    rewrite subarray_from_suffix, str_eqb_nil.
    destruct tail; [rewrite app_nil_r; reflexivity | reflexivity].
  - destruct fuel as [|fuel]; [lia | ].
    cbn [forallb] in Hls. apply andb_true_iff in Hls as [Hl Hls].
    assert (Hshape : pre ++ terminated_lines (l :: lines) ++ tail
                     = pre ++ l ++ CRLF ++ (terminated_lines lines ++ tail)).
    { unfold terminated_lines. cbn [map List.concat]. rewrite <- !app_assoc. reflexivity. }
    rewrite splitLines_loop_S, Hshape, (findDelimiter_first_CRLF pre l _ Hl).
    pose proof (blen_nonneg pre). pose proof (blen_nonneg l).
    destruct (blen pre + blen l =? -1) eqn:E; [apply Z.eqb_eq in E; lia | ].
    rewrite subarray_middle.
    replace (blen pre + blen l + 2) with (blen (pre ++ l ++ CRLF))
      by (rewrite !blen_app; change (blen CRLF) with 2; lia).
    replace (pre ++ l ++ CRLF ++ terminated_lines lines ++ tail)
      with ((pre ++ l ++ CRLF) ++ terminated_lines lines ++ tail)
      by (rewrite <- !app_assoc; reflexivity).
    rewrite IH; [rewrite <- !app_assoc; reflexivity | exact Hls | exact Ht | ].
    unfold terminated_lines in Hfuel. cbn [map List.concat] in Hfuel.
    rewrite !length_app in Hfuel. change (List.length CRLF) with 2%nat in Hfuel.
    unfold terminated_lines. rewrite length_app. lia.
Qed.

(** [splitLines] undoes the joining of lines with CRLF: on lines free
    of CR and LF, each followed by CRLF, and a last piece without line
    break, it returns the lines, and the last piece when it is not empty. *)
Lemma splitLines_joined_lines (lines : list Buffer) (tail : Buffer) :
  forallb no_line_break lines = true ->
  no_line_break tail = true ->
  splitLines (terminated_lines lines ++ tail) = lines ++ last_piece tail.
Proof.
  intros Hls Ht. unfold splitLines.
  apply (splitLines_loop_terminated lines [] tail [] _ Hls Ht). lia.
Qed.

(** X1.  [splitLines] undoes the joining of lines with CRLF: on lines free
    of CR and LF, each followed by CRLF, and a last piece without line
    break, it returns the lines, and the last piece when it is not empty. *)
Theorem splitLines_terminated_lines (lines : list Buffer) (tail : Buffer) :
  forallb no_line_break lines = true ->
  no_line_break tail = true ->
  splitLines (terminated_lines lines ++ tail) = lines ++ last_piece tail.
Proof. exact (splitLines_joined_lines lines tail). Qed.

Lemma splitLines_terminated_lines_witness :
  forallb no_line_break ex_header_lines = true
  /\ no_line_break [] = true
  /\ splitLines (terminated_lines ex_header_lines ++ []) = ex_header_lines ++ last_piece [].
Proof.
  split; [reflexivity | split; [reflexivity | ]].
  apply (splitLines_terminated_lines ex_header_lines []); reflexivity.
Defined.

Lemma string_of_uint_no_line_break (d : Decimal.uint) :
  no_line_break (list_ascii_of_string (NilEmpty.string_of_uint d)) = true.
Proof. induction d; cbn; try reflexivity; exact IHd. Qed.

Lemma numberToString_no_line_break (n : Z) :
  no_line_break (JS.numberToString n) = true.
Proof.
  unfold JS.numberToString. destruct (Z.to_int n) as [d | d]; cbn.
  - apply string_of_uint_no_line_break.
  - apply string_of_uint_no_line_break.
Qed.

Lemma no_line_break_app (a b : list ascii) :
  no_line_break (a ++ b) = no_line_break a && no_line_break b.
Proof. unfold no_line_break. apply forallb_app. Qed.

Lemma join_as_terminated (h : Buffer) (hs : list Buffer) :
  JS.join CRLF (h :: hs)
  = terminated_lines (removelast (h :: hs)) ++ last (h :: hs) [].
Proof.
  revert h; induction hs as [|h' hs IH]; intros h.
  - reflexivity.
  - change (JS.join CRLF (h :: h' :: hs)) with (h ++ CRLF ++ JS.join CRLF (h' :: hs)).
    rewrite IH.
    change (removelast (h :: h' :: hs)) with (h :: removelast (h' :: hs)).
    change (last (h :: h' :: hs) []) with (last (h' :: hs) []).
    unfold terminated_lines. cbn [map List.concat]. rewrite <- !app_assoc. reflexivity.
Qed.

Lemma forallb_removelast {A : Type} (f : A -> bool) (l : list A) :
  forallb f l = true -> forallb f (removelast l) = true.
Proof.
  induction l as [|a l IH]; [reflexivity | ].
  intros H. cbn [forallb] in H. apply andb_true_iff in H as [Ha Hl].
  destruct l as [|b l]; [reflexivity | ].
  change (removelast (a :: b :: l)) with (a :: removelast (b :: l)).
  cbn [forallb]. rewrite Ha. apply IH. exact Hl.
Qed.

Lemma forallb_last {A : Type} (f : A -> bool) (l : list A) (d : A) :
  forallb f l = true -> f d = true -> f (last l d) = true.
Proof.
  induction l as [|a l IH]; intros H Hd; [exact Hd | ].
  cbn [forallb] in H. apply andb_true_iff in H as [Ha Hl].
  destruct l as [|b l]; [exact Ha | ].
  change (last (a :: b :: l) d) with (last (b :: l) d). apply IH; assumption.
Qed.

(** X2.  The header block written by [encodeHTTPRes] splits back into
    its parts: when no header contains CR or LF and the last header is not
    empty, [splitLines] of the encoded bytes is the status line followed by
    the headers. *)
Theorem splitLines_encodeHTTPRes (res : HTTPRes) :
  forallb no_line_break (res_headers res) = true ->
  last (res_headers res) [] <> [] ->
  exists out,
    encodeHTTPRes res = Ok out
    /\ splitLines out
       = (HTTP_VERSION ++ bytes " " ++ JS.numberToString (res_statusCode res))
           :: res_headers res.
Proof.
  intros Hhs Hlast. destruct res as [sc hs body]. cbn [res_headers res_statusCode] in *.
  destruct hs as [|h hs]; [exfalso; apply Hlast; reflexivity | ].
  eexists. split; [apply encodeHTTPRes_joined | ].
  set (statusLine := HTTP_VERSION ++ bytes " " ++ JS.numberToString sc).
  rewrite join_as_terminated.
  assert (Hshape : statusLine ++ CRLF ++ terminated_lines (removelast (h :: hs))
                     ++ last (h :: hs) []
                   = terminated_lines (statusLine :: removelast (h :: hs))
                       ++ last (h :: hs) []).
  { unfold terminated_lines. cbn [map List.concat]. rewrite <- !app_assoc. reflexivity. }
  rewrite Hshape, splitLines_joined_lines.
  - destruct (last (h :: hs) []) as [|c t] eqn:El; [congruence | ].
    cbn [last_piece]. rewrite <- El. cbn [app]. f_equal.
    symmetry. apply app_removelast_last. discriminate.
  - cbn [forallb]. apply andb_true_iff. split.
    + unfold statusLine. rewrite !no_line_break_app, numberToString_no_line_break.
      reflexivity.
    + apply forallb_removelast. exact Hhs.
  - apply forallb_last; [exact Hhs | reflexivity].
Qed.

Lemma splitLines_encodeHTTPRes_witness :
  let res := {| res_statusCode := 200;
                res_headers := [bytes "X: y"; bytes "Content-Length: 2"];
                res_body := {| reader_length := 2; reader_id := 0 |} |} in
  forallb no_line_break (res_headers res) = true
  /\ last (res_headers res) [] <> []
  /\ exists out,
       encodeHTTPRes res = Ok out
       /\ splitLines out = bytes "HTTP/1.1 200" :: res_headers res.
Proof.
  intros res.
  assert (H1 : forallb no_line_break (res_headers res) = true) by reflexivity.
  assert (H2 : last (res_headers res) [] <> []) by discriminate.
  split; [exact H1 | split; [exact H2 | exact (splitLines_encodeHTTPRes res H1 H2)]].
Defined.

(** ** Parsing a well-formed request *)

Lemma split_no_sep (sep : ascii) (a : list ascii) :
  forallb (fun c => negb (Ascii.eqb c sep)) a = true -> JS.split sep a = [a].
Proof.
  induction a as [|c a IH]; intros H; [reflexivity | ].
  cbn [forallb] in H. apply andb_true_iff in H as [Hc Ha].
  apply negb_true_iff in Hc. cbn [JS.split]. rewrite Hc, (IH Ha). reflexivity.
Qed.

Lemma split_app_sep (sep : ascii) (a rest : list ascii) :
  forallb (fun c => negb (Ascii.eqb c sep)) a = true ->
  JS.split sep (a ++ sep :: rest) = a :: JS.split sep rest.
Proof.
  induction a as [|c a IH]; intros H.
  - cbn [app JS.split]. rewrite Ascii.eqb_refl. reflexivity.
  - cbn [forallb] in H. apply andb_true_iff in H as [Hc Ha].
    apply negb_true_iff in Hc. cbn [app JS.split]. rewrite Hc, (IH Ha). reflexivity.
Qed.

Lemma is_token_no_space (l : list ascii) :
  is_token l = true -> forallb (fun c => negb (Ascii.eqb c " ")) l = true.
Proof.
  unfold is_token. induction l as [|c l IH]; [reflexivity | ].
  cbn [forallb]. intros H. apply andb_true_iff in H as [Hc Hl].
  apply negb_true_iff, orb_false_iff in Hc as [Hc _].
  rewrite Hc, (IH Hl). reflexivity.
Qed.

Lemma is_token_no_line_break (l : list ascii) :
  is_token l = true -> no_line_break l = true.
Proof.
  unfold is_token, no_line_break. induction l as [|c l IH]; [reflexivity | ].
  cbn [forallb]. intros H. apply andb_true_iff in H as [Hc Hl].
  apply negb_true_iff, orb_false_iff in Hc as [_ Hc].
  rewrite Hc, (IH Hl). reflexivity.
Qed.

Lemma parseRequestLine_three_tokens (method uri version : JsString) :
  is_token method = true -> is_token uri = true -> is_token version = true ->
  parseRequestLine (method ++ bytes " " ++ uri ++ bytes " " ++ version)
  = Ok (method, uri, Some version).
Proof.
  intros Hm Hu Hv. unfold parseRequestLine.
  change (bytes " ") with [" "%char]. cbn [app].
  rewrite (split_app_sep " " method _ (is_token_no_space _ Hm)).
  rewrite (split_app_sep " " uri _ (is_token_no_space _ Hu)).
  rewrite (split_no_sep " " version (is_token_no_space _ Hv)).
  reflexivity.
Qed.

(** The parser recovers a well-formed request: for a start line of
    three tokens and header lines that validate and contain no CR or LF,
    [parseHTTPReq] of the header block returns the method, the uri, the
    version and the header lines, and its final assertion holds. *)
Lemma parseHTTPReq_well_formed (method uri version : JsString)
    (headers : list Buffer) :
  is_token method = true -> is_token uri = true -> is_token version = true ->
  forallb no_line_break headers = true ->
  forallb validateHeader headers = true ->
  parseHTTPReq (request_header method uri version headers)
  = Ok ({| req_method := method; req_uri := uri;
           req_version := Some version; req_headers := headers |}, true).
Proof.
  intros Hm Hu Hv Hnb Hval.
  set (start := method ++ bytes " " ++ uri ++ bytes " " ++ version).
  assert (Hstart : no_line_break start = true).
  { unfold start. rewrite !no_line_break_app.
    rewrite (is_token_no_line_break _ Hm), (is_token_no_line_break _ Hu),
      (is_token_no_line_break _ Hv). reflexivity. }
  assert (Hlines : splitLines (request_header method uri version headers)
                   = start :: headers ++ [[]]).
  { unfold request_header. fold start.
    rewrite <- (app_nil_r (terminated_lines _)).
    rewrite splitLines_joined_lines; [apply app_nil_r | | reflexivity].
    change (forallb no_line_break (start :: headers ++ [[]]))
      with (no_line_break start && forallb no_line_break (headers ++ [[]])).
    rewrite Hstart, forallb_app.
    apply andb_true_iff; split; [reflexivity | ].
    apply andb_true_iff; split; [exact Hnb | reflexivity]. }
  unfold parseHTTPReq. rewrite Hlines.
  unfold start at 1. rewrite parseRequestLine_three_tokens by assumption.
  rewrite index_range_interior, collect_headers_spec, Hval.
  cbn [app]. f_equal. f_equal.
  unfold last_line_is_empty.
  change (start :: headers ++ [[]]) with ((start :: headers) ++ [[]]).
  rewrite last_last. reflexivity.
Qed.

(** X3.  The parser recovers a well-formed request: for an ASCII header
    block with a start line of three tokens and header lines that validate
    and contain no CR or LF, [parseHTTPReq] of the header block returns the
    method, the uri, the version and the header lines, and its final
    assertion holds. *)
Theorem parseHTTPReq_request_header (method uri version : JsString)
    (headers : list Buffer) :
  ascii_only (request_header method uri version headers) = true ->
  is_token method = true -> is_token uri = true -> is_token version = true ->
  forallb no_line_break headers = true ->
  forallb validateHeader headers = true ->
  parseHTTPReq (request_header method uri version headers)
  = Ok ({| req_method := method; req_uri := uri;
           req_version := Some version; req_headers := headers |}, true).
Proof. intros _. exact (parseHTTPReq_well_formed method uri version headers). Qed.

Lemma parseHTTPReq_request_header_witness :
  ascii_only (request_header (bytes "POST") (bytes "/echo") (bytes "HTTP/1.1")
                [bytes "Host: a:80"; bytes "Content-Length: 5"]) = true
  /\ is_token (bytes "POST") = true /\ is_token (bytes "/echo") = true
  /\ is_token (bytes "HTTP/1.1") = true
  /\ forallb no_line_break [bytes "Host: a:80"; bytes "Content-Length: 5"] = true
  /\ forallb validateHeader [bytes "Host: a:80"; bytes "Content-Length: 5"] = true
  /\ parseHTTPReq (request_header (bytes "POST") (bytes "/echo") (bytes "HTTP/1.1")
                     [bytes "Host: a:80"; bytes "Content-Length: 5"])
     = Ok ({| req_method := bytes "POST"; req_uri := bytes "/echo";
              req_version := Some (bytes "HTTP/1.1");
              req_headers := [bytes "Host: a:80"; bytes "Content-Length: 5"] |}, true).
Proof.
  repeat (split; [reflexivity | ]).
  apply parseHTTPReq_request_header; reflexivity.
Defined.

(** ** How far the buffer grows *)

Lemma grow_cap_tight (fuel : nat) (cap newLength : Z) :
  0 < cap ->
  grow_cap fuel cap newLength 2 = cap \/ grow_cap fuel cap newLength 2 < 2 * newLength.
Proof.
  revert cap; induction fuel as [|fuel IH]; intros cap Hcap; cbn [grow_cap].
  - left; reflexivity.
  - destruct (cap <? newLength) eqn:E; [ | left; reflexivity].
    apply Z.ltb_lt in E. right.
    destruct (IH (cap * 2)) as [H | H]; lia.
Qed.

Lemma bufferPush_capacity_bound (b : DynamicBuf) (d : Buffer) :
  buf_wf b ->
  capacity (bufferPush b d)
  <= Z.max (Z.max (capacity b) 32) (2 * (buf_length b + blen d)).
Proof.
  intros Hwf. pose proof (blen_nonneg d) as Hd.
  unfold buf_wf, capacity in *. unfold bufferPush. cbn [buf_data].
  set (newLength := buf_length b + blen d).
  destruct (blen (buf_data b) <? newLength) eqn:E.
  - apply Z.ltb_lt in E.
    destruct (expandBufferCap_blen b newLength) as (H1 & H2 & _). unfold capacity in *.
    rewrite copy_fits_blen; [ | lia | rewrite copy_fits_blen; lia].
    rewrite copy_fits_blen by lia.
    unfold expandBufferCap in *.
    set (cap := Z.max (blen (buf_data b)) 32) in *.
    destruct (grow_cap_tight (Z.to_nat newLength) cap newLength) as [Hg | Hg];
      [unfold cap; lia | | ].
    + rewrite alloc_blen in * by lia. rewrite Hg. lia.
    + assert (0 <= grow_cap (Z.to_nat newLength) cap newLength 2).
      { destruct (grow_cap_pow2 (Z.to_nat newLength) cap newLength) as [k Hk].
        rewrite Hk. assert (0 < 2 ^ Z.of_nat k) by (apply Z.pow_pos_nonneg; lia).
        unfold cap. nia. }
      rewrite alloc_blen in * by lia. lia.
  - apply Z.ltb_ge in E. rewrite copy_fits_blen by lia. lia.
Qed.

Lemma run_ops_capacity_bound (ops : list BufOp) :
  forall b : DynamicBuf,
    buf_wf b -> pops_ok ops (peek b) ->
    capacity (run_ops ops b)
    <= Z.max (Z.max (capacity b) 32) (2 * max_length_held ops (peek b)).
Proof.
  induction ops as [|op ops IH]; intros b Hwf Hok.
  - unfold run_ops; cbn. lia.
  - destruct Hok as [Hop Hrest].
    change (run_ops (op :: ops) b) with (run_ops ops (apply_op b op)).
    cbn [max_length_held].
    assert (Hstep : buf_wf (apply_op b op)
                    /\ peek (apply_op b op) = queue_op (peek b) op
                    /\ capacity (apply_op b op)
                       <= Z.max (Z.max (capacity b) 32) (2 * blen (queue_op (peek b) op))).
    { destruct op as [d | n]; cbn [apply_op queue_op].
      - destruct (bufferPush_spec b d Hwf) as (H1 & H2 & _).
        split; [exact H1 | split; [exact H2 | ]].
        pose proof (bufferPush_capacity_bound b d Hwf) as Hb.
        rewrite blen_app, (peek_blen b Hwf). exact Hb.
      - rewrite peek_blen in Hop by assumption.
        destruct (bufferPop_spec b n Hwf Hop) as (H1 & H2 & H3).
        split; [exact H1 | split; [exact H2 | rewrite H3; lia]]. }
    destruct Hstep as (S1 & S2 & S3).
    rewrite <- S2 in Hrest. specialize (IH _ S1 Hrest). rewrite S2 in IH.
    pose proof (max_length_held_ge ops (queue_op (peek b) op)). lia.
Qed.

(** X4.  Doubling does not overshoot: after any run of pushes and pops
    from the empty buffer, the capacity is at most 32 or twice the largest
    length the buffer had to hold, whichever is larger. *)
Theorem capacity_at_most_twice_max_length (ops : list BufOp) :
  pops_ok ops [] ->
  capacity (run_ops ops emptyDynamicBuf) <= Z.max 32 (2 * max_length_held ops []).
Proof.
  intros Hok.
  pose proof (run_ops_capacity_bound ops emptyDynamicBuf emptyDynamicBuf_wf) as H.
  change (peek emptyDynamicBuf) with (@nil ascii) in H.
  change (capacity emptyDynamicBuf) with 0 in H.
  specialize (H Hok). lia.
Qed.

Lemma capacity_at_most_twice_max_length_witness :
  pops_ok ex_ops []
  /\ capacity (run_ops ex_ops emptyDynamicBuf) <= Z.max 32 (2 * max_length_held ex_ops []).
Proof.
  assert (Hok : pops_ok ex_ops []) by (simpl; unfold blen; simpl; lia).
  split; [exact Hok | exact (capacity_at_most_twice_max_length ex_ops Hok)].
Defined.

(** ** Taking a header block off the buffer *)

Lemma starts_with_split (needle hay : list ascii) :
  JS.starts_with needle hay = true -> exists rest, hay = needle ++ rest.
Proof.
  revert hay; induction needle as [|n ns IH]; intros hay H.
  - exists hay; reflexivity.
  - destruct hay as [|h hs]; [discriminate | ]. cbn in H.
    apply andb_true_iff in H as [Hn H]. apply Ascii.eqb_eq in Hn. subst h.
    destruct (IH hs H) as [rest Hr]. exists rest. rewrite Hr. reflexivity.
Qed.

Lemma data_prefix_is_peek_prefix (b : DynamicBuf) (n : Z) :
  buf_wf b -> 0 <= n <= buf_length b ->
  Buf.subarray (buf_data b) 0 n = firstn (Z.to_nat n) (peek b).
Proof.
  intros Hwf Hn. rewrite peek_wf by assumption.
  rewrite subarray_prefix by (unfold buf_wf, capacity in Hwf; lia).
  rewrite firstn_firstn, Nat.min_l by lia. reflexivity.
Qed.

(** Without a complete header in the buffer [collectMessage] takes
    nothing: it asks for more data while the buffer is shorter than
    [kMaxHeaderLen], and fails with 413 "Header is too large." from then
    on; the connection is left as it was. *)
Lemma collectMessage_no_terminator (w : World) :
  buf_wf (buf w) ->
  no_header_end (peek (buf w)) ->
  collectMessage w
  = if kMaxHeaderLen <=? buf_length (buf w)
    then (Thrown (HTTPError 413 (bytes "Header is too large.")), w)
    else (Returned None, w).
Proof.
  intros Hwf Hno. unfold collectMessage, bind at 1, get_buf at 1.
  fold (peek (buf w)). fold header_end.
  destruct (indexOf_spec (peek (buf w)) header_end 0) as [[Hr _] | (_ & Hocc & _)];
    [discriminate | lia | | ].
  - rewrite Hr. change (-1 <? 0) with true. cbv iota.
    destruct (kMaxHeaderLen <=? buf_length (buf w)); reflexivity.
  - rewrite Hno in Hocc. discriminate.
Qed.

(** X5.  Without a complete header in the buffer [collectMessage] takes
    nothing: it asks for more data while the buffer is shorter than
    [kMaxHeaderLen], and fails with 413 "Header is too large." from then
    on; the connection is left as it was. *)
Theorem collectMessage_without_header (w : World) :
  buf_wf (buf w) ->
  no_header_end (peek (buf w)) ->
  collectMessage w
  = if kMaxHeaderLen <=? buf_length (buf w)
    then (Thrown (HTTPError 413 (bytes "Header is too large.")), w)
    else (Returned None, w).
Proof. exact (collectMessage_no_terminator w). Qed.

(** A failed search from offset 0 shows that there is no terminator. *)
Lemma no_header_end_by_search (b : Buffer) :
  JS.indexOf b header_end 0 = -1 -> no_header_end b.
Proof.
  intros Hr j. destruct (0 <=? j) eqn:E.
  - apply Z.leb_le in E.
    destruct (indexOf_spec b header_end 0) as [[_ Hno] | (Hge & _)];
      [discriminate | lia | apply Hno; exact E | lia].
  - unfold occurs_at. rewrite E. reflexivity.
Qed.

Lemma collectMessage_without_header_witness :
  let w := set_buf (bufferPush emptyDynamicBuf (bytes "GET / HT")) (newConn []) in
  buf_wf (buf w)
  /\ no_header_end (peek (buf w))
  /\ collectMessage w = (Returned None, w).
Proof.
  intros w.
  assert (Hwf : buf_wf (buf w)) by (unfold buf_wf, capacity; vm_compute; split; discriminate).
  assert (Hno : no_header_end (peek (buf w))) by (apply no_header_end_by_search; reflexivity).
  split; [exact Hwf | split; [exact Hno | ]].
  exact (collectMessage_without_header w Hwf Hno).
Defined.

(** ** Writing a response with an in-memory body *)

Lemma encodeHTTPRes_snoc (sc : Z) (hs : list Buffer) (h : Buffer) (body : BodyReader) :
  exists header,
    encodeHTTPRes {| res_statusCode := sc; res_headers := hs ++ [h]; res_body := body |}
    = Ok header
    /\ 0 < blen header.
Proof.
  destruct hs as [|h0 hs]; cbn [app].
  - eexists. split; [apply encodeHTTPRes_joined | ].
    rewrite !blen_app. change (blen HTTP_VERSION) with 8.
    pose proof (blen_nonneg (bytes " ")). pose proof (blen_nonneg (JS.numberToString sc)).
    pose proof (blen_nonneg CRLF). pose proof (blen_nonneg (JS.join CRLF [h])). lia.
  - eexists. split; [apply encodeHTTPRes_joined | ].
    rewrite !blen_app. change (blen HTTP_VERSION) with 8.
    pose proof (blen_nonneg (bytes " ")). pose proof (blen_nonneg (JS.numberToString sc)).
    pose proof (blen_nonneg CRLF). pose proof (blen_nonneg (JS.join CRLF (h0 :: hs ++ [h]))).
    lia.
Qed.

Lemma nth_error_set_reader_other (rs : list ReaderState) (st' : ReaderState) :
  forall id j : nat,
    (id < List.length rs)%nat -> j <> id ->
    nth_error (firstn id rs ++ [st'] ++ skipn (S id) rs) j = nth_error rs j.
Proof.
  induction rs as [|x rs IH]; intros id j Hlt Hne; [cbn in Hlt; lia | ].
  destruct id as [|id].
  - destruct j as [|j]; [congruence | reflexivity].
  - destruct j as [|j]; [reflexivity | ].
    cbn [firstn skipn app nth_error]. cbn in Hlt.
    apply (IH id j); [lia | congruence].
Qed.

Lemma length_set_reader (rs : list ReaderState) (id : nat) (st' : ReaderState) :
  (id < List.length rs)%nat ->
  List.length (firstn id rs ++ [st'] ++ skipn (S id) rs) = List.length rs.
Proof.
  intros Hlt. rewrite !length_app, firstn_length_le, length_skipn by lia.
  cbn [List.length]. lia.
Qed.

Lemma bind_step {A B : Type} (m : M A) (k : A -> M B) (w w1 : World) (a : A) :
  m w = (Returned a, w1) -> bind m k w = k a w1.
Proof. intros H. unfold bind. rewrite H. reflexivity. Qed.

Lemma socketWrite_ok (w : World) (data : Buffer) :
  conn_err w = None -> conn_ended w = false -> destroyed w = false ->
  0 < blen data ->
  socketWrite data w = (Returned tt, set_sent (sent w ++ [data]) w).
Proof.
  intros Herr Hended Hd Hlen. unfold socketWrite, bind, console_assert.
  replace (0 <? blen data) with true by (symmetry; apply Z.ltb_lt; exact Hlen).
  rewrite Herr, Hended, Hd. reflexivity.
Qed.

(** A write after the peer's end has been read sends nothing and fails,
    with an error that is no [HTTPError]. *)
Lemma socketWrite_after_end (w : World) (data : Buffer) :
  conn_err w = None -> conn_ended w = true -> 0 < blen data ->
  exists e, socketWrite data w = (Thrown (Error e), w).
Proof.
  intros Herr Hended Hlen. unfold socketWrite, bind, console_assert.
  replace (0 <? blen data) with true by (symmetry; apply Z.ltb_lt; exact Hlen).
  rewrite Herr, Hended. eexists. reflexivity.
Qed.

Lemma read_memory_fresh (w : World) (r : BodyReader) (data : Buffer) :
  reader_state w r = Some (MemoryReader data false) ->
  read r w
  = (Returned data,
     set_readers (firstn (reader_id r) (readers w) ++ [MemoryReader data true]
                    ++ skipn (S (reader_id r)) (readers w)) w).
Proof. unfold reader_state, read. intros H. rewrite H. reflexivity. Qed.

Lemma read_memory_done (w : World) (r : BodyReader) (data : Buffer) :
  reader_state w r = Some (MemoryReader data true) ->
  read r w = (Returned [], w).
Proof. unfold reader_state, read. intros H. rewrite H. reflexivity. Qed.

Lemma read_connLength_zero (w : World) (r : BodyReader) :
  reader_state w r = Some (ConnLengthReader 0) ->
  read r w = (Returned [], w).
Proof. unfold reader_state, read. intros H. rewrite H. reflexivity. Qed.

(** The loop that streams an in-memory body: one chunk when the body is
    not empty, none when it is. *)
Lemma write_body_memory (fuel : nat) (w : World) (r : BodyReader) (data : Buffer) :
  conn_err w = None -> conn_ended w = false -> destroyed w = false ->
  reader_state w r = Some (MemoryReader data false) ->
  (2 <= fuel)%nat ->
  exists w',
    write_body fuel r w = (Returned tt, w')
    /\ sent w' = sent w ++ last_piece data
    /\ buf w' = buf w /\ console w' = console w
    /\ same_socket w w'
    /\ readers w'
       = firstn (reader_id r) (readers w) ++ [MemoryReader data true]
           ++ skipn (S (reader_id r)) (readers w).
Proof.
  intros Herr Hended Hd Hst Hfuel.
  destruct fuel as [|[|fuel]]; try lia.
  cbn [write_body]. rewrite (bind_step _ _ _ _ _ (read_memory_fresh w r data Hst)).
  set (w1 := set_readers _ w).
  destruct data as [|c data].
  - exists w1. change (blen [] =? 0) with true. cbv iota.
    split; [reflexivity | ]. cbn [last_piece]. rewrite app_nil_r.
    repeat split.
  - assert (Hne : (blen (c :: data) =? 0) = false).
    { apply Z.eqb_neq. unfold blen. cbn [List.length]. lia. }
    rewrite Hne.
    assert (Hw : socketWrite (c :: data) w1
                 = (Returned tt, set_sent (sent w1 ++ [c :: data]) w1)).
    { apply socketWrite_ok;
        [exact Herr | exact Hended | exact Hd | unfold blen; cbn [List.length]; lia]. }
    rewrite (bind_step _ _ _ _ _ Hw).
    set (w2 := set_sent _ w1).
    assert (Hst2 : reader_state w2 r = Some (MemoryReader (c :: data) true)).
    { unfold reader_state, w2, w1. cbn [readers set_sent set_readers].
      unfold reader_state in Hst. apply (nth_error_set_reader _ _ _ _ Hst). }
    rewrite (bind_step _ _ _ _ _ (read_memory_done w2 r _ Hst2)).
    change (blen [] =? 0) with true. cbv iota.
    exists w2. split; [reflexivity | ]. repeat split.
Qed.

Lemma console_assert_frame (cond : bool) (what : string) (w : World) :
  exists w1,
    console_assert cond what w = (Returned tt, w1)
    /\ sent w1 = sent w /\ buf w1 = buf w /\ readers w1 = readers w
    /\ same_socket w w1.
Proof.
  unfold console_assert. destruct cond; eexists; (split; [reflexivity | ]); repeat split.
Qed.

(** On a connection that can be written to (no error recorded, the
    peer's end not read, the socket not destroyed), a response with an
    in-memory body goes out as the encoded header followed by the body in
    one chunk, or by nothing when the body is empty; the Content-Length
    pushed is the length of the body; the buffer and the read side of the
    socket are not touched. *)
Lemma writeHTTPRes_from_memory (fuel : nat) (w : World) (sc : Z)
    (hs : list Buffer) (r : BodyReader) (data : Buffer) (found : option Buffer) :
  conn_err w = None -> conn_ended w = false -> destroyed w = false ->
  reader_state w r = Some (MemoryReader data false) ->
  reader_length r = blen data ->
  getField hs (bytes "Content-Length") = Ok found ->
  (2 <= fuel)%nat ->
  let res' := {| res_statusCode := sc;
                 res_headers := hs ++ [content_length_line (blen data)];
                 res_body := r |} in
  exists w' header,
    encodeHTTPRes res' = Ok header
    /\ writeHTTPRes fuel {| res_statusCode := sc; res_headers := hs; res_body := r |} w
       = (Returned res', w')
    /\ sent w' = sent w ++ header :: last_piece data
    /\ buf w' = buf w
    /\ same_socket w w'
    /\ readers w'
       = firstn (reader_id r) (readers w) ++ [MemoryReader data true]
           ++ skipn (S (reader_id r)) (readers w).
Proof.
  intros Herr Hended Hd Hst Hlen Hfound Hfuel res'.
  destruct (encodeHTTPRes_snoc sc hs (content_length_line (blen data)) r)
    as (header & Henc & Hpos).
  unfold writeHTTPRes. cbn [res_body res_headers res_statusCode].
  rewrite Hlen.
  destruct (blen data <? 0) eqn:E; [apply Z.ltb_lt in E; pose proof (blen_nonneg data); lia | ].
  rewrite Hfound.
  rewrite (bind_step _ _ w w found) by reflexivity.
  destruct (console_assert_frame (is_none found) "writeHTTPRes: Content-Length not set" w)
    as (w1 & Hca & C1 & C2 & C3 & (C4 & C5 & C6 & C7)).
  rewrite (bind_step _ _ _ _ _ Hca).
  cbv beta zeta. fold (content_length_line (blen data)). cbn [res_body res_headers res_statusCode].
  fold res'. fold res' in Henc.
  assert (Hl : lift (encodeHTTPRes res') w1 = (Returned header, w1))
    by (rewrite Henc; reflexivity).
  rewrite (bind_step _ _ _ _ _ Hl).
  assert (Hw : socketWrite header w1 = (Returned tt, set_sent (sent w1 ++ [header]) w1))
    by (apply socketWrite_ok; [congruence | congruence | congruence | exact Hpos]).
  rewrite (bind_step _ _ _ _ _ Hw).
  set (w2 := set_sent _ w1).
  assert (Hst2 : reader_state w2 r = Some (MemoryReader data false)).
  { unfold reader_state, w2. cbn [readers set_sent]. rewrite C3. exact Hst. }
  assert (Herr2 : conn_err w2 = None) by (unfold w2; cbn [conn_err set_sent]; congruence).
  assert (Hended2 : conn_ended w2 = false)
    by (unfold w2; cbn [conn_ended set_sent]; congruence).
  assert (Hd2 : destroyed w2 = false) by (unfold w2; cbn [destroyed set_sent]; congruence).
  destruct (write_body_memory fuel w2 r data Herr2 Hended2 Hd2 Hst2 Hfuel)
    as (w3 & Hwb & B1 & B2 & B3 & (B4 & B5 & B6 & B7) & B8).
  rewrite (bind_step _ _ _ _ _ Hwb).
  exists w3, header. split; [exact Henc | split; [reflexivity | ]].
  unfold w2 in *. cbn [sent buf readers incoming conn_err conn_ended destroyed set_sent] in *.
  split; [rewrite B1, C1, <- app_assoc; reflexivity | ].
  split; [congruence | split; [ | rewrite B8, C3; reflexivity]].
  unfold same_socket. repeat split; congruence.
Qed.

(** X6.  On a connection that can be written to (no error recorded, the
    peer's end not read, the socket not destroyed), a response with ASCII
    header fields, a status code within [JS.MAX_SAFE_INTEGER] and an
    in-memory body goes out as the encoded header followed by the body in
    one chunk, or by nothing when the body is empty; the Content-Length
    pushed is the length of the body; the buffer and the read side of the
    socket are not touched. *)
Theorem writeHTTPRes_memory_body (fuel : nat) (w : World) (sc : Z)
    (hs : list Buffer) (r : BodyReader) (data : Buffer) (found : option Buffer) :
  forallb ascii_only hs = true ->
  Z.abs sc <= JS.MAX_SAFE_INTEGER ->
  conn_err w = None -> conn_ended w = false -> destroyed w = false ->
  reader_state w r = Some (MemoryReader data false) ->
  reader_length r = blen data ->
  getField hs (bytes "Content-Length") = Ok found ->
  (2 <= fuel)%nat ->
  let res' := {| res_statusCode := sc;
                 res_headers := hs ++ [content_length_line (blen data)];
                 res_body := r |} in
  exists w' header,
    encodeHTTPRes res' = Ok header
    /\ writeHTTPRes fuel {| res_statusCode := sc; res_headers := hs; res_body := r |} w
       = (Returned res', w')
    /\ sent w' = sent w ++ header :: last_piece data
    /\ buf w' = buf w
    /\ same_socket w w'
    /\ readers w'
       = firstn (reader_id r) (readers w) ++ [MemoryReader data true]
           ++ skipn (S (reader_id r)) (readers w).
Proof. intros _ _. exact (writeHTTPRes_from_memory fuel w sc hs r data found). Qed.

Lemma writeHTTPRes_memory_body_witness :
  let w := snd (readerFromMemory (bytes "hi") (newConn [])) in
  let r := {| reader_length := 2; reader_id := 0 |} in
  forallb ascii_only [bytes "X: y"] = true
  /\ Z.abs 200 <= JS.MAX_SAFE_INTEGER
  /\ conn_err w = None /\ conn_ended w = false /\ destroyed w = false
  /\ reader_state w r = Some (MemoryReader (bytes "hi") false)
  /\ reader_length r = blen (bytes "hi")
  /\ getField [bytes "X: y"] (bytes "Content-Length") = Ok None
  /\ (2 <= 2)%nat
  /\ exists w' header,
       encodeHTTPRes {| res_statusCode := 200;
                        res_headers := [bytes "X: y"] ++ [content_length_line (blen (bytes "hi"))];
                        res_body := r |} = Ok header
       /\ writeHTTPRes 2 {| res_statusCode := 200; res_headers := [bytes "X: y"];
                            res_body := r |} w
          = (Returned {| res_statusCode := 200;
                         res_headers := [bytes "X: y"] ++ [content_length_line (blen (bytes "hi"))];
                         res_body := r |}, w')
       /\ sent w' = sent w ++ header :: last_piece (bytes "hi")
       /\ buf w' = buf w
       /\ same_socket w w'
       /\ readers w'
          = firstn (reader_id r) (readers w) ++ [MemoryReader (bytes "hi") true]
              ++ skipn (S (reader_id r)) (readers w).
Proof.
  intros w r.
  assert (Hsc : Z.abs 200 <= JS.MAX_SAFE_INTEGER) by (unfold JS.MAX_SAFE_INTEGER; lia).
  split; [reflexivity | split; [exact Hsc | ]].
  split; [reflexivity | split; [reflexivity | split; [reflexivity | ]]].
  split; [reflexivity | split; [reflexivity | split; [reflexivity | ]]].
  split; [lia | ].
  apply (writeHTTPRes_memory_body 2 w 200 [bytes "X: y"] r (bytes "hi") None);
    solve [reflexivity | exact Hsc].
Defined.

(** ** Taking a complete header off the buffer *)

Lemma starts_with_app_self (needle rest : list ascii) :
  JS.starts_with needle (needle ++ rest) = true.
Proof.
  induction needle as [|n ns IH]; [reflexivity | ].
  cbn. rewrite Ascii.eqb_refl. exact IH.
Qed.

(** [collectMessage] when the search for the terminator succeeds at [k]. *)
Lemma collectMessage_at_index (w : World) (k : Z) :
  buf_wf (buf w) ->
  JS.indexOf (peek (buf w)) header_end 0 = k -> 0 <= k ->
  k + 4 <= buf_length (buf w)
  /\ collectMessage w
     = match parseHTTPReq (firstn (Z.to_nat (k + 4)) (peek (buf w))) with
       | Throw e => (Thrown e, w)
       | Ok (req, ok) =>
           (Returned (Some req),
            set_buf (bufferPop (buf w) (k + 4))
              (snd (console_assert ok "parseHTTPReq: the header ends on an empty line" w)))
       end.
Proof.
  intros Hwf Hk Hk0.
  assert (Hfit : k + 4 <= buf_length (buf w)).
  { destruct (indexOf_spec (peek (buf w)) header_end 0) as [[Hr _] | (_ & Hocc & _)];
      [discriminate | lia | lia | ].
    rewrite Hk in Hocc. apply occurs_at_fits in Hocc; [ | discriminate].
    rewrite (peek_blen _ Hwf) in Hocc. change (blen header_end) with 4 in Hocc. lia. }
  split; [exact Hfit | ].
  unfold collectMessage, bind at 1, get_buf at 1.
  fold (peek (buf w)). fold header_end. rewrite Hk.
  destruct (k <? 0) eqn:E; [apply Z.ltb_lt in E; lia | ].
  rewrite (data_prefix_is_peek_prefix _ _ Hwf) by lia.
  destruct (parseHTTPReq (firstn (Z.to_nat (k + 4)) (peek (buf w)))) as [[req ok] | e].
  - unfold bind, lift, ret, modify_buf, console_assert. cbn [fst snd].
    destruct ok; reflexivity.
  - reflexivity.
Qed.

(** X7.  Whenever [collectMessage] returns a request, it has taken
    exactly the first header block off the buffer: the bytes before were a
    block ending in the first CRLF CRLF, which is what was parsed, followed
    by the bytes that are left; nothing was read or written. *)
Theorem collectMessage_takes_first_header (w w' : World) (req : HTTPReq) :
  buf_wf (buf w) ->
  collectMessage w = (Returned (Some req), w') ->
  exists (head : Buffer) (ok : bool),
    peek (buf w) = (head ++ header_end) ++ peek (buf w')
    /\ (forall j, 0 <= j < blen head -> occurs_at header_end (peek (buf w)) j = false)
    /\ parseHTTPReq (head ++ header_end) = Ok (req, ok)
    /\ buf_wf (buf w')
    /\ sent w' = sent w /\ readers w' = readers w /\ same_socket w w'.
Proof.
  intros Hwf H.
  destruct (indexOf_spec (peek (buf w)) header_end 0) as [[Hr Hno] | (Hge & Hocc & Hfirst)];
    [discriminate | lia | | ].
  - rewrite collectMessage_no_terminator in H; [ | exact Hwf | ].
    + destruct (kMaxHeaderLen <=? buf_length (buf w)); discriminate.
    + intros j. destruct (0 <=? j) eqn:E; [apply Hno, Z.leb_le, E | ].
      unfold occurs_at. rewrite E. reflexivity.
  - set (k := JS.indexOf (peek (buf w)) header_end 0) in *.
    destruct (collectMessage_at_index w k Hwf eq_refl Hge) as [Hfit Hcm].
    rewrite Hcm in H.
    assert (Hpop : 0 <= k + 4 <= buf_length (buf w)) by lia.
    destruct (bufferPop_spec (buf w) (k + 4) Hwf Hpop) as (P1 & P2 & P3).
    unfold occurs_at in Hocc. apply andb_true_iff in Hocc as [_ Hocc].
    destruct (starts_with_split _ _ Hocc) as [rest Hrest].
    assert (Hpeek : peek (buf w) = firstn (Z.to_nat k) (peek (buf w)) ++ header_end ++ rest).
    { rewrite <- Hrest. symmetry. apply firstn_skipn. }
    set (head := firstn (Z.to_nat k) (peek (buf w))) in *.
    assert (Hhead : blen head = k).
    { unfold head, blen. rewrite firstn_length_le; [lia | ].
      pose proof (peek_blen _ Hwf) as Hp. unfold blen in Hp. lia. }
    assert (Hblock : firstn (Z.to_nat (k + 4)) (peek (buf w)) = head ++ header_end).
    { rewrite Hpeek, app_assoc, firstn_app.
      replace (Z.to_nat (k + 4) - List.length (head ++ header_end))%nat with 0%nat
        by (rewrite length_app; unfold blen in Hhead; cbn; lia).
      rewrite firstn_all2 by (rewrite length_app; unfold blen in Hhead; cbn; lia).
      cbn. apply app_nil_r. }
    assert (Hleft : skipn (Z.to_nat (k + 4)) (peek (buf w)) = rest).
    { rewrite Hpeek, app_assoc, skipn_app.
      replace (Z.to_nat (k + 4) - List.length (head ++ header_end))%nat with 0%nat
        by (rewrite length_app; unfold blen in Hhead; cbn; lia).
      rewrite skipn_all2 by (rewrite length_app; unfold blen in Hhead; cbn; lia).
      reflexivity. }
    rewrite Hblock in H.
    destruct (parseHTTPReq (head ++ header_end)) as [[req0 ok] | e] eqn:Hparse;
      [ | discriminate].
    injection H as Hreq Hw'. subst req0.
    exists head, ok.
    assert (Hbuf' : buf w' = bufferPop (buf w) (k + 4)) by (rewrite <- Hw'; reflexivity).
    rewrite Hbuf', P2, Hleft.
    split; [rewrite <- app_assoc; exact Hpeek | ].
    split; [intros j Hj; apply Hfirst; lia | ].
    split; [exact Hparse | split; [exact P1 | ]].
    rewrite <- Hw'. unfold console_assert. destruct ok; cbn; repeat split.
Qed.

Lemma collectMessage_takes_first_header_witness :
  let w := set_buf (bufferPush emptyDynamicBuf (req_1_1 ++ bytes "GET /next"))
             (newConn []) in
  let w' := snd (collectMessage w) in
  let req := {| req_method := bytes "GET"; req_uri := bytes "/";
                req_version := Some (bytes "HTTP/1.1"); req_headers := [] |} in
  buf_wf (buf w)
  /\ collectMessage w = (Returned (Some req), w')
  /\ exists (head : Buffer) (ok : bool),
       peek (buf w) = (head ++ header_end) ++ peek (buf w')
       /\ (forall j, 0 <= j < blen head -> occurs_at header_end (peek (buf w)) j = false)
       /\ parseHTTPReq (head ++ header_end) = Ok (req, ok)
       /\ buf_wf (buf w')
       /\ sent w' = sent w /\ readers w' = readers w /\ same_socket w w'.
Proof.
  intros w w' req.
  assert (Hwf : buf_wf (buf w)) by (unfold buf_wf, capacity; vm_compute; split; discriminate).
  assert (Hcm : collectMessage w = (Returned (Some req), w')) by (vm_compute; reflexivity).
  split; [exact Hwf | split; [exact Hcm | ]].
  exact (collectMessage_takes_first_header w w' req Hwf Hcm).
Defined.

Lemma indexOf_at_skip_line (needle : list ascii) (n : ascii) (ns l rest : list ascii) :
  needle = n :: ns -> is_line_break n = true -> no_line_break l = true ->
  forall i, JS.indexOf_at needle (l ++ rest) i = JS.indexOf_at needle rest (i + blen l).
Proof.
  intros Hn Hbrk. subst needle. induction l as [|c l IH]; intros Hl i.
  - cbn [app]. change (blen []) with 0. rewrite Z.add_0_r. reflexivity.
  - cbn [no_line_break forallb] in Hl. apply andb_true_iff in Hl as [Hc Hl].
    cbn [app JS.indexOf_at JS.starts_with].
    destruct (Ascii.eqb n c) eqn:E.
    + apply Ascii.eqb_eq in E. subst c. rewrite Hbrk in Hc. discriminate.
    + cbn [andb]. rewrite (IH Hl). unfold blen. cbn [List.length]. f_equal. lia.
Qed.

Lemma indexOf_at_CRLF_then_line (y : list ascii) (c : ascii) (tl : list ascii) (i : Z) :
  y = c :: tl ->
  is_line_break c = false ->
  JS.indexOf_at header_end (CRLF ++ y) i = JS.indexOf_at header_end y (i + 2).
Proof.
  intros Hy Hc. subst y. unfold is_line_break in Hc. apply orb_false_iff in Hc as [Hcr _].
  assert (E : Ascii.eqb CR c = false).
  { rewrite Ascii.eqb_sym. exact Hcr. }
  unfold header_end, CRLF. cbn [app JS.indexOf_at JS.starts_with].
  rewrite E. change (Ascii.eqb CR CR) with true. change (Ascii.eqb LF LF) with true.
  change (Ascii.eqb CR LF) with false. cbn [andb].
  f_equal. lia.
Qed.

(** In a block of non-empty lines followed by an empty line, the first
    CRLF CRLF is the one that ends the block. *)
Lemma indexOf_at_block_end (l : Buffer) (lines : list Buffer) (rest : Buffer) :
  forallb is_line (l :: lines) = true ->
  forall i,
    JS.indexOf_at header_end (terminated_lines (l :: lines) ++ CRLF ++ rest) i
    = i + blen (terminated_lines (l :: lines)) - 2.
Proof.
  revert l; induction lines as [|l' lines IH]; intros l Hls i.
  - cbn [forallb] in Hls. apply andb_true_iff in Hls as [Hl _].
    assert (Hnb : no_line_break l = true) by (destruct l; [discriminate | exact Hl]).
    unfold terminated_lines. cbn [map List.concat]. rewrite app_nil_r, <- app_assoc.
    rewrite (indexOf_at_skip_line header_end CR (LF :: CRLF) l _ eq_refl eq_refl Hnb).
    rewrite blen_app. change (blen CRLF) with 2.
    cbn. lia.
  - cbn [forallb] in Hls. apply andb_true_iff in Hls as [Hl Hls].
    assert (Hnb : no_line_break l = true) by (destruct l; [discriminate | exact Hl]).
    assert (Hshape : terminated_lines (l :: l' :: lines) ++ CRLF ++ rest
                     = l ++ CRLF ++ (terminated_lines (l' :: lines) ++ CRLF ++ rest)).
    { unfold terminated_lines. cbn [map List.concat]. rewrite <- !app_assoc. reflexivity. }
    rewrite Hshape.
    rewrite (indexOf_at_skip_line header_end CR (LF :: CRLF) l _ eq_refl eq_refl Hnb).
    pose proof Hls as Hls'. cbn [forallb] in Hls'. apply andb_true_iff in Hls' as [Hl' _].
    destruct l' as [|c tl]; [discriminate | ].
    assert (Hc : is_line_break c = false).
    { cbn [is_line no_line_break forallb] in Hl'. apply andb_true_iff in Hl' as [Hc _].
      apply negb_true_iff in Hc. exact Hc. }
    etransitivity.
    { eapply indexOf_at_CRLF_then_line; [ | exact Hc].
      unfold terminated_lines. cbn [map List.concat app]. reflexivity. }
    rewrite (IH (c :: tl) Hls).
    unfold terminated_lines. cbn [map List.concat]. rewrite !blen_app.
    change (blen CRLF) with 2. lia.
Qed.

Lemma validateHeader_is_not_empty (h : Buffer) : validateHeader h = true -> h <> [].
Proof. intros H Hn. subst h. discriminate. Qed.

(** [collectMessage] on a buffer that starts with a well-formed header
    block of valid header lines. *)
Lemma collectMessage_request_header (w : World) (method uri version : JsString)
    (headers : list Buffer) (rest : Buffer) :
  buf_wf (buf w) ->
  peek (buf w) = request_header method uri version headers ++ rest ->
  is_token method = true -> is_token uri = true -> is_token version = true ->
  forallb no_line_break headers = true ->
  forallb validateHeader headers = true ->
  exists w',
    collectMessage w
    = (Returned (Some {| req_method := method; req_uri := uri;
                         req_version := Some version; req_headers := headers |}), w')
    /\ buf_wf (buf w') /\ peek (buf w') = rest
    /\ sent w' = sent w /\ readers w' = readers w /\ same_socket w w'.
Proof.
  intros Hwf Hpeek Hm Hu Hv Hnb Hval.
  set (start := (method ++ bytes " " ++ uri ++ bytes " " ++ version) : Buffer).
  set (block := request_header method uri version headers) in *.
  assert (Hblock : block = terminated_lines (start :: headers) ++ CRLF).
  { unfold block, request_header. fold start. unfold terminated_lines.
    change (start :: headers ++ [[]]) with ((start :: headers) ++ [[]]).
    rewrite map_app, concat_app. reflexivity. }
  assert (Hlines : forallb is_line (start :: headers) = true).
  { cbn [forallb]. apply andb_true_iff. split.
    - assert (Hnb0 : no_line_break start = true).
      { unfold start. rewrite !no_line_break_app, (is_token_no_line_break _ Hm),
          (is_token_no_line_break _ Hu), (is_token_no_line_break _ Hv). reflexivity. }
      destruct start as [|c0 s0] eqn:Es; [ | exact Hnb0].
      unfold start in Es. change (bytes " ") with [" "%char] in Es.
      apply app_eq_nil in Es as [_ Es]. discriminate.
    - clear -Hnb Hval. induction headers as [|h hs IH]; [reflexivity | ].
      cbn [forallb] in *. apply andb_true_iff in Hnb as [Hn1 Hn2].
      apply andb_true_iff in Hval as [Hv1 Hv2]. apply andb_true_iff. split.
      + destruct h; [discriminate | exact Hn1].
      + apply IH; assumption. }
  assert (Hblen : 4 <= blen block).
  { rewrite Hblock. unfold terminated_lines. cbn [map List.concat].
    rewrite !blen_app. change (blen CRLF) with 2.
    repeat match goal with
           | |- context [blen ?x] =>
               lazymatch goal with
               | _ : 0 <= blen x |- _ => fail
               | _ => pose proof (blen_nonneg x)
               end
           end.
    lia. }
  assert (Hk : JS.indexOf (peek (buf w)) header_end 0 = blen block - 4).
  { rewrite Hpeek. change 0 with (blen []) at 1.
    change (block ++ rest) with ([] ++ block ++ rest).
    rewrite indexOf_after_prefix. change (blen []) with 0.
    rewrite Hblock, <- app_assoc, (indexOf_at_block_end start headers rest Hlines).
    rewrite blen_app. change (blen CRLF) with 2. lia. }
  destruct (collectMessage_at_index w (blen block - 4) Hwf Hk) as [Hfit Hcm]; [lia | ].
  replace (blen block - 4 + 4) with (blen block) in * by lia.
  assert (Hfirst : firstn (Z.to_nat (blen block)) (peek (buf w)) = block).
  { rewrite Hpeek. unfold blen. rewrite Nat2Z.id, firstn_app, firstn_all, Nat.sub_diag.
    cbn. apply app_nil_r. }
  rewrite Hfirst in Hcm. unfold block in Hcm at 1.
  rewrite (parseHTTPReq_well_formed method uri version headers Hm Hu Hv Hnb Hval) in Hcm.
  fold block in Hcm.
  assert (Hpop : 0 <= blen block <= buf_length (buf w)) by lia.
  destruct (bufferPop_spec (buf w) (blen block) Hwf Hpop) as (P1 & P2 & P3).
  eexists. split; [exact Hcm | ].
  cbn [buf set_buf sent readers snd console_assert].
  split; [exact P1 | split; [ | repeat split]].
  rewrite P2, Hpeek. unfold blen. rewrite Nat2Z.id, skipn_app, skipn_all, Nat.sub_diag.
  reflexivity.
Qed.

(** ** Pipelined requests *)

Lemma drain_connLength_zero (fuel : nat) (w : World) (r : BodyReader) :
  reader_state w r = Some (ConnLengthReader 0) ->
  (1 <= fuel)%nat ->
  drain fuel r w = (Returned tt, w).
Proof.
  intros Hst Hfuel. destruct fuel as [|fuel]; [lia | ].
  cbn [drain]. rewrite (bind_step _ _ _ _ _ (read_connLength_zero w r Hst)).
  reflexivity.
Qed.

(** One turn of the serve loop on a buffer that starts with a plain GET
    request: the default answer is written, the request is taken off the
    buffer, the loop goes on. *)
Lemma serve_loop_plain_get (fuel : nat) (w : World) (target : JsString * JsString)
    (rest : Buffer) :
  buf_wf (buf w) -> conn_err w = None -> conn_ended w = false -> destroyed w = false ->
  peek (buf w) = get_request target ++ rest ->
  plain_get target = true ->
  (2 <= fuel)%nat ->
  exists w',
    serve_loop (S fuel) w = serve_loop fuel w'
    /\ buf_wf (buf w') /\ conn_err w' = None
    /\ peek (buf w') = rest
    /\ sent w' = sent w ++ hello_response
    /\ incoming w' = incoming w /\ conn_ended w' = conn_ended w
    /\ destroyed w' = destroyed w.
Proof.
  intros Hwf Herr Hended Hdest Hpeek Hplain Hfuel.
  destruct target as [uri version]. unfold plain_get in Hplain. cbn [fst snd] in *.
  apply andb_true_iff in Hplain as [Hplain Hver].
  apply andb_true_iff in Hplain as [Hplain Hecho].
  apply andb_true_iff in Hplain as [Hu Hv].
  apply negb_true_iff in Hver. apply negb_true_iff in Hecho.
  set (msg := {| req_method := bytes "GET"; req_uri := uri;
                 req_version := Some version; req_headers := [] |}).
  destruct (collectMessage_request_header w (bytes "GET") uri version [] rest
              Hwf Hpeek eq_refl Hu Hv eq_refl eq_refl)
    as (w1 & Hcm & Hwf1 & Hpeek1 & Hsent1 & Hrs1 & (Hi1 & He1 & Hn1 & Hd1)).
  fold msg in Hcm.
  (* the request body reader *)
  set (reqBody := {| reader_length := 0; reader_id := List.length (readers w1) |}).
  set (w2 := set_readers (readers w1 ++ [ConnLengthReader 0]) w1).
  assert (Hrd : readerFromReq msg w1 = (Returned reqBody, w2)).
  { rewrite (readerFromReq_selection msg w1 None None (-1) eq_refl eq_refl eq_refl).
    reflexivity. }
  (* the response *)
  set (body := {| reader_length := blen hello_body; reader_id := List.length (readers w2) |}).
  set (w3 := set_readers (readers w2 ++ [MemoryReader hello_body false]) w2).
  set (res := {| res_statusCode := 200;
                 res_headers := [bytes "Server: my_first_http_server"];
                 res_body := body |}).
  assert (Hh : handleReq msg reqBody w2 = (Returned res, w3)).
  { unfold handleReq. cbn [req_uri msg]. rewrite Hecho. reflexivity. }
  assert (Hst3 : reader_state w3 body = Some (MemoryReader hello_body false)).
  { unfold reader_state, w3, body. cbn [readers set_readers reader_id].
    rewrite nth_error_app2 by lia. rewrite Nat.sub_diag. reflexivity. }
  assert (Herr3 : conn_err w3 = None).
  { unfold w3, w2. cbn [conn_err set_readers]. congruence. }
  assert (Hended3 : conn_ended w3 = false).
  { unfold w3, w2. cbn [conn_ended set_readers]. congruence. }
  assert (Hdest3 : destroyed w3 = false).
  { unfold w3, w2. cbn [destroyed set_readers]. congruence. }
  destruct (writeHTTPRes_from_memory fuel w3 200 [bytes "Server: my_first_http_server"]
              body hello_body None Herr3 Hended3 Hdest3 Hst3 eq_refl eq_refl Hfuel)
    as (w4 & header & Henc & Hwr & Hsent4 & Hbuf4 & (Hi4 & He4 & Hn4 & Hd4) & Hrs4).
  assert (Hheader : header = hello_header).
  { assert (Hc : Ok header = Ok hello_header) by (rewrite <- Henc; reflexivity).
    injection Hc as Hc. exact Hc. }
  subst header.
  fold res in Hwr.
  rewrite (serve_loop_after_response fuel w w1 w2 w3 w4 msg reqBody res _ Hcm Hrd Hh Hwr).
  assert (Hvi : version_is msg "1.0" = false) by exact Hver.
  rewrite Hvi.
  assert (Hst4 : reader_state w4 reqBody = Some (ConnLengthReader 0)).
  { unfold reader_state. rewrite Hrs4. unfold w3, w2, reqBody, body.
    cbn [readers set_readers reader_id].
    rewrite nth_error_set_reader_other.
    - rewrite nth_error_app1
        by (unfold w2; cbn [readers set_readers]; rewrite !length_app; cbn [List.length]; lia).
      unfold w2; cbn [readers set_readers].
      rewrite nth_error_app2 by lia. rewrite Nat.sub_diag. reflexivity.
    - unfold w2; cbn [readers set_readers]. rewrite !length_app. cbn [List.length]. lia.
    - unfold w2; cbn [readers set_readers]. rewrite !length_app. cbn [List.length]. lia. }
  assert (Hdr : drain fuel reqBody w4 = (Returned tt, w4))
    by (apply drain_connLength_zero; [exact Hst4 | lia]).
  rewrite (bind_step _ _ _ _ _ Hdr).
  exists w4.
  unfold w3, w2 in *. cbn [sent buf incoming conn_err conn_ended destroyed set_readers] in *.
  split; [reflexivity | ].
  split; [rewrite Hbuf4; exact Hwf1 | ].
  split; [congruence | ].
  split; [rewrite Hbuf4; exact Hpeek1 | ].
  split; [rewrite Hsent4, Hsent1; reflexivity | ].
  split; [congruence | split; congruence].
Qed.

Lemma socketRead_end (w : World) (rest : list SockEvent) :
  conn_err w = None -> conn_ended w = false -> incoming w = EvEnd :: rest ->
  socketRead w = (Returned [], set_conn_ended true (set_incoming rest w)).
Proof. intros H1 H2 H3. unfold socketRead. rewrite H1, H2, H3. reflexivity. Qed.

Lemma socketRead_data (w : World) (data : Buffer) (rest : list SockEvent) :
  conn_err w = None -> conn_ended w = false -> incoming w = EvData data :: rest ->
  socketRead w = (Returned data, set_incoming rest w).
Proof. intros H1 H2 H3. unfold socketRead. rewrite H1, H2, H3. reflexivity. Qed.

Lemma no_header_end_nil : no_header_end [].
Proof. apply no_header_end_by_search. reflexivity. Qed.

(** The serve loop at the end of the stream with an empty buffer: it
    returns and writes nothing. *)
Lemma serve_loop_clean_close (fuel : nat) (w : World) (rest : list SockEvent) :
  buf_wf (buf w) -> peek (buf w) = [] ->
  conn_err w = None -> conn_ended w = false -> incoming w = EvEnd :: rest ->
  (1 <= fuel)%nat ->
  exists w', serve_loop fuel w = (Returned tt, w') /\ sent w' = sent w.
Proof.
  intros Hwf Hpeek Herr Hended Hinc Hfuel.
  destruct fuel as [|fuel]; [lia | ].
  assert (Hlen : buf_length (buf w) = 0).
  { rewrite <- (peek_blen _ Hwf), Hpeek. reflexivity. }
  assert (Hcm : collectMessage w = (Returned None, w)).
  { rewrite collectMessage_no_terminator; [ | exact Hwf | rewrite Hpeek; exact no_header_end_nil].
    rewrite Hlen. reflexivity. }
  cbn [serve_loop]. rewrite (bind_step _ _ _ _ _ Hcm).
  rewrite (bind_step _ _ _ _ _ (socketRead_end w rest Herr Hended Hinc)).
  set (w1 := set_conn_ended true (set_incoming rest w)).
  unfold bind, modify_buf, get_buf. cbn [buf set_buf].
  assert (Hl1 : buf_length (bufferPush (buf w1) []) = 0).
  { unfold w1. cbn [buf set_conn_ended set_incoming]. unfold bufferPush. cbn [buf_length].
    rewrite Hlen. reflexivity. }
  rewrite Hl1. cbn. eexists. split; [reflexivity | reflexivity].
Qed.

Lemma get_request_blen (target : JsString * JsString) : 0 < blen (get_request target).
Proof.
  unfold get_request, request_header, terminated_lines. cbn [map List.concat app].
  rewrite !blen_app. change (blen CRLF) with 2.
  repeat match goal with
         | |- context [blen ?x] =>
             lazymatch goal with
             | _ : 0 <= blen x |- _ => fail
             | _ => pose proof (blen_nonneg x)
             end
         end.
  lia.
Qed.

(** The serve loop on a buffer that holds a run of plain GET requests,
    with the end of the stream to come. *)
Lemma serve_loop_pipelined (targets : list (JsString * JsString)) :
  forall (fuel : nat) (w : World),
    buf_wf (buf w) -> conn_err w = None -> conn_ended w = false ->
    destroyed w = false ->
    incoming w = [EvEnd] ->
    peek (buf w) = List.concat (map get_request targets) ->
    forallb plain_get targets = true ->
    (List.length targets + 2 <= fuel)%nat ->
    exists w',
      serve_loop fuel w = (Returned tt, w')
      /\ sent w' = sent w ++ List.concat (map (fun _ => hello_response) targets).
Proof.
  induction targets as [|t targets IH];
    intros fuel w Hwf Herr Hended Hdest Hinc Hpeek Hall Hfuel.
  - destruct (serve_loop_clean_close fuel w [] Hwf Hpeek Herr Hended Hinc) as (w' & Hs & Hsent);
      [cbn in Hfuel; lia | ].
    exists w'. split; [exact Hs | ]. cbn. rewrite app_nil_r. exact Hsent.
  - cbn [forallb] in Hall. apply andb_true_iff in Hall as [Ht Hall].
    cbn [map List.concat] in Hpeek. cbn [List.length] in Hfuel.
    destruct fuel as [|fuel]; [lia | ].
    destruct (serve_loop_plain_get fuel w t _ Hwf Herr Hended Hdest Hpeek Ht) as
      (w1 & Hstep & Hwf1 & Herr1 & Hpeek1 & Hsent1 & Hinc1 & Hended1 & Hdest1); [lia | ].
    destruct (IH fuel w1 Hwf1 Herr1) as (w' & Hs & Hsent);
      [congruence | congruence | congruence | exact Hpeek1 | exact Hall | lia | ].
    exists w'. split; [rewrite Hstep; exact Hs | ].
    rewrite Hsent, Hsent1. cbn [map List.concat]. rewrite <- app_assoc. reflexivity.
Qed.

(** X8.  Keep-alive and pipelining: when one chunk carries any number of
    GET requests without header fields (any uri but "/echo", any version
    token but "1.0") and the stream then ends, [serveClient] writes the
    default answer once per request, in order, and returns. *)
Theorem serveClient_pipelined_gets (targets : list (JsString * JsString)) (fuel : nat) :
  forallb plain_get targets = true ->
  (List.length targets + 3 <= fuel)%nat ->
  exists w',
    serveClient fuel (newConn [EvData (List.concat (map get_request targets)); EvEnd])
    = (Returned tt, w')
    /\ sent w' = List.concat (map (fun _ => hello_response) targets).
Proof.
  intros Hall Hfuel.
  set (chunk := List.concat (map get_request targets)).
  set (w0 := newConn [EvData chunk; EvEnd]).
  assert (Hsc : serveClient fuel w0 = serve_loop fuel w0) by reflexivity.
  rewrite Hsc. destruct fuel as [|fuel]; [lia | ].
  assert (Hcm : collectMessage w0 = (Returned None, w0)).
  { rewrite collectMessage_no_terminator;
      [reflexivity | exact emptyDynamicBuf_wf | exact no_header_end_nil]. }
  cbn [serve_loop]. rewrite (bind_step _ _ _ _ _ Hcm).
  rewrite (bind_step _ _ _ _ _ (socketRead_data w0 chunk [EvEnd] eq_refl eq_refl eq_refl)).
  set (w1 := set_incoming [EvEnd] w0).
  unfold bind at 1, modify_buf at 1. unfold bind at 1, get_buf at 1. cbn [buf set_buf].
  change (buf w1) with emptyDynamicBuf.
  destruct (bufferPush_spec emptyDynamicBuf chunk emptyDynamicBuf_wf) as (B1 & B2 & _).
  change (peek emptyDynamicBuf) with (@nil ascii) in B2. cbn [app] in B2.
  set (w2 := set_buf (bufferPush emptyDynamicBuf chunk) w1).
  destruct targets as [|t targets].
  - exists w2. split; reflexivity.
  - assert (Hpos : 0 < blen chunk).
    { unfold chunk. cbn [map List.concat]. rewrite blen_app.
      pose proof (get_request_blen t).
      pose proof (blen_nonneg (List.concat (map get_request targets))). lia. }
    assert (Hne : (blen chunk =? 0) = false) by (apply Z.eqb_neq; lia).
    rewrite Hne. cbn [andb].
    destruct (serve_loop_pipelined (t :: targets) fuel w2) as (w' & Hs & Hsent);
      try reflexivity; try assumption.
    + cbn [List.length] in *. lia.
    + exists w'. split; [exact Hs | exact Hsent].
Qed.

Lemma serveClient_pipelined_gets_witness :
  let targets := [(bytes "/", bytes "HTTP/1.1"); (bytes "/a", bytes "HTTP/1.0")] in
  forallb plain_get targets = true
  /\ (List.length targets + 3 <= 5)%nat
  /\ exists w',
       serveClient 5 (newConn [EvData (List.concat (map get_request targets)); EvEnd])
       = (Returned tt, w')
       /\ sent w' = List.concat (map (fun _ => hello_response) targets).
Proof.
  intros targets.
  assert (H1 : forallb plain_get targets = true) by reflexivity.
  assert (H2 : (List.length targets + 3 <= 5)%nat) by (cbn; lia).
  split; [exact H1 | split; [exact H2 | ]].
  exact (serveClient_pipelined_gets targets 5 H1 H2).
Defined.

(** ** Errors become responses *)

Lemma handleNewConn_answers_error (fuel : nat) (w w1 : World) (sc : Z) (msg : JsString) :
  serveClient fuel w = (Thrown (HTTPError sc msg), w1) ->
  conn_err w1 = None -> conn_ended w1 = false -> destroyed w1 = false ->
  (2 <= fuel)%nat ->
  exists w',
    handleNewConn fuel w = (Returned tt, w')
    /\ sent w' = sent w1 ++ error_response sc msg
    /\ destroyed w' = true.
Proof.
  intros Hs Herr Hended Hdest Hfuel. unfold handleNewConn. rewrite Hs.
  set (body := {| reader_length := blen (msg ++ [LF]); reader_id := List.length (readers w1) |}).
  set (w2 := set_readers (readers w1 ++ [MemoryReader (msg ++ [LF]) false]) w1).
  assert (Hrm : readerFromMemory (msg ++ [LF]) w1 = (Returned body, w2)) by reflexivity.
  rewrite (bind_step _ _ _ _ _ Hrm).
  assert (Hst : reader_state w2 body = Some (MemoryReader (msg ++ [LF]) false)).
  { unfold reader_state, w2, body. cbn [readers set_readers reader_id].
    rewrite nth_error_app2 by lia. rewrite Nat.sub_diag. reflexivity. }
  assert (Herr2 : conn_err w2 = None) by exact Herr.
  assert (Hended2 : conn_ended w2 = false) by exact Hended.
  assert (Hdest2 : destroyed w2 = false) by exact Hdest.
  destruct (writeHTTPRes_from_memory fuel w2 sc [] body (msg ++ [LF]) None
              Herr2 Hended2 Hdest2 Hst eq_refl eq_refl Hfuel)
    as (w3 & header & Henc & Hwr & Hsent & _).
  rewrite Hwr.
  assert (Hheader : Ok header
                    = Ok (HTTP_VERSION ++ bytes " " ++ JS.numberToString sc ++ CRLF
                            ++ content_length_line (blen (msg ++ [LF])))).
  { rewrite <- Henc. cbn [app]. rewrite encodeHTTPRes_joined. cbn [JS.join].
    rewrite <- !app_assoc. reflexivity. }
  injection Hheader as Hheader.
  eexists. split; [reflexivity | ]. cbn [sent destroyed set_destroyed].
  split; [ | reflexivity].
  rewrite Hsent, Hheader.
  assert (Hlp : last_piece (msg ++ [LF]) = [msg ++ [LF]]).
  { destruct msg; reflexivity. }
  rewrite Hlp. reflexivity.
Qed.

(** An [HTTPError] raised after the peer's end has been read gets no
    response: the write of the header fails and the failure is ignored. *)
Lemma handleNewConn_error_after_end (fuel : nat) (w w1 : World) (sc : Z) (msg : JsString) :
  serveClient fuel w = (Thrown (HTTPError sc msg), w1) ->
  conn_err w1 = None -> conn_ended w1 = true ->
  exists w',
    handleNewConn fuel w = (Returned tt, w')
    /\ sent w' = sent w1
    /\ destroyed w' = true.
Proof.
  intros Hs Herr Hended. unfold handleNewConn. rewrite Hs.
  set (body := {| reader_length := blen (msg ++ [LF]); reader_id := List.length (readers w1) |}).
  set (w2 := set_readers (readers w1 ++ [MemoryReader (msg ++ [LF]) false]) w1).
  assert (Hrm : readerFromMemory (msg ++ [LF]) w1 = (Returned body, w2)) by reflexivity.
  rewrite (bind_step _ _ _ _ _ Hrm).
  set (res' := {| res_statusCode := sc;
                  res_headers := [] ++ [content_length_line (blen (msg ++ [LF]))];
                  res_body := body |}).
  destruct (encodeHTTPRes_snoc sc [] (content_length_line (blen (msg ++ [LF]))) body)
    as (header & Henc & Hpos).
  fold res' in Henc.
  assert (Herr2 : conn_err w2 = None) by exact Herr.
  assert (Hended2 : conn_ended w2 = true) by exact Hended.
  destruct (socketWrite_after_end w2 header Herr2 Hended2 Hpos) as (e & Hw).
  assert (Hwr : writeHTTPRes fuel {| res_statusCode := sc; res_headers := [];
                                     res_body := body |} w2
                = (Thrown (Error e), w2)).
  { unfold writeHTTPRes. cbn [res_body res_headers res_statusCode reader_length body].
    destruct (blen (msg ++ [LF]) <? 0) eqn:E;
      [apply Z.ltb_lt in E; pose proof (blen_nonneg (msg ++ [LF])); lia | ].
    rewrite (bind_step _ _ w2 w2 None) by reflexivity.
    rewrite (bind_step _ _ w2 w2 tt) by reflexivity.
    cbv beta zeta. fold (content_length_line (blen (msg ++ [LF]))). fold body. fold res'.
    assert (Hl : lift (encodeHTTPRes res') w2 = (Returned header, w2))
      by (rewrite Henc; reflexivity).
    rewrite (bind_step _ _ _ _ _ Hl).
    unfold bind at 1. rewrite Hw. reflexivity. }
  rewrite Hwr. eexists. split; [reflexivity | ]. split; reflexivity.
Qed.

Lemma serve_loop_S (fuel : nat) :
  serve_loop (S fuel)
  = (msg <- collectMessage ;;
     match msg with
     | None =>
         data <- socketRead ;;
         modify_buf (fun b => bufferPush b data) ;;;
         b <- get_buf ;;
         if (blen data =? 0) && (buf_length b =? 0) then ret tt
         else if blen data =? 0 then throw (HTTPError 400 (bytes "Unexpected EOF."))
         else serve_loop fuel
     | Some msg =>
         reqBody <- readerFromReq msg ;;
         res <- handleReq msg reqBody ;;
         writeHTTPRes fuel res ;;;
         if version_is msg "1.0" then ret tt
         else drain fuel reqBody ;;; serve_loop fuel
     end).
Proof. reflexivity. Qed.

(** The serve loop on a connection that delivers one chunk without a
    complete header and then ends. *)
Lemma serveClient_truncated_header (fuel : nat) (d : Buffer) :
  d <> [] -> no_header_end d -> (2 <= fuel)%nat ->
  exists w1,
    serveClient fuel (newConn [EvData d; EvEnd])
    = (Thrown (if kMaxHeaderLen <=? blen d
               then HTTPError 413 (bytes "Header is too large.")
               else HTTPError 400 (bytes "Unexpected EOF.")), w1)
    /\ conn_err w1 = None /\ sent w1 = []
    /\ conn_ended w1 = negb (kMaxHeaderLen <=? blen d)
    /\ destroyed w1 = false.
Proof.
  intros Hd Hno Hfuel.
  set (w0 := newConn [EvData d; EvEnd]).
  assert (Hsc : serveClient fuel w0 = serve_loop fuel w0) by reflexivity.
  rewrite Hsc. destruct fuel as [|[|fuel]]; try lia.
  assert (Hcm : collectMessage w0 = (Returned None, w0)).
  { rewrite collectMessage_no_terminator;
      [reflexivity | exact emptyDynamicBuf_wf | exact no_header_end_nil]. }
  rewrite serve_loop_S.
  rewrite (bind_step _ _ _ _ _ Hcm).
  rewrite (bind_step _ _ _ _ _ (socketRead_data w0 d [EvEnd] eq_refl eq_refl eq_refl)).
  set (w1 := set_incoming [EvEnd] w0).
  unfold bind at 1, modify_buf at 1. unfold bind at 1, get_buf at 1. cbn [buf set_buf].
  change (buf w1) with emptyDynamicBuf.
  destruct (bufferPush_spec emptyDynamicBuf d emptyDynamicBuf_wf) as (B1 & B2 & _).
  change (peek emptyDynamicBuf) with (@nil ascii) in B2. cbn [app] in B2.
  set (w2 := set_buf (bufferPush emptyDynamicBuf d) w1).
  assert (Hpos : 0 < blen d).
  { destruct d; [congruence | unfold blen; cbn [List.length]; lia]. }
  assert (Hne : (blen d =? 0) = false) by (apply Z.eqb_neq; lia).
  rewrite Hne. cbn [andb].
  assert (Hwf2 : buf_wf (buf w2)) by exact B1.
  assert (Hpeek2 : peek (buf w2) = d) by exact B2.
  assert (Hlen2 : buf_length (buf w2) = blen d).
  { rewrite <- (peek_blen _ Hwf2), Hpeek2. reflexivity. }
  assert (Hcm2 : collectMessage w2
                 = if kMaxHeaderLen <=? blen d
                   then (Thrown (HTTPError 413 (bytes "Header is too large.")), w2)
                   else (Returned None, w2)).
  { rewrite collectMessage_no_terminator; [ | exact Hwf2 | rewrite Hpeek2; exact Hno].
    rewrite Hlen2. reflexivity. }
  rewrite serve_loop_S. unfold bind at 1. rewrite Hcm2.
  destruct (kMaxHeaderLen <=? blen d).
  - exists w2. repeat split.
  - rewrite (bind_step _ _ _ _ _ (socketRead_end w2 [] eq_refl eq_refl eq_refl)).
    set (w3 := set_conn_ended true (set_incoming [] w2)).
    unfold bind at 1, modify_buf at 1. unfold bind at 1, get_buf at 1. cbn [buf set_buf].
    assert (Hl3 : buf_length (bufferPush (buf w3) []) = blen d).
    { change (buf w3) with (buf w2). unfold bufferPush. cbn [buf_length].
      rewrite Hlen2. change (blen []) with 0. lia. }
    rewrite Hl3, Hne. change (blen [] =? 0) with true. cbn [andb].
    eexists. split; [reflexivity | ]. repeat split.
Qed.

(** X9.  A connection that delivers one chunk without a complete header
    and then ends is closed.  When the chunk has reached [kMaxHeaderLen]
    it is answered 413 "Header is too large." first, the end of the stream
    not yet read.  Otherwise the serve loop reads the end and fails with
    400 "Unexpected EOF.", but no response reaches the peer: the write fails
    on the ended socket and the failure is ignored.  Either way the socket
    is destroyed. *)
Theorem handleNewConn_truncated_header (fuel : nat) (d : Buffer) :
  d <> [] -> no_header_end d -> (2 <= fuel)%nat ->
  exists w',
    handleNewConn fuel (newConn [EvData d; EvEnd]) = (Returned tt, w')
    /\ sent w'
       = (if kMaxHeaderLen <=? blen d
          then error_response 413 (bytes "Header is too large.")
          else [])
    /\ destroyed w' = true.
Proof.
  intros Hd Hno Hfuel.
  destruct (serveClient_truncated_header fuel d Hd Hno Hfuel)
    as (w1 & Hs & Herr & Hsent & Hended & Hdest).
  destruct (kMaxHeaderLen <=? blen d); cbn [negb] in Hended.
  - destruct (handleNewConn_answers_error fuel _ w1 _ _ Hs Herr Hended Hdest Hfuel)
      as (w' & H1 & H2 & H3).
    exists w'. rewrite H2, Hsent. repeat split; assumption.
  - destruct (handleNewConn_error_after_end fuel _ w1 _ _ Hs Herr Hended)
      as (w' & H1 & H2 & H3).
    exists w'. rewrite H2, Hsent. repeat split; assumption.
Qed.

Lemma handleNewConn_truncated_header_witness :
  bytes "GET / HT" <> []
  /\ no_header_end (bytes "GET / HT")
  /\ (2 <= 4)%nat
  /\ exists w',
       handleNewConn 4 (newConn [EvData (bytes "GET / HT"); EvEnd]) = (Returned tt, w')
       /\ sent w' = []
       /\ destroyed w' = true.
Proof.
  assert (H1 : bytes "GET / HT" <> []) by discriminate.
  assert (H2 : no_header_end (bytes "GET / HT")) by (apply no_header_end_by_search; reflexivity).
  assert (H3 : (2 <= 4)%nat) by lia.
  split; [exact H1 | split; [exact H2 | split; [exact H3 | ]]].
  exact (handleNewConn_truncated_header 4 (bytes "GET / HT") H1 H2 H3).
Defined.

(** ** The echo server *)

Lemma socketRead_error (w : World) (e : JsString) (rest : list SockEvent) :
  conn_err w = None -> conn_ended w = false -> incoming w = EvError e :: rest ->
  socketRead w = (Thrown (Error e), set_conn_err (Some e) (set_incoming rest w)).
Proof. intros H1 H2 H3. unfold socketRead. rewrite H1, H2, H3. reflexivity. Qed.

Lemma echo_serve_loop_chunks (chunks : list Buffer) :
  forall (fuel : nat) (w : World) (fin : StreamEnd) (rest : list SockEvent),
    conn_err w = None -> conn_ended w = false -> destroyed w = false ->
    incoming w = map EvData chunks ++ end_event fin :: rest ->
    forallb not_empty chunks = true ->
    (List.length chunks < fuel)%nat ->
    exists w',
      EchoServer.serve_loop fuel w
      = (match fin with Ends => Returned tt | Fails err => Thrown (Error err) end, w')
      /\ sent w' = sent w ++ chunks
      /\ incoming w' = rest.
Proof.
  induction chunks as [|c chunks IH];
    intros fuel w fin rest Herr Hended Hdest Hinc Hall Hfuel.
  - destruct fuel as [|fuel]; [cbn in Hfuel; lia | ].
    cbn [map app] in Hinc. cbn [EchoServer.serve_loop].
    destruct fin as [|err]; cbn [end_event] in Hinc.
    + rewrite (bind_step _ _ _ _ _ (socketRead_end w rest Herr Hended Hinc)).
      eexists. split; [reflexivity | ]. cbn. rewrite app_nil_r. split; reflexivity.
    + unfold bind. rewrite (socketRead_error w err rest Herr Hended Hinc).
      eexists. split; [reflexivity | ]. cbn. rewrite app_nil_r. split; reflexivity.
  - destruct fuel as [|fuel]; [cbn in Hfuel; lia | ].
    cbn [forallb] in Hall. apply andb_true_iff in Hall as [Hc Hall].
    cbn [map app] in Hinc. cbn [EchoServer.serve_loop].
    rewrite (bind_step _ _ _ _ _ (socketRead_data w c _ Herr Hended Hinc)).
    set (w1 := set_incoming _ w).
    assert (Hpos : 0 < blen c) by (destruct c; [discriminate | unfold blen; cbn; lia]).
    replace (blen c =? 0) with false by (symmetry; apply Z.eqb_neq; lia).
    assert (Hw : socketWrite c w1 = (Returned tt, set_sent (sent w1 ++ [c]) w1))
      by (apply socketWrite_ok; [exact Herr | exact Hended | exact Hdest | exact Hpos]).
    rewrite (bind_step _ _ _ _ _ Hw).
    set (w2 := set_sent _ w1).
    destruct (IH fuel w2 fin rest) as (w' & Hs & Hsent & Hinc');
      [exact Herr | exact Hended | exact Hdest | reflexivity | exact Hall
       | cbn in Hfuel; lia | ].
    exists w'. split; [exact Hs | split; [ | exact Hinc']].
    rewrite Hsent. unfold w2, w1. cbn [sent set_sent set_incoming].
    rewrite <- app_assoc. reflexivity.
Qed.

(** X10.  The echo server writes back what it reads: fed any number of
    non-empty chunks and then the end of the stream or a socket error, it
    has sent exactly those chunks, in order, and the socket is destroyed. *)
Theorem echo_server_echoes (chunks : list Buffer) (fin : StreamEnd) (fuel : nat) :
  forallb not_empty chunks = true ->
  (List.length chunks < fuel)%nat ->
  exists w',
    EchoServer.handleNewConn fuel (newConn (map EvData chunks ++ [end_event fin]))
    = (Returned tt, w')
    /\ sent w' = chunks
    /\ destroyed w' = true.
Proof.
  intros Hall Hfuel.
  destruct (echo_serve_loop_chunks chunks fuel
              (newConn (map EvData chunks ++ [end_event fin])) fin []
              eq_refl eq_refl eq_refl eq_refl Hall Hfuel) as (w1 & Hs & Hsent & _).
  unfold EchoServer.handleNewConn, EchoServer.serveClient. rewrite Hs.
  destruct fin; eexists; (split; [reflexivity | split; [exact Hsent | reflexivity]]).
Qed.

Lemma echo_server_echoes_witness :
  forallb not_empty [bytes "ab"; bytes "c"] = true
  /\ (List.length [bytes "ab"; bytes "c"] < 3)%nat
  /\ exists w',
       EchoServer.handleNewConn 3
         (newConn (map EvData [bytes "ab"; bytes "c"] ++ [end_event Ends]))
       = (Returned tt, w')
       /\ sent w' = [bytes "ab"; bytes "c"]
       /\ destroyed w' = true.
Proof.
  assert (H1 : forallb not_empty [bytes "ab"; bytes "c"] = true) by reflexivity.
  assert (H2 : (List.length [bytes "ab"; bytes "c"] < 3)%nat) by (cbn; lia).
  split; [exact H1 | split; [exact H2 | ]].
  exact (echo_server_echoes [bytes "ab"; bytes "c"] Ends 3 H1 H2).
Defined.

(** ** The line echo server *)

Lemma indexOf_at_char_found (c : ascii) (l rest : list ascii) :
  forallb (fun x => negb (Ascii.eqb x c)) l = true ->
  forall i, JS.indexOf_at [c] (l ++ c :: rest) i = i + blen l.
Proof.
  induction l as [|x l IH]; intros Hl i.
  - cbn. rewrite Ascii.eqb_refl. unfold blen; cbn. lia.
  - cbn [forallb] in Hl. apply andb_true_iff in Hl as [Hx Hl].
    apply negb_true_iff in Hx. rewrite Ascii.eqb_sym in Hx.
    cbn [app JS.indexOf_at JS.starts_with]. rewrite Hx. cbn [andb].
    rewrite (IH Hl). unfold blen. cbn [List.length]. lia.
Qed.

Lemma indexOf_at_char_none (c : ascii) (l : list ascii) :
  forallb (fun x => negb (Ascii.eqb x c)) l = true ->
  forall i, JS.indexOf_at [c] l i = -1.
Proof.
  induction l as [|x l IH]; intros Hl i; [reflexivity | ].
  cbn [forallb] in Hl. apply andb_true_iff in Hl as [Hx Hl].
  apply negb_true_iff in Hx. rewrite Ascii.eqb_sym in Hx.
  cbn [JS.indexOf_at JS.starts_with]. rewrite Hx. cbn [andb]. apply IH. exact Hl.
Qed.

Lemma indexOf_from_0 (b needle : list ascii) :
  JS.indexOf b needle 0 = JS.indexOf_at needle b 0.
Proof.
  change 0 with (blen []) at 1 2. change b with ([] ++ b) at 1.
  apply indexOf_after_prefix.
Qed.

(** [cut_lines] on a sequence without LF, and on a first line. *)
Lemma cut_lines_no_LF (l : list ascii) : no_LF l = true -> cut_lines l = ([], l).
Proof.
  induction l as [|c l IH]; intros H; [reflexivity | ].
  cbn [no_LF forallb] in H. apply andb_true_iff in H as [Hc Hl].
  apply negb_true_iff in Hc. cbn [cut_lines]. rewrite (IH Hl), Hc. reflexivity.
Qed.

Lemma cut_lines_first_line (l rest : list ascii) :
  no_LF l = true ->
  cut_lines (l ++ LF :: rest)
  = ((l ++ [LF]) :: fst (cut_lines rest), snd (cut_lines rest)).
Proof.
  induction l as [|c l IH]; intros H.
  - cbn [app cut_lines]. destruct (cut_lines rest) as [ls tail]. reflexivity.
  - cbn [no_LF forallb] in H. apply andb_true_iff in H as [Hc Hl].
    apply negb_true_iff in Hc. cbn [app cut_lines]. rewrite (IH Hl), Hc. reflexivity.
Qed.

(** Every sequence is a run of bytes without LF, followed by nothing or by
    LF and the rest. *)
Lemma first_LF_split (s : list ascii) :
  no_LF s = true
  \/ exists l rest, s = l ++ LF :: rest /\ no_LF l = true.
Proof.
  induction s as [|c s IH]; [left; reflexivity | ].
  destruct (Ascii.eqb c LF) eqn:E.
  - apply Ascii.eqb_eq in E. subst c. right. exists [], s. split; reflexivity.
  - destruct IH as [H | (l & rest & Hs & Hl)].
    + left. cbn [no_LF forallb]. rewrite E. exact H.
    + right. exists (c :: l), rest. split; [rewrite Hs; reflexivity | ].
      cbn [no_LF forallb]. rewrite E. exact Hl.
Qed.

Lemma cut_lines_tail_no_LF (s : list ascii) : no_LF (snd (cut_lines s)) = true.
Proof.
  induction s as [|c s IH]; [reflexivity | ].
  cbn [cut_lines]. destruct (cut_lines s) as [ls tail]. cbn [snd] in IH.
  destruct (Ascii.eqb c LF) eqn:E; [exact IH | ].
  destruct ls as [|l ls']; [ | exact IH].
  cbn [snd no_LF forallb]. rewrite E. exact IH.
Qed.

Lemma cut_lines_app (a b : list ascii) :
  cut_lines (a ++ b)
  = (fst (cut_lines a) ++ fst (cut_lines (snd (cut_lines a) ++ b)),
     snd (cut_lines (snd (cut_lines a) ++ b))).
Proof.
  remember (List.length a) as n eqn:Hn. revert a Hn.
  induction n as [n IH] using lt_wf_ind. intros a Hn.
  destruct (first_LF_split a) as [Ha | (l & rest & Hs & Hl)].
  - rewrite (cut_lines_no_LF a Ha). cbn [fst snd app].
    destruct (cut_lines (a ++ b)); reflexivity.
  - subst a. rewrite <- app_assoc. cbn [app].
    rewrite !(cut_lines_first_line l _ Hl). cbn [fst snd].
    rewrite (IH (List.length rest)) with (a := rest); [reflexivity | | reflexivity].
    rewrite Hn, length_app. cbn. lia.
Qed.

Lemma cut_lines_no_line (s : list ascii) :
  fst (cut_lines s) = [] -> no_LF s = true.
Proof.
  intros H. destruct (first_LF_split s) as [Hs | (l & rest & Hs & Hl)]; [exact Hs | ].
  subst s. rewrite (cut_lines_first_line l rest Hl) in H. discriminate.
Qed.

Lemma line_collectMessage_none (w : World) :
  buf_wf (buf w) -> no_LF (peek (buf w)) = true ->
  LineEcho.collectMessage w = (Returned None, w).
Proof.
  intros Hwf Hno. unfold LineEcho.collectMessage, bind, get_buf.
  fold (peek (buf w)). rewrite indexOf_from_0, (indexOf_at_char_none LF _ Hno).
  reflexivity.
Qed.

Lemma line_collectMessage_line (w : World) (l rest : list ascii) :
  buf_wf (buf w) -> peek (buf w) = l ++ LF :: rest -> no_LF l = true ->
  exists w',
    LineEcho.collectMessage w = (Returned (Some (l ++ [LF])), w')
    /\ buf_wf (buf w') /\ peek (buf w') = rest
    /\ sent w' = sent w /\ same_socket w w'.
Proof.
  intros Hwf Hpeek Hl.
  pose proof (blen_nonneg l) as Hl0.
  assert (Hlen : blen l + 1 <= buf_length (buf w)).
  { rewrite <- (peek_blen _ Hwf), Hpeek, blen_app. unfold blen at 3. cbn [List.length].
    lia. }
  assert (Hpop : 0 <= blen l + 1 <= buf_length (buf w)) by lia.
  destruct (bufferPop_spec (buf w) (blen l + 1) Hwf Hpop) as (P1 & P2 & P3).
  unfold LineEcho.collectMessage, bind at 1, get_buf at 1.
  fold (peek (buf w)). rewrite indexOf_from_0, Hpeek, (indexOf_at_char_found LF l rest Hl).
  rewrite Z.add_0_l.
  destruct (blen l <? 0) eqn:E; [apply Z.ltb_lt in E; lia | ].
  rewrite (data_prefix_is_peek_prefix _ _ Hwf) by lia. rewrite Hpeek.
  eexists. split.
  - unfold bind, modify_buf, ret. f_equal. f_equal.
    change (l ++ LF :: rest) with (l ++ [LF] ++ rest). rewrite app_assoc.
    rewrite firstn_app.
    replace (Z.to_nat (blen l + 1) - List.length (l ++ [LF]))%nat with 0%nat
      by (rewrite length_app; unfold blen; cbn; lia).
    rewrite firstn_all2 by (rewrite length_app; unfold blen; cbn; lia).
    cbn [firstn]. rewrite app_nil_r. reflexivity.
  - cbn [buf set_buf sent]. split; [exact P1 | split; [ | repeat split]].
    rewrite P2, Hpeek.
    change (l ++ LF :: rest) with (l ++ [LF] ++ rest). rewrite app_assoc.
    rewrite skipn_app.
    replace (Z.to_nat (blen l + 1) - List.length (l ++ [LF]))%nat with 0%nat
      by (rewrite length_app; unfold blen; cbn; lia).
    rewrite skipn_all2 by (rewrite length_app; unfold blen; cbn; lia).
    reflexivity.
Qed.

Lemma line_processMessage_echo (w : World) (msg : Buffer) :
  conn_err w = None -> conn_ended w = false -> destroyed w = false ->
  is_quit msg = false ->
  LineEcho.processMessage msg w
  = (Returned tt, set_sent (sent w ++ [echo_reply msg]) w).
Proof.
  intros Herr Hended Hd Hq. unfold LineEcho.processMessage. unfold is_quit in Hq.
  rewrite Hq. unfold LineEcho.socketWrite. rewrite Hd. cbn [andb].
  unfold Buf.concat. cbn [List.concat]. rewrite app_nil_r.
  apply socketWrite_ok; [exact Herr | exact Hended | exact Hd | ].
  unfold echo_reply. rewrite blen_app. pose proof (blen_nonneg msg).
  change (blen (bytes "Echo: ")) with 6. lia.
Qed.

(** The serve loop takes every complete line off the buffer and answers
    it, then goes on with what is left. *)
Lemma line_serve_loop_buffered (n : nat) :
  forall (fuel : nat) (w : World),
    List.length (fst (cut_lines (peek (buf w)))) = n ->
    buf_wf (buf w) -> conn_err w = None -> conn_ended w = false -> destroyed w = false ->
    forallb (fun l => negb (is_quit l)) (fst (cut_lines (peek (buf w)))) = true ->
    exists w',
      LineEcho.serve_loop (n + fuel) w = LineEcho.serve_loop fuel w'
      /\ buf_wf (buf w') /\ conn_err w' = None /\ destroyed w' = false
      /\ peek (buf w') = snd (cut_lines (peek (buf w)))
      /\ sent w' = sent w ++ map echo_reply (fst (cut_lines (peek (buf w))))
      /\ incoming w' = incoming w /\ conn_ended w' = conn_ended w.
Proof.
  induction n as [|n IH]; intros fuel w Hn Hwf Herr Hended Hd Hq.
  - exists w. apply length_zero_iff_nil in Hn.
    pose proof (cut_lines_no_line _ Hn) as Hno.
    rewrite (cut_lines_no_LF _ Hno). cbn [fst snd map].
    rewrite app_nil_r.
    split; [reflexivity | ].
    split; [exact Hwf | split; [exact Herr | split; [exact Hd | ]]].
    repeat split.
  - destruct (first_LF_split (peek (buf w))) as [Hno | (l & rest & Hs & Hl)].
    { rewrite (cut_lines_no_LF _ Hno) in Hn. discriminate. }
    rewrite Hs, (cut_lines_first_line l rest Hl) in Hn, Hq |- *. cbn [fst snd] in *.
    cbn [forallb] in Hq. apply andb_true_iff in Hq as [Hq1 Hq]. apply negb_true_iff in Hq1.
    cbn [List.length] in Hn. injection Hn as Hn.
    destruct (line_collectMessage_line w l rest Hwf Hs Hl)
      as (w1 & Hcm & Hwf1 & Hpeek1 & Hsent1 & (Hi1 & He1 & Hn1 & Hd1)).
    assert (Hpm : LineEcho.processMessage (l ++ [LF]) w1
                  = (Returned tt, set_sent (sent w1 ++ [echo_reply (l ++ [LF])]) w1)).
    { apply line_processMessage_echo; [congruence | congruence | congruence | exact Hq1]. }
    set (w2 := set_sent _ w1) in Hpm.
    destruct (IH fuel w2) as (w' & Hs' & Hwf' & Herr' & Hd' & Hpeek' & Hsent' & Hi' & Hn');
      try (unfold w2; cbn [buf set_sent conn_err conn_ended destroyed]; rewrite ?Hpeek1;
           congruence).
    exists w'. change (S n + fuel)%nat with (S (n + fuel)). cbn [LineEcho.serve_loop].
    rewrite (bind_step _ _ _ _ _ Hcm). rewrite (bind_step _ _ _ _ _ Hpm).
    unfold w2 in *. cbn [buf set_sent sent incoming conn_ended] in *.
    rewrite Hpeek1 in *.
    split; [exact Hs' | split; [exact Hwf' | split; [exact Herr' | split; [exact Hd' | ]]]].
    split; [exact Hpeek' | split; [ | split; congruence]].
    rewrite Hsent', Hsent1. cbn [map]. rewrite <- app_assoc. reflexivity.
Qed.

Lemma line_socketRead_live (w : World) :
  destroyed w = false -> LineEcho.socketRead w = socketRead w.
Proof. intros Hd. unfold LineEcho.socketRead. rewrite Hd. reflexivity. Qed.

(** The serve loop over the chunks still to come; the buffer holds the
    beginning of a line. *)
Lemma line_serve_loop_chunks (chunks : list Buffer) :
  forall (fuel : nat) (w : World),
    buf_wf (buf w) -> no_LF (peek (buf w)) = true ->
    conn_err w = None -> conn_ended w = false -> destroyed w = false ->
    incoming w = map EvData chunks ++ [EvEnd] ->
    forallb not_empty chunks = true ->
    forallb (fun l => negb (is_quit l))
      (fst (cut_lines (peek (buf w) ++ List.concat chunks))) = true ->
    (List.length chunks
     + List.length (fst (cut_lines (peek (buf w) ++ List.concat chunks))) < fuel)%nat ->
    exists w',
      LineEcho.serve_loop fuel w = (Returned tt, w')
      /\ sent w'
         = sent w ++ map echo_reply (fst (cut_lines (peek (buf w) ++ List.concat chunks))).
Proof.
  induction chunks as [|c chunks IH];
    intros fuel w Hwf Hno Herr Hended Hd Hinc Hne Hq Hfuel.
  - destruct fuel as [|fuel]; [lia | ].
    cbn [List.concat] in *. rewrite app_nil_r in *.
    rewrite (cut_lines_no_LF _ Hno). cbn [fst map]. rewrite app_nil_r.
    cbn [LineEcho.serve_loop].
    rewrite (bind_step _ _ _ _ _ (line_collectMessage_none w Hwf Hno)).
    assert (Hrd : LineEcho.socketRead w
                  = (Returned [], set_conn_ended true (set_incoming [] w))).
    { rewrite (line_socketRead_live w Hd). apply socketRead_end; assumption. }
    rewrite (bind_step _ _ _ _ _ Hrd).
    eexists. split; [reflexivity | reflexivity].
  - destruct fuel as [|fuel]; [lia | ].
    cbn [forallb] in Hne. apply andb_true_iff in Hne as [Hc Hne].
    cbn [map app] in Hinc. cbn [List.concat] in Hq, Hfuel |- *.
    rewrite app_assoc in Hq, Hfuel |- *.
    rewrite cut_lines_app in Hq, Hfuel |- *. cbn [fst snd] in Hq, Hfuel |- *.
    rewrite forallb_app in Hq. apply andb_true_iff in Hq as [Hq1 Hq2].
    rewrite length_app in Hfuel. cbn [List.length] in Hfuel.
    cbn [LineEcho.serve_loop].
    rewrite (bind_step _ _ _ _ _ (line_collectMessage_none w Hwf Hno)).
    assert (Hrd : LineEcho.socketRead w
                  = (Returned c, set_incoming (map EvData chunks ++ [EvEnd]) w)).
    { rewrite (line_socketRead_live w Hd). apply socketRead_data; assumption. }
    rewrite (bind_step _ _ _ _ _ Hrd).
    set (w1 := set_incoming _ w).
    unfold bind at 1, modify_buf at 1.
    set (w2 := set_buf (bufferPush (buf w1) c) w1).
    assert (Hpos : (blen c =? 0) = false).
    { apply Z.eqb_neq. destruct c; [discriminate | unfold blen; cbn; lia]. }
    rewrite Hpos.
    destruct (bufferPush_spec (buf w) c Hwf) as (B1 & B2 & _).
    assert (Hwf2 : buf_wf (buf w2)) by exact B1.
    assert (Hpeek2 : peek (buf w2) = peek (buf w) ++ c) by exact B2.
    set (n := List.length (fst (cut_lines (peek (buf w) ++ c)))) in *.
    destruct (line_serve_loop_buffered n (fuel - n) w2)
      as (w3 & Hs3 & Hwf3 & Herr3 & Hd3 & Hpeek3 & Hsent3 & Hinc3 & Hended3);
      [rewrite Hpeek2; reflexivity | exact Hwf2 | exact Herr | exact Hended | exact Hd
       | rewrite Hpeek2; exact Hq1 | ].
    replace (n + (fuel - n))%nat with fuel in Hs3 by lia.
    rewrite Hpeek2 in Hpeek3, Hsent3.
    destruct (IH (fuel - n)%nat w3) as (w' & Hs' & Hsent');
      [exact Hwf3 | rewrite Hpeek3; apply cut_lines_tail_no_LF | exact Herr3
       | rewrite Hended3; exact Hended | exact Hd3 | rewrite Hinc3; reflexivity
       | exact Hne | rewrite Hpeek3; exact Hq2 | rewrite Hpeek3; lia | ].
    exists w'. split; [rewrite Hs3; exact Hs' | ].
    rewrite Hsent', Hsent3, Hpeek3, map_app, <- app_assoc. reflexivity.
Qed.

(** X11.  The line echo server reassembles lines across chunks: however
    the stream is cut into non-empty chunks, when it ends the server has
    answered every complete line of the stream, in order, with "Echo: "
    and the line, provided no line is "quit"; bytes after the last LF are
    dropped without an answer. *)
Theorem line_echo_server_answers_lines (chunks : list Buffer) (fuel : nat) :
  forallb not_empty chunks = true ->
  forallb (fun l => negb (is_quit l)) (fst (cut_lines (List.concat chunks))) = true ->
  (List.length chunks + List.length (fst (cut_lines (List.concat chunks))) < fuel)%nat ->
  exists w',
    LineEcho.serveClient fuel (newConn (map EvData chunks ++ [EvEnd])) = (Returned tt, w')
    /\ sent w' = map echo_reply (fst (cut_lines (List.concat chunks))).
Proof.
  intros Hne Hq Hfuel.
  apply (line_serve_loop_chunks chunks fuel (newConn (map EvData chunks ++ [EvEnd])));
    try reflexivity; try assumption.
  exact emptyDynamicBuf_wf.
Qed.

Lemma line_echo_server_answers_lines_witness :
  forallb not_empty ex_line_chunks = true
  /\ forallb (fun l => negb (is_quit l)) (fst (cut_lines (List.concat ex_line_chunks))) = true
  /\ (List.length ex_line_chunks
      + List.length (fst (cut_lines (List.concat ex_line_chunks))) < 6)%nat
  /\ exists w',
       LineEcho.serveClient 6 (newConn (map EvData ex_line_chunks ++ [EvEnd]))
       = (Returned tt, w')
       /\ sent w' = [bytes "Echo: hello" ++ [LF]; bytes "Echo: world" ++ [LF]].
Proof.
  assert (H1 : forallb not_empty ex_line_chunks = true) by reflexivity.
  assert (H2 : forallb (fun l => negb (is_quit l))
                 (fst (cut_lines (List.concat ex_line_chunks))) = true) by reflexivity.
  assert (H3 : (List.length ex_line_chunks
                + List.length (fst (cut_lines (List.concat ex_line_chunks))) < 6)%nat)
    by (cbn; lia).
  split; [exact H1 | split; [exact H2 | split; [exact H3 | ]]].
  exact (line_echo_server_answers_lines ex_line_chunks 6 H1 H2 H3).
Defined.

(** ** Requests cut into chunks *)

Lemma starts_with_app_left (needle hay x : list ascii) :
  JS.starts_with needle hay = true -> JS.starts_with needle (hay ++ x) = true.
Proof.
  revert hay; induction needle as [|n ns IH]; intros hay H; [reflexivity | ].
  destruct hay as [|h hs]; [discriminate | ].
  cbn in H |- *. apply andb_true_iff in H as [H1 H2].
  rewrite H1, (IH hs H2). reflexivity.
Qed.

Lemma occurs_at_app_left (needle s x : list ascii) (j : Z) :
  needle <> [] ->
  occurs_at needle s j = true -> occurs_at needle (s ++ x) j = true.
Proof.
  intros Hne H. pose proof (occurs_at_fits _ _ _ Hne H) as [Hj Hfit].
  unfold occurs_at in *. apply andb_true_iff in H as [H1 H2]. rewrite H1. cbn [andb].
  rewrite skipn_app.
  apply starts_with_app_left with (x := skipn (Z.to_nat j - List.length s) x) in H2.
  exact H2.
Qed.

(** The header block of a plain GET request has its only terminator at
    its end, whatever follows. *)
Lemma get_request_first_end (target : JsString * JsString) (y : Buffer) (j : Z) :
  plain_get target = true ->
  0 <= j < blen (get_request target) - 4 ->
  occurs_at header_end (get_request target ++ y) j = false.
Proof.
  intros Hplain Hj. destruct target as [uri version].
  unfold plain_get in Hplain. cbn [fst snd] in Hplain.
  apply andb_true_iff in Hplain as [Hplain _].
  apply andb_true_iff in Hplain as [Hplain _].
  apply andb_true_iff in Hplain as [Hu Hv].
  set (start := (bytes "GET" ++ bytes " " ++ uri ++ bytes " " ++ version) : Buffer).
  assert (Hblock : get_request (uri, version) = terminated_lines [start] ++ CRLF).
  { unfold get_request, request_header. cbn [fst snd app]. fold start.
    unfold terminated_lines. cbn [map List.concat]. rewrite !app_nil_r. reflexivity. }
  assert (Hline : forallb is_line [start] = true).
  { cbn [forallb]. rewrite andb_true_r. unfold start.
    change (bytes "GET" ++ bytes " " ++ uri ++ bytes " " ++ version)
      with ("G"%char :: (bytes "ET" ++ bytes " " ++ uri ++ bytes " " ++ version)).
    cbn [is_line].
    change ("G"%char :: (bytes "ET" ++ bytes " " ++ uri ++ bytes " " ++ version))
      with (bytes "GET" ++ bytes " " ++ uri ++ bytes " " ++ version).
    rewrite !no_line_break_app, (is_token_no_line_break _ Hu),
      (is_token_no_line_break _ Hv). reflexivity. }
  assert (Hk : JS.indexOf (get_request (uri, version) ++ y) header_end 0
               = blen (get_request (uri, version)) - 4).
  { rewrite indexOf_from_0, Hblock, <- app_assoc.
    rewrite (indexOf_at_block_end start [] y Hline).
    rewrite blen_app. change (blen CRLF) with 2. lia. }
  destruct (indexOf_spec (get_request (uri, version) ++ y) header_end 0)
    as [[Hr _] | (_ & _ & Hfirst)]; [discriminate | lia | | ].
  - rewrite Hk in Hr. lia.
  - apply Hfirst. rewrite Hk. lia.
Qed.

(** A proper beginning of a plain GET request holds no terminator. *)
Lemma request_prefix_no_header_end (target : JsString * JsString) (s x y : Buffer) :
  plain_get target = true ->
  s ++ x = get_request target ++ y ->
  blen s < blen (get_request target) ->
  no_header_end s.
Proof.
  intros Hplain Heq Hlt j.
  destruct (occurs_at header_end s j) eqn:E; [ | reflexivity].
  exfalso.
  assert (Hne : header_end <> []) by discriminate.
  pose proof (occurs_at_fits _ _ _ Hne E) as [Hj Hfit].
  change (blen header_end) with 4 in Hfit.
  pose proof (occurs_at_app_left header_end s x j Hne E) as Hx.
  rewrite Heq in Hx.
  rewrite (get_request_first_end target y j Hplain) in Hx; [discriminate | lia].
Qed.

Lemma app_eq_app_prefix {A : Type} (a b c d : list A) :
  a ++ b = c ++ d -> (List.length c <= List.length a)%nat ->
  exists a', a = c ++ a' /\ d = a' ++ b.
Proof.
  revert c; induction a as [|x a IH]; intros c H Hlen.
  - destruct c; [ | cbn in Hlen; lia]. exists []. split; [reflexivity | exact (eq_sym H)].
  - destruct c as [|y c].
    + exists (x :: a). split; [reflexivity | exact (eq_sym H)].
    + cbn in H. injection H as Hxy H. subst y.
      destruct (IH c H) as (a' & Ha & Hd); [cbn in Hlen; lia | ].
      exists a'. split; [rewrite Ha; reflexivity | exact Hd].
Qed.

(** The bytes received so far are some complete requests followed by a
    proper beginning of the next one. *)
Lemma received_requests (targets : list (JsString * JsString)) :
  forall s rest : Buffer,
    forallb short_plain_get targets = true ->
    s ++ rest = List.concat (map get_request targets) ->
    exists (done todo : list (JsString * JsString)) (p : Buffer),
      targets = done ++ todo
      /\ s = List.concat (map get_request done) ++ p
      /\ p ++ rest = List.concat (map get_request todo)
      /\ no_header_end p /\ blen p < kMaxHeaderLen.
Proof.
  induction targets as [|t targets IH]; intros s rest Hall Heq.
  - cbn in Heq. apply app_eq_nil in Heq as [Hs Hr]. subst.
    exists [], [], []. repeat split; try reflexivity. exact no_header_end_nil.
  - cbn [forallb] in Hall. apply andb_true_iff in Hall as [Ht Hall].
    unfold short_plain_get in Ht. apply andb_true_iff in Ht as [Hplain Hshort].
    apply Z.leb_le in Hshort.
    cbn [map List.concat] in Heq.
    destruct (Z_lt_le_dec (blen s) (blen (get_request t))) as [Hlt | Hge].
    + exists [], (t :: targets), s.
      split; [reflexivity | split; [reflexivity | split; [exact Heq | split; [ | lia]]]].
      exact (request_prefix_no_header_end t s rest _ Hplain Heq Hlt).
    + destruct (app_eq_app_prefix s rest (get_request t) _ Heq) as (s' & Hs & Hrest);
        [unfold blen in Hge; lia | ].
      destruct (IH s' rest Hall (eq_sym Hrest)) as (done & todo & p & H1 & H2 & H3 & H4 & H5).
      exists (t :: done), todo, p.
      split; [rewrite H1; reflexivity | ].
      split; [rewrite Hs, H2; cbn [map List.concat]; rewrite <- app_assoc; reflexivity | ].
      split; [exact H3 | split; [exact H4 | exact H5]].
Qed.

Lemma short_plain_get_plain (targets : list (JsString * JsString)) :
  forallb short_plain_get targets = true -> forallb plain_get targets = true.
Proof.
  induction targets as [|t targets IH]; [reflexivity | ].
  cbn [forallb]. intros H. apply andb_true_iff in H as [Ht H].
  unfold short_plain_get in Ht. apply andb_true_iff in Ht as [Ht _].
  rewrite Ht, (IH H). reflexivity.
Qed.

Lemma get_request_has_end (target : JsString * JsString) (y : Buffer) :
  plain_get target = true -> ~ no_header_end (get_request target ++ y).
Proof.
  intros Hplain Hno. destruct target as [uri version].
  set (start := (bytes "GET" ++ bytes " " ++ uri ++ bytes " " ++ version) : Buffer).
  assert (Hblock : get_request (uri, version) ++ y = start ++ header_end ++ y).
  { unfold get_request, request_header. cbn [fst snd app]. fold start.
    unfold terminated_lines. cbn [map List.concat]. rewrite !app_nil_r.
    rewrite <- !app_assoc. reflexivity. }
  pose proof (Hno (blen start)) as Hend. rewrite Hblock in Hend.
  unfold occurs_at in Hend. pose proof (blen_nonneg start) as Hs.
  replace (0 <=? blen start) with true in Hend by (symmetry; apply Z.leb_le; exact Hs).
  cbn [andb] in Hend.
  replace (Z.to_nat (blen start)) with (List.length start) in Hend
    by (unfold blen; rewrite Nat2Z.id; reflexivity).
  rewrite skipn_app, skipn_all, Nat.sub_diag in Hend. cbn [app skipn] in Hend.
  rewrite (starts_with_app_self header_end y) in Hend. discriminate Hend.
Qed.

(** The serve loop answers the complete requests in the buffer and stops
    before the beginning of the next one. *)
Lemma serve_loop_requests (done : list (JsString * JsString)) :
  forall (fuel : nat) (w : World) (p : Buffer),
    buf_wf (buf w) -> conn_err w = None -> conn_ended w = false -> destroyed w = false ->
    peek (buf w) = List.concat (map get_request done) ++ p ->
    forallb plain_get done = true ->
    (2 <= fuel)%nat ->
    exists w',
      serve_loop (List.length done + fuel) w = serve_loop fuel w'
      /\ buf_wf (buf w') /\ conn_err w' = None
      /\ peek (buf w') = p
      /\ sent w' = sent w ++ hello_responses done
      /\ incoming w' = incoming w /\ conn_ended w' = conn_ended w
      /\ destroyed w' = destroyed w.
Proof.
  induction done as [|t done IH]; intros fuel w p Hwf Herr Hended Hdest Hpeek Hall Hfuel.
  - exists w. cbn [map List.concat app] in Hpeek. unfold hello_responses.
    cbn [map List.concat List.length Nat.add]. rewrite app_nil_r.
    split; [reflexivity | ]. split; [exact Hwf | ]. split; [exact Herr | ].
    split; [exact Hpeek | ]. split; [reflexivity | ]. split; [reflexivity | ].
    split; reflexivity.
  - cbn [forallb] in Hall. apply andb_true_iff in Hall as [Ht Hall].
    cbn [map List.concat] in Hpeek. rewrite <- app_assoc in Hpeek.
    change (List.length (t :: done) + fuel)%nat with (S (List.length done + fuel)).
    destruct (serve_loop_plain_get (List.length done + fuel) w t _ Hwf Herr Hended Hdest
                Hpeek Ht)
      as (w1 & Hstep & Hwf1 & Herr1 & Hpeek1 & Hsent1 & Hinc1 & Hended1 & Hdest1); [lia | ].
    assert (Hended1' : conn_ended w1 = false) by congruence.
    assert (Hdest1' : destroyed w1 = false) by congruence.
    destruct (IH fuel w1 p Hwf1 Herr1 Hended1' Hdest1' Hpeek1 Hall Hfuel)
      as (w' & Hs & Hwf' & Herr' & Hpeek' & Hsent' & Hinc' & Hended' & Hdest').
    exists w'. split; [rewrite Hstep; exact Hs | ].
    split; [exact Hwf' | split; [exact Herr' | split; [exact Hpeek' | ]]].
    split; [ | split; [congruence | split; congruence]].
    rewrite Hsent', Hsent1. unfold hello_responses. cbn [map List.concat].
    rewrite <- app_assoc. reflexivity.
Qed.

Lemma serve_loop_stream_end (fuel : nat) (w : World) (fin : StreamEnd)
    (rest : list SockEvent) :
  buf_wf (buf w) -> peek (buf w) = [] ->
  conn_err w = None -> conn_ended w = false -> incoming w = end_event fin :: rest ->
  (1 <= fuel)%nat ->
  exists w', serve_loop fuel w = (end_outcome fin, w') /\ sent w' = sent w.
Proof.
  intros Hwf Hpeek Herr Hended Hinc Hfuel. destruct fin as [|e].
  - exact (serve_loop_clean_close fuel w rest Hwf Hpeek Herr Hended Hinc Hfuel).
  - destruct fuel as [|fuel]; [lia | ].
    assert (Hlen : buf_length (buf w) = 0).
    { rewrite <- (peek_blen _ Hwf), Hpeek. reflexivity. }
    assert (Hcm : collectMessage w = (Returned None, w)).
    { rewrite collectMessage_no_terminator;
        [ | exact Hwf | rewrite Hpeek; exact no_header_end_nil].
      rewrite Hlen. reflexivity. }
    rewrite serve_loop_S. rewrite (bind_step _ _ _ _ _ Hcm).
    unfold bind at 1. cbn [end_event] in Hinc.
    rewrite (socketRead_error w e rest Herr Hended Hinc).
    eexists. split; [reflexivity | reflexivity].
Qed.

Lemma serve_loop_chunked (chunks : list Buffer) (fin : StreamEnd) :
  forall (fuel : nat) (w : World) (targets : list (JsString * JsString)),
    buf_wf (buf w) ->
    no_header_end (peek (buf w)) -> blen (peek (buf w)) < kMaxHeaderLen ->
    peek (buf w) ++ List.concat chunks = List.concat (map get_request targets) ->
    conn_err w = None -> conn_ended w = false -> destroyed w = false ->
    incoming w = map EvData chunks ++ [end_event fin] ->
    forallb not_empty chunks = true ->
    forallb short_plain_get targets = true ->
    (List.length chunks + List.length targets + 2 < fuel)%nat ->
    exists w',
      serve_loop fuel w = (end_outcome fin, w')
      /\ sent w' = sent w ++ hello_responses targets.
Proof.
  induction chunks as [|c chunks IH];
    intros fuel w targets Hwf Hno Hshort Heq Herr Hended Hdest Hinc Hne Hall Hfuel.
  - cbn [List.concat] in Heq. rewrite app_nil_r in Heq.
    destruct targets as [|t targets].
    + destruct (serve_loop_stream_end fuel w fin [] Hwf Heq Herr Hended Hinc)
        as (w' & Hs & Hsent); [lia | ].
      exists w'. split; [exact Hs | ]. unfold hello_responses. cbn. rewrite app_nil_r.
      exact Hsent.
    + exfalso. cbn [map List.concat] in Heq. rewrite Heq in Hno.
      cbn [forallb] in Hall. apply andb_true_iff in Hall as [Ht _].
      unfold short_plain_get in Ht. apply andb_true_iff in Ht as [Ht _].
      exact (get_request_has_end t _ Ht Hno).
  - destruct fuel as [|fuel]; [lia | ].
    cbn [forallb] in Hne. apply andb_true_iff in Hne as [Hc Hne].
    cbn [map app] in Hinc. cbn [List.concat] in Heq. cbn [List.length] in Hfuel.
    assert (Hlen : buf_length (buf w) < kMaxHeaderLen)
      by (rewrite <- (peek_blen _ Hwf); exact Hshort).
    assert (Hcm : collectMessage w = (Returned None, w)).
    { rewrite collectMessage_no_terminator; [ | exact Hwf | exact Hno].
      replace (kMaxHeaderLen <=? buf_length (buf w)) with false
        by (symmetry; apply Z.leb_gt; exact Hlen).
      reflexivity. }
    rewrite serve_loop_S. rewrite (bind_step _ _ _ _ _ Hcm).
    rewrite (bind_step _ _ _ _ _ (socketRead_data w c _ Herr Hended Hinc)).
    set (w1 := set_incoming _ w).
    unfold bind at 1, modify_buf at 1. unfold bind at 1, get_buf at 1. cbn [buf set_buf].
    assert (Hpos : (blen c =? 0) = false).
    { apply Z.eqb_neq. destruct c; [discriminate | unfold blen; cbn; lia]. }
    rewrite Hpos. cbn [andb].
    change (buf w1) with (buf w).
    destruct (bufferPush_spec (buf w) c Hwf) as (B1 & B2 & _).
    set (w2 := set_buf (bufferPush (buf w) c) w1).
    rewrite app_assoc in Heq.
    destruct (received_requests targets (peek (buf w) ++ c) (List.concat chunks) Hall Heq)
      as (done & todo & p & Ht & Hs & Hp & Hnop & Hshortp).
    assert (Hall' : forallb short_plain_get done = true /\ forallb short_plain_get todo = true).
    { rewrite Ht, forallb_app in Hall. apply andb_true_iff in Hall. exact Hall. }
    destruct Hall' as [Hdone Htodo].
    assert (Hlt : List.length targets = (List.length done + List.length todo)%nat)
      by (rewrite Ht, length_app; reflexivity).
    replace fuel with (List.length done + (fuel - List.length done))%nat by lia.
    destruct (serve_loop_requests done (fuel - List.length done) w2 p)
      as (w3 & Hs3 & Hwf3 & Herr3 & Hpeek3 & Hsent3 & Hinc3 & Hended3 & Hdest3);
      [exact B1 | exact Herr | exact Hended | exact Hdest
       | unfold w2; cbn [buf set_buf]; rewrite B2; exact Hs
       | apply short_plain_get_plain; exact Hdone | lia | ].
    destruct (IH (fuel - List.length done)%nat w3 todo) as (w' & Hs' & Hsent');
      [exact Hwf3 | rewrite Hpeek3; exact Hnop | rewrite Hpeek3; exact Hshortp
       | rewrite Hpeek3; exact Hp | exact Herr3 | rewrite Hended3; exact Hended
       | rewrite Hdest3; exact Hdest
       | rewrite Hinc3; reflexivity | exact Hne | exact Htodo | lia | ].
    exists w'. split; [rewrite Hs3; exact Hs' | ].
    rewrite Hsent', Hsent3, Ht. unfold hello_responses.
    rewrite map_app, concat_app, <- app_assoc. reflexivity.
Qed.

(** X12.  The server reassembles requests: however a run of plain GET
    requests that fit the header limit is cut into non-empty chunks, when
    the stream ends [serveClient] has written the default answer once per
    request and returns. *)
Theorem serveClient_chunked_gets (chunks : list Buffer)
    (targets : list (JsString * JsString)) (fuel : nat) :
  List.concat chunks = List.concat (map get_request targets) ->
  forallb not_empty chunks = true ->
  forallb short_plain_get targets = true ->
  (List.length chunks + List.length targets + 2 < fuel)%nat ->
  exists w',
    serveClient fuel (newConn (map EvData chunks ++ [EvEnd])) = (Returned tt, w')
    /\ sent w' = hello_responses targets.
Proof.
  intros Heq Hne Hall Hfuel.
  apply (serve_loop_chunked chunks Ends fuel (newConn (map EvData chunks ++ [EvEnd])) targets);
    try reflexivity; try assumption.
  - exact emptyDynamicBuf_wf.
  - exact no_header_end_nil.
Qed.

Lemma serveClient_chunked_gets_witness :
  List.concat ex_request_chunks = List.concat (map get_request ex_targets)
  /\ forallb not_empty ex_request_chunks = true
  /\ forallb short_plain_get ex_targets = true
  /\ (List.length ex_request_chunks + List.length ex_targets + 2 < 8)%nat
  /\ exists w',
       serveClient 8 (newConn (map EvData ex_request_chunks ++ [EvEnd])) = (Returned tt, w')
       /\ sent w' = hello_responses ex_targets.
Proof.
  assert (H1 : List.concat ex_request_chunks = List.concat (map get_request ex_targets))
    by reflexivity.
  assert (H2 : forallb not_empty ex_request_chunks = true) by reflexivity.
  assert (H3 : forallb short_plain_get ex_targets = true) by reflexivity.
  assert (H4 : (List.length ex_request_chunks + List.length ex_targets + 2 < 8)%nat)
    by (cbn; lia).
  split; [exact H1 | split; [exact H2 | split; [exact H3 | split; [exact H4 | ]]]].
  exact (serveClient_chunked_gets ex_request_chunks ex_targets 8 H1 H2 H3 H4).
Defined.

(** X13.  A socket error between two requests closes the connection
    without an error response: the answers to the requests received so far
    are all that has been written, and the socket is destroyed. *)
Theorem handleNewConn_socket_error (chunks : list Buffer)
    (targets : list (JsString * JsString)) (err : JsString) (fuel : nat) :
  List.concat chunks = List.concat (map get_request targets) ->
  forallb not_empty chunks = true ->
  forallb short_plain_get targets = true ->
  (List.length chunks + List.length targets + 2 < fuel)%nat ->
  exists w',
    handleNewConn fuel (newConn (map EvData chunks ++ [EvError err])) = (Returned tt, w')
    /\ sent w' = hello_responses targets
    /\ destroyed w' = true.
Proof.
  intros Heq Hne Hall Hfuel.
  set (w0 := newConn (map EvData chunks ++ [EvError err])).
  destruct (serve_loop_chunked chunks (Fails err) fuel w0 targets) as (w' & Hs & Hsent);
    try reflexivity; try assumption.
  - exact emptyDynamicBuf_wf.
  - exact no_header_end_nil.
  - assert (Hsc : serveClient fuel w0 = (Thrown (Error err), w')) by exact Hs.
    unfold handleNewConn. rewrite Hsc.
    eexists. split; [reflexivity | ]. split; [exact Hsent | reflexivity].
Qed.

Lemma handleNewConn_socket_error_witness :
  List.concat ex_request_chunks = List.concat (map get_request ex_targets)
  /\ forallb not_empty ex_request_chunks = true
  /\ forallb short_plain_get ex_targets = true
  /\ (List.length ex_request_chunks + List.length ex_targets + 2 < 8)%nat
  /\ exists w',
       handleNewConn 8 (newConn (map EvData ex_request_chunks ++ [EvError (bytes "ECONNRESET")]))
       = (Returned tt, w')
       /\ sent w' = hello_responses ex_targets
       /\ destroyed w' = true.
Proof.
  assert (H1 : List.concat ex_request_chunks = List.concat (map get_request ex_targets))
    by reflexivity.
  assert (H2 : forallb not_empty ex_request_chunks = true) by reflexivity.
  assert (H3 : forallb short_plain_get ex_targets = true) by reflexivity.
  assert (H4 : (List.length ex_request_chunks + List.length ex_targets + 2 < 8)%nat)
    by (cbn; lia).
  split; [exact H1 | split; [exact H2 | split; [exact H3 | split; [exact H4 | ]]]].
  exact (handleNewConn_socket_error ex_request_chunks ex_targets (bytes "ECONNRESET") 8
           H1 H2 H3 H4).
Defined.

(** ** Requests that are refused *)

Lemma is_line_no_line_break (headers : list Buffer) :
  forallb is_line headers = true -> forallb no_line_break headers = true.
Proof.
  induction headers as [|h hs IH]; [reflexivity | ].
  cbn [forallb]. intros H. apply andb_true_iff in H as [Hh H].
  apply andb_true_iff. split; [destruct h; [discriminate | exact Hh] | exact (IH H)].
Qed.

Lemma start_line_is_line (method uri version : JsString) :
  is_token method = true -> is_token uri = true -> is_token version = true ->
  is_line (method ++ bytes " " ++ uri ++ bytes " " ++ version) = true.
Proof.
  intros Hm Hu Hv.
  assert (Hnb : no_line_break (method ++ bytes " " ++ uri ++ bytes " " ++ version) = true).
  { rewrite !no_line_break_app, (is_token_no_line_break _ Hm),
      (is_token_no_line_break _ Hu), (is_token_no_line_break _ Hv). reflexivity. }
  destruct (method ++ bytes " " ++ uri ++ bytes " " ++ version) as [|c s] eqn:E;
    [ | exact Hnb].
  change (bytes " ") with [" "%char] in E.
  apply app_eq_nil in E as [_ E]. discriminate.
Qed.

(** Where the header block of a request ends in the buffer. *)
Lemma header_block_index (method uri version : JsString) (headers : list Buffer)
    (rest : Buffer) :
  is_token method = true -> is_token uri = true -> is_token version = true ->
  forallb is_line headers = true ->
  JS.indexOf (request_header method uri version headers ++ rest) header_end 0
  = blen (request_header method uri version headers) - 4
  /\ 4 <= blen (request_header method uri version headers).
Proof.
  intros Hm Hu Hv Hls.
  set (start := (method ++ bytes " " ++ uri ++ bytes " " ++ version) : Buffer).
  set (block := request_header method uri version headers).
  assert (Hblock : block = terminated_lines (start :: headers) ++ CRLF).
  { unfold block, request_header. fold start. unfold terminated_lines.
    change (start :: headers ++ [[]]) with ((start :: headers) ++ [[]]).
    rewrite map_app, concat_app. reflexivity. }
  assert (Hlines : forallb is_line (start :: headers) = true).
  { cbn [forallb]. apply andb_true_iff. split; [ | exact Hls].
    exact (start_line_is_line method uri version Hm Hu Hv). }
  assert (Hblen : 4 <= blen block).
  { rewrite Hblock. unfold terminated_lines. cbn [map List.concat].
    rewrite !blen_app. change (blen CRLF) with 2.
    pose proof (blen_nonneg start).
    pose proof (blen_nonneg (List.concat (map (fun l : list ascii => l ++ CRLF) headers))).
    lia. }
  split; [ | exact Hblen].
  rewrite indexOf_from_0, Hblock, <- app_assoc.
  rewrite (indexOf_at_block_end start headers rest Hlines).
  rewrite blen_app. change (blen CRLF) with 2. lia.
Qed.

(** [collectMessage] hands the first header block of the buffer to the
    parser. *)
Lemma collectMessage_header_block (w : World) (method uri version : JsString)
    (headers : list Buffer) (rest : Buffer) :
  buf_wf (buf w) ->
  peek (buf w) = request_header method uri version headers ++ rest ->
  is_token method = true -> is_token uri = true -> is_token version = true ->
  forallb is_line headers = true ->
  collectMessage w
  = match parseHTTPReq (request_header method uri version headers) with
    | Throw e => (Thrown e, w)
    | Ok (req, ok) =>
        (Returned (Some req),
         set_buf (bufferPop (buf w) (blen (request_header method uri version headers)))
           (snd (console_assert ok "parseHTTPReq: the header ends on an empty line" w)))
    end.
Proof.
  intros Hwf Hpeek Hm Hu Hv Hls.
  set (block := request_header method uri version headers) in *.
  destruct (header_block_index method uri version headers rest Hm Hu Hv Hls) as [Hk Hblen].
  fold block in Hk, Hblen. rewrite <- Hpeek in Hk.
  destruct (collectMessage_at_index w (blen block - 4) Hwf Hk) as [Hfit Hcm]; [lia | ].
  replace (blen block - 4 + 4) with (blen block) in * by lia.
  assert (Hfirst : firstn (Z.to_nat (blen block)) (peek (buf w)) = block).
  { rewrite Hpeek. unfold blen. rewrite Nat2Z.id, firstn_app, firstn_all, Nat.sub_diag.
    cbn. apply app_nil_r. }
  rewrite Hfirst in Hcm. exact Hcm.
Qed.

Lemma parseHTTPReq_lines (method uri version : JsString) (headers : list Buffer) :
  is_token method = true -> is_token uri = true -> is_token version = true ->
  forallb no_line_break headers = true ->
  parseHTTPReq (request_header method uri version headers)
  = match collect_headers headers [] with
    | Throw e => Throw e
    | Ok hs =>
        Ok ({| req_method := method; req_uri := uri;
               req_version := Some version; req_headers := hs |}, true)
    end.
Proof.
  intros Hm Hu Hv Hnb.
  set (start := method ++ bytes " " ++ uri ++ bytes " " ++ version).
  assert (Hstart : no_line_break start = true).
  { unfold start. rewrite !no_line_break_app.
    rewrite (is_token_no_line_break _ Hm), (is_token_no_line_break _ Hu),
      (is_token_no_line_break _ Hv). reflexivity. }
  assert (Hlines : splitLines (request_header method uri version headers)
                   = start :: headers ++ [[]]).
  { unfold request_header. fold start.
    rewrite <- (app_nil_r (terminated_lines _)).
    rewrite splitLines_joined_lines; [apply app_nil_r | | reflexivity].
    change (forallb no_line_break (start :: headers ++ [[]]))
      with (no_line_break start && forallb no_line_break (headers ++ [[]])).
    rewrite Hstart, forallb_app.
    apply andb_true_iff; split; [reflexivity | ].
    apply andb_true_iff; split; [exact Hnb | reflexivity]. }
  unfold parseHTTPReq. rewrite Hlines.
  unfold start at 1. rewrite parseRequestLine_three_tokens by assumption.
  rewrite index_range_interior.
  destruct (collect_headers headers []) as [hs | e]; [ | reflexivity].
  f_equal. f_equal.
  unfold last_line_is_empty.
  change (start :: headers ++ [[]]) with ((start :: headers) ++ [[]]).
  rewrite last_last. reflexivity.
Qed.

Lemma serve_loop_first_chunk (fuel : nat) (d : Buffer) (events : list SockEvent) :
  d <> [] ->
  exists w,
    serveClient (S fuel) (newConn (EvData d :: events)) = serve_loop fuel w
    /\ buf_wf (buf w) /\ peek (buf w) = d
    /\ conn_err w = None /\ conn_ended w = false /\ incoming w = events
    /\ sent w = [] /\ readers w = [] /\ destroyed w = false.
Proof.
  intros Hd.
  set (w0 := newConn (EvData d :: events)).
  assert (Hsc : serveClient (S fuel) w0 = serve_loop (S fuel) w0) by reflexivity.
  rewrite Hsc.
  assert (Hcm : collectMessage w0 = (Returned None, w0)).
  { rewrite collectMessage_no_terminator;
      [reflexivity | exact emptyDynamicBuf_wf | exact no_header_end_nil]. }
  rewrite serve_loop_S.
  rewrite (bind_step _ _ _ _ _ Hcm).
  rewrite (bind_step _ _ _ _ _ (socketRead_data w0 d events eq_refl eq_refl eq_refl)).
  set (w1 := set_incoming events w0).
  unfold bind at 1, modify_buf at 1. unfold bind at 1, get_buf at 1. cbn [buf set_buf].
  change (buf w1) with emptyDynamicBuf.
  destruct (bufferPush_spec emptyDynamicBuf d emptyDynamicBuf_wf) as (B1 & B2 & _).
  change (peek emptyDynamicBuf) with (@nil ascii) in B2. cbn [app] in B2.
  assert (Hne : (blen d =? 0) = false).
  { apply Z.eqb_neq. destruct d; [congruence | unfold blen; cbn [List.length]; lia]. }
  rewrite Hne. cbn [andb].
  exists (set_buf (bufferPush emptyDynamicBuf d) w1).
  split; [reflexivity | ]. split; [exact B1 | ]. split; [exact B2 | ].
  repeat split.
Qed.

Lemma request_header_not_nil (method uri version : JsString) (headers : list Buffer)
    (rest : Buffer) :
  request_header method uri version headers ++ rest <> [].
Proof.
  unfold request_header, terminated_lines. cbn [map List.concat].
  rewrite <- !app_assoc. change (bytes " ") with [" "%char].
  intros H. apply app_eq_nil in H as [_ H]. discriminate H.
Qed.

(** X14.  A request whose header block is ASCII text and has a header
    field that does not validate is refused: the server answers 400 "Bad
    field." and destroys the socket, whatever follows the header block. *)
Theorem handleNewConn_bad_field (method uri version : JsString) (headers : list Buffer)
    (rest : Buffer) (events : list SockEvent) (fuel : nat) :
  ascii_only (request_header method uri version headers) = true ->
  is_token method = true -> is_token uri = true -> is_token version = true ->
  forallb is_line headers = true ->
  forallb validateHeader headers = false ->
  (3 <= fuel)%nat ->
  exists w',
    handleNewConn fuel
      (newConn (EvData (request_header method uri version headers ++ rest) :: events))
    = (Returned tt, w')
    /\ sent w' = error_response 400 (bytes "Bad field.")
    /\ destroyed w' = true.
Proof.
  intros _ Hm Hu Hv Hls Hbad Hfuel.
  destruct fuel as [|[|fuel]]; try lia.
  destruct (serve_loop_first_chunk (S fuel) _ events
              (request_header_not_nil method uri version headers rest))
    as (w & Hs & Hwf & Hpeek & Herr & Hended & _ & Hsent & _ & Hdest).
  assert (Hcm : collectMessage w = (Thrown (HTTPError 400 (bytes "Bad field.")), w)).
  { rewrite (collectMessage_header_block w method uri version headers rest
               Hwf Hpeek Hm Hu Hv Hls).
    rewrite (parseHTTPReq_lines method uri version headers Hm Hu Hv
               (is_line_no_line_break headers Hls)).
    rewrite collect_headers_spec, Hbad. reflexivity. }
  assert (Hthrown : serveClient (S (S fuel))
                      (newConn (EvData (request_header method uri version headers ++ rest)
                                  :: events))
                    = (Thrown (HTTPError 400 (bytes "Bad field.")), w)).
  { rewrite Hs, serve_loop_S. unfold bind at 1. rewrite Hcm. reflexivity. }
  destruct (handleNewConn_answers_error _ _ w _ _ Hthrown Herr Hended Hdest)
    as (w' & H1 & H2 & H3); [lia | ].
  exists w'. rewrite H2, Hsent. repeat split; assumption.
Qed.

Lemma handleNewConn_bad_field_witness :
  ascii_only (request_header (bytes "GET") (bytes "/") (bytes "HTTP/1.1")
                [bytes "Host: a"; bytes "Bad Name: x"]) = true
  /\ is_token (bytes "GET") = true /\ is_token (bytes "/") = true
  /\ is_token (bytes "HTTP/1.1") = true
  /\ forallb is_line [bytes "Host: a"; bytes "Bad Name: x"] = true
  /\ forallb validateHeader [bytes "Host: a"; bytes "Bad Name: x"] = false
  /\ (3 <= 4)%nat
  /\ exists w',
       handleNewConn 4
         (newConn (EvData (request_header (bytes "GET") (bytes "/") (bytes "HTTP/1.1")
                             [bytes "Host: a"; bytes "Bad Name: x"] ++ bytes "tail")
                     :: [EvEnd]))
       = (Returned tt, w')
       /\ sent w' = error_response 400 (bytes "Bad field.")
       /\ destroyed w' = true.
Proof.
  assert (H0 : ascii_only (request_header (bytes "GET") (bytes "/") (bytes "HTTP/1.1")
                             [bytes "Host: a"; bytes "Bad Name: x"]) = true)
    by reflexivity.
  assert (H1 : is_token (bytes "GET") = true) by reflexivity.
  assert (H2 : is_token (bytes "/") = true) by reflexivity.
  assert (H3 : is_token (bytes "HTTP/1.1") = true) by reflexivity.
  assert (H4 : forallb is_line [bytes "Host: a"; bytes "Bad Name: x"] = true) by reflexivity.
  assert (H5 : forallb validateHeader [bytes "Host: a"; bytes "Bad Name: x"] = false)
    by reflexivity.
  assert (H6 : (3 <= 4)%nat) by lia.
  split; [exact H0 | ].
  split; [exact H1 | split; [exact H2 | split; [exact H3 | split; [exact H4 | ]]]].
  split; [exact H5 | split; [exact H6 | ]].
  exact (handleNewConn_bad_field (bytes "GET") (bytes "/") (bytes "HTTP/1.1")
           [bytes "Host: a"; bytes "Bad Name: x"] (bytes "tail") [EvEnd] 4
           H0 H1 H2 H3 H4 H5 H6).
Defined.

(** ** Echoing a request body *)

(** A read that takes everything the buffer holds. *)
Lemma connLength_take_all (w : World) (id : nat) (remaining : Z) (st : ReaderState) :
  nth_error (readers w) id = Some st ->
  buf_wf (buf w) -> buf_length (buf w) <= remaining ->
  exists w',
    (b <- get_buf ;;
     let howMuchToConsume := Z.min (buf_length b) remaining in
     set_reader_state id (ConnLengthReader (remaining - howMuchToConsume)) ;;;
     let data := Buf.subarray (buf_data b) 0 howMuchToConsume in
     modify_buf (fun b => bufferPop b howMuchToConsume) ;;;
     ret data) w
    = (Returned (peek (buf w)), w')
    /\ nth_error (readers w') id = Some (ConnLengthReader (remaining - buf_length (buf w)))
    /\ buf_wf (buf w') /\ peek (buf w') = []
    /\ sent w' = sent w /\ same_socket w w'.
Proof.
  intros Hst Hwf Hrem.
  set (n := Z.min (buf_length (buf w)) remaining).
  assert (Hmin : n = buf_length (buf w)) by (unfold n; lia).
  assert (Hn : 0 <= buf_length (buf w) <= buf_length (buf w))
    by (unfold buf_wf in Hwf; lia).
  destruct (bufferPop_spec (buf w) (buf_length (buf w)) Hwf Hn) as (P1 & P2 & P3).
  exists (set_buf (bufferPop (buf w) n)
            (set_readers (firstn id (readers w) ++ [ConnLengthReader (remaining - n)]
                            ++ skipn (S id) (readers w)) w)).
  split; [ | split; [ | split; [ | split; [ | split]]]].
  - unfold bind, get_buf, set_reader_state, modify_buf, ret. cbn. fold n.
    rewrite Hmin. reflexivity.
  - cbn [readers set_buf set_readers]. rewrite Hmin.
    apply nth_error_set_reader with (st := st). exact Hst.
  - cbn [buf set_buf]. rewrite Hmin. exact P1.
  - cbn [buf set_buf]. rewrite Hmin, P2. rewrite <- (peek_blen _ Hwf). unfold blen.
    rewrite Nat2Z.id. apply skipn_all.
  - reflexivity.
  - repeat split.
Qed.

(** A read on an empty buffer hands over the next chunk when the body
    still has that many bytes to come. *)
Lemma read_connLength_chunk (w : World) (r : BodyReader) (remaining : Z) (c : Buffer)
    (rest : list SockEvent) :
  reader_state w r = Some (ConnLengthReader remaining) ->
  buf_wf (buf w) -> peek (buf w) = [] ->
  conn_err w = None -> conn_ended w = false -> incoming w = EvData c :: rest ->
  c <> [] -> blen c <= remaining ->
  exists w',
    read r w = (Returned c, w')
    /\ reader_state w' r = Some (ConnLengthReader (remaining - blen c))
    /\ buf_wf (buf w') /\ peek (buf w') = []
    /\ sent w' = sent w /\ incoming w' = rest
    /\ conn_err w' = None /\ conn_ended w' = false /\ destroyed w' = destroyed w.
Proof.
  intros Hst Hwf Hpeek Herr Hended Hinc Hc Hle.
  assert (Hpos : 0 < blen c).
  { destruct c; [congruence | unfold blen; cbn [List.length]; lia]. }
  assert (Hlen : buf_length (buf w) = 0).
  { rewrite <- (peek_blen _ Hwf), Hpeek. reflexivity. }
  unfold reader_state in Hst. unfold read. rewrite Hst. unfold connLength_read.
  replace (remaining =? 0) with false by (symmetry; apply Z.eqb_neq; lia).
  unfold bind at 1, get_buf at 1. rewrite Hlen. change (0 =? 0) with true. cbv iota.
  set (w1 := set_incoming rest w).
  set (w2 := set_buf (bufferPush (buf w) c) w1).
  assert (Hfill : ((data <- socketRead ;;
                    modify_buf (fun b => bufferPush b data) ;;;
                    (if blen data =? 0
                     then throw (Error (bytes "Unexpected EOF from HTTP body"))
                     else ret tt)) w) = (Returned tt, w2)).
  { rewrite (bind_step _ _ _ _ _ (socketRead_data w c rest Herr Hended Hinc)).
    unfold bind, modify_buf.
    replace (blen c =? 0) with false by (symmetry; apply Z.eqb_neq; lia).
    reflexivity. }
  rewrite (bind_step _ _ _ _ _ Hfill).
  destruct (bufferPush_spec (buf w) c Hwf) as (B1 & B2 & _).
  rewrite Hpeek in B2. cbn [app] in B2.
  assert (Hwf2 : buf_wf (buf w2)) by exact B1.
  assert (Hlen2 : buf_length (buf w2) = blen c).
  { rewrite <- (peek_blen _ Hwf2). unfold w2. cbn [buf set_buf]. rewrite B2. reflexivity. }
  assert (Hst2 : nth_error (readers w2) (reader_id r) = Some (ConnLengthReader remaining))
    by exact Hst.
  destruct (connLength_take_all w2 (reader_id r) remaining _ Hst2 Hwf2)
    as (w' & Hrd & T1 & T2 & T3 & T4 & (T5 & T6 & T7 & T8)); [lia | ].
  exists w'. split.
  - transitivity (Returned (peek (buf w2)), w'); [exact Hrd | ].
    unfold w2 at 1. cbn [buf set_buf]. rewrite B2. reflexivity.
  - unfold reader_state. rewrite T1, Hlen2.
    split; [reflexivity | ]. split; [exact T2 | ]. split; [exact T3 | ].
    split; [rewrite T4; reflexivity | ]. split; [rewrite T5; reflexivity | ].
    split; [rewrite T6; exact Herr | ]. split; [rewrite T7; exact Hended | ].
    rewrite T8. reflexivity.
Qed.

(** A read on a buffer that holds no more than the body still needs hands
    over the buffer. *)
Lemma read_connLength_buffered (w : World) (r : BodyReader) (remaining : Z) :
  reader_state w r = Some (ConnLengthReader remaining) ->
  buf_wf (buf w) -> peek (buf w) <> [] -> blen (peek (buf w)) <= remaining ->
  exists w',
    read r w = (Returned (peek (buf w)), w')
    /\ reader_state w' r = Some (ConnLengthReader (remaining - blen (peek (buf w))))
    /\ buf_wf (buf w') /\ peek (buf w') = []
    /\ sent w' = sent w /\ same_socket w w'.
Proof.
  intros Hst Hwf Hne Hle.
  pose proof (peek_blen _ Hwf) as Hlen.
  assert (Hpos : 0 < blen (peek (buf w))).
  { destruct (peek (buf w)); [congruence | unfold blen; cbn [List.length]; lia]. }
  unfold reader_state in Hst. unfold read. rewrite Hst. unfold connLength_read.
  replace (remaining =? 0) with false by (symmetry; apply Z.eqb_neq; lia).
  unfold bind at 1, get_buf at 1.
  replace (buf_length (buf w) =? 0) with false by (symmetry; apply Z.eqb_neq; lia).
  rewrite (bind_step _ _ w w tt) by reflexivity.
  destruct (connLength_take_all w (reader_id r) remaining _ Hst Hwf)
    as (w' & Hrd & T1 & T2 & T3 & T4 & T5); [lia | ].
  exists w'. split; [cbv beta; exact Hrd | ]. unfold reader_state. rewrite T1, Hlen.
  split; [reflexivity | ]. split; [exact T2 | ]. split; [exact T3 | ].
  split; [exact T4 | exact T5].
Qed.

Lemma not_empty_blen (c : Buffer) : not_empty c = true -> c <> [] /\ 0 < blen c.
Proof.
  destruct c; [discriminate | ]. intros _.
  split; [discriminate | unfold blen; cbn [List.length]; lia].
Qed.

(** The body loop of [writeHTTPRes] on a fixed-length reader: it forwards
    the chunks as they come, one round each, as long as the body needs
    them in full. *)
Lemma write_body_forward_chunks (r : BodyReader) (events : list SockEvent)
    (chunks : list Buffer) :
  forall (fuel : nat) (w : World) (remaining : Z),
    reader_state w r = Some (ConnLengthReader remaining) ->
    buf_wf (buf w) -> peek (buf w) = [] ->
    conn_err w = None -> conn_ended w = false -> destroyed w = false ->
    incoming w = map EvData chunks ++ events ->
    forallb not_empty chunks = true ->
    blen (List.concat chunks) <= remaining ->
    exists w',
      write_body (List.length chunks + fuel) r w = write_body fuel r w'
      /\ sent w' = sent w ++ chunks
      /\ reader_state w' r = Some (ConnLengthReader (remaining - blen (List.concat chunks)))
      /\ buf_wf (buf w') /\ peek (buf w') = []
      /\ incoming w' = events
      /\ conn_err w' = None /\ conn_ended w' = false /\ destroyed w' = destroyed w.
Proof.
  induction chunks as [|c chunks IH];
    intros fuel w remaining Hst Hwf Hpeek Herr Hended Hdest Hinc Hne Hlen.
  - exists w. cbn [List.concat List.length Nat.add]. change (blen []) with 0.
    rewrite app_nil_r, Z.sub_0_r.
    split; [reflexivity | ]. split; [reflexivity | ]. split; [exact Hst | ].
    split; [exact Hwf | ]. split; [exact Hpeek | ]. split; [exact Hinc | ].
    split; [exact Herr | ]. split; [exact Hended | reflexivity].
  - cbn [forallb] in Hne. apply andb_true_iff in Hne as [Hc Hne].
    destruct (not_empty_blen c Hc) as [Hcne Hcpos].
    cbn [List.concat] in Hlen |- *. rewrite blen_app in Hlen |- *.
    pose proof (blen_nonneg (List.concat chunks)) as Hrest.
    cbn [map app] in Hinc.
    destruct (read_connLength_chunk w r remaining c _ Hst Hwf Hpeek Herr Hended Hinc Hcne)
      as (w1 & Hrd & S1 & S2 & S3 & S4 & S5 & S6 & S7 & S8); [lia | ].
    cbn [List.length Nat.add write_body]. rewrite (bind_step _ _ _ _ _ Hrd).
    replace (blen c =? 0) with false by (symmetry; apply Z.eqb_neq; lia).
    assert (Hdest1 : destroyed w1 = false) by congruence.
    rewrite (bind_step _ _ _ _ _ (socketWrite_ok w1 c S6 S7 Hdest1 Hcpos)).
    set (w2 := set_sent (sent w1 ++ [c]) w1).
    destruct (IH fuel w2 (remaining - blen c))
      as (w' & Hwb & R1 & R2 & R3 & R4 & R5 & R6 & R7 & R8);
      try assumption; [lia | ].
    exists w'. split; [exact Hwb | ].
    split; [rewrite R1; unfold w2; cbn [sent set_sent]; rewrite S4, <- app_assoc; reflexivity | ].
    split; [rewrite R2; f_equal; f_equal; lia | ].
    split; [exact R3 | ]. split; [exact R4 | ]. split; [exact R5 | ].
    split; [exact R6 | ]. split; [exact R7 | ]. rewrite R8. exact S8.
Qed.

Lemma filter_not_empty (chunks : list Buffer) :
  forallb not_empty chunks = true -> filter not_empty chunks = chunks.
Proof.
  induction chunks as [|c chunks IH]; [reflexivity | ].
  cbn [forallb filter]. intros H. apply andb_true_iff in H as [Hc H].
  rewrite Hc, (IH H). reflexivity.
Qed.

(** The same when the first bytes of the body are in the buffer: they go
    out first, in a round of their own. *)
Lemma write_body_forward (r : BodyReader) (events : list SockEvent) (p : Buffer)
    (chunks : list Buffer) (fuel : nat) (w : World) (remaining : Z) :
  reader_state w r = Some (ConnLengthReader remaining) ->
  buf_wf (buf w) -> peek (buf w) = p ->
  conn_err w = None -> conn_ended w = false -> destroyed w = false ->
  incoming w = map EvData chunks ++ events ->
  forallb not_empty chunks = true ->
  blen (p ++ List.concat chunks) <= remaining ->
  exists w',
    write_body (List.length (filter not_empty (p :: chunks)) + fuel) r w
    = write_body fuel r w'
    /\ sent w' = sent w ++ filter not_empty (p :: chunks)
    /\ reader_state w' r
       = Some (ConnLengthReader (remaining - blen (p ++ List.concat chunks)))
    /\ buf_wf (buf w') /\ peek (buf w') = []
    /\ incoming w' = events
    /\ conn_err w' = None /\ conn_ended w' = false /\ destroyed w' = destroyed w.
Proof.
  intros Hst Hwf Hpeek Herr Hended Hdest Hinc Hne Hlen.
  cbn [filter]. rewrite (filter_not_empty chunks Hne). rewrite blen_app in Hlen |- *.
  pose proof (blen_nonneg (List.concat chunks)) as Hrest.
  destruct p as [|c0 p].
  - cbn [not_empty]. change (blen []) with 0 in Hlen |- *.
    replace (remaining - (0 + blen (List.concat chunks)))
      with (remaining - blen (List.concat chunks)) by lia.
    apply (write_body_forward_chunks r events chunks fuel w remaining);
      try assumption; lia.
  - cbn [not_empty].
    assert (Hpne : peek (buf w) <> []) by (rewrite Hpeek; discriminate).
    destruct (read_connLength_buffered w r _ Hst Hwf Hpne)
      as (w1 & Hrd & S1 & S2 & S3 & S4 & (S5 & S6 & S7 & S8)); [rewrite Hpeek; lia | ].
    rewrite Hpeek in Hrd, S1.
    assert (Hpos : 0 < blen (c0 :: p)) by (unfold blen; cbn [List.length]; lia).
    cbn [List.length Nat.add write_body]. rewrite (bind_step _ _ _ _ _ Hrd).
    replace (blen (c0 :: p) =? 0) with false by (symmetry; apply Z.eqb_neq; lia).
    assert (Herr1 : conn_err w1 = None) by congruence.
    assert (Hended1 : conn_ended w1 = false) by congruence.
    assert (Hdest1 : destroyed w1 = false) by congruence.
    rewrite (bind_step _ _ _ _ _ (socketWrite_ok w1 (c0 :: p) Herr1 Hended1 Hdest1 Hpos)).
    set (w2 := set_sent (sent w1 ++ [c0 :: p]) w1).
    assert (Hst2 : reader_state w2 r = Some (ConnLengthReader (remaining - blen (c0 :: p))))
      by exact S1.
    assert (Hinc2 : incoming w2 = map EvData chunks ++ events)
      by (unfold w2; cbn [incoming set_sent]; congruence).
    assert (Hlen2 : blen (List.concat chunks) <= remaining - blen (c0 :: p)) by lia.
    destruct (write_body_forward_chunks r events chunks fuel w2 (remaining - blen (c0 :: p))
                Hst2 S2 S3 Herr1 Hended1 Hdest1 Hinc2 Hne Hlen2)
      as (w' & Hwb & R1 & R2 & R3 & R4 & R5 & R6 & R7 & R8).
    exists w'. split; [exact Hwb | ].
    split; [rewrite R1; unfold w2; cbn [sent set_sent]; rewrite S4, <- app_assoc;
            reflexivity | ].
    split; [rewrite R2; f_equal; f_equal; lia | ].
    split; [exact R3 | ]. split; [exact R4 | ]. split; [exact R5 | ].
    split; [exact R6 | ]. split; [exact R7 | ]. rewrite R8. exact S8.
Qed.

Lemma filter_not_empty_length (p : Buffer) (chunks : list Buffer) :
  (List.length (filter not_empty (p :: chunks)) <= List.length chunks + 1)%nat.
Proof.
  pose proof (filter_length_le not_empty (p :: chunks)) as H.
  cbn [List.length] in H. lia.
Qed.

(** The body loop when the bytes in the buffer and the chunks to come make
    up the body exactly. *)
Lemma write_body_echo (r : BodyReader) (events : list SockEvent) (p : Buffer)
    (chunks : list Buffer) (fuel : nat) (w : World) :
  reader_state w r = Some (ConnLengthReader (blen (p ++ List.concat chunks))) ->
  buf_wf (buf w) -> peek (buf w) = p ->
  conn_err w = None -> conn_ended w = false -> destroyed w = false ->
  incoming w = map EvData chunks ++ events ->
  forallb not_empty chunks = true ->
  (List.length chunks + 1 < fuel)%nat ->
  exists w',
    write_body fuel r w = (Returned tt, w')
    /\ sent w' = sent w ++ filter not_empty (p :: chunks)
    /\ reader_state w' r = Some (ConnLengthReader 0)
    /\ buf_wf (buf w') /\ peek (buf w') = []
    /\ incoming w' = events
    /\ conn_err w' = None /\ conn_ended w' = false /\ destroyed w' = destroyed w.
Proof.
  intros Hst Hwf Hpeek Herr Hended Hdest Hinc Hne Hfuel.
  pose proof (filter_not_empty_length p chunks) as Hk.
  set (k := List.length (filter not_empty (p :: chunks))) in *.
  destruct (write_body_forward r events p chunks (fuel - k) w _
              Hst Hwf Hpeek Herr Hended Hdest Hinc Hne (Z.le_refl _))
    as (w' & Hwb & R1 & R2 & R3 & R4 & R5 & R6 & R7 & R8).
  fold k in Hwb. replace (k + (fuel - k))%nat with fuel in Hwb by lia.
  rewrite Z.sub_diag in R2.
  exists w'. split.
  - rewrite Hwb. destruct (fuel - k)%nat as [|f] eqn:E; [lia | ].
    cbn [write_body]. rewrite (bind_step _ _ _ _ _ (read_connLength_zero w' r R2)).
    reflexivity.
  - split; [exact R1 | ]. split; [exact R2 | ]. split; [exact R3 | ].
    split; [exact R4 | ]. split; [exact R5 | ]. split; [exact R6 | ].
    split; [exact R7 | exact R8].
Qed.

(** The body loop when the stream ends before the body is complete. *)
Lemma write_body_short (r : BodyReader) (events : list SockEvent) (p : Buffer)
    (chunks : list Buffer) (fuel : nat) (w : World) (remaining : Z) :
  reader_state w r = Some (ConnLengthReader remaining) ->
  buf_wf (buf w) -> peek (buf w) = p ->
  conn_err w = None -> conn_ended w = false -> destroyed w = false ->
  incoming w = map EvData chunks ++ EvEnd :: events ->
  forallb not_empty chunks = true ->
  blen (p ++ List.concat chunks) < remaining ->
  (List.length chunks + 1 < fuel)%nat ->
  exists w',
    write_body fuel r w = (Thrown (Error (bytes "Unexpected EOF from HTTP body")), w')
    /\ sent w' = sent w ++ filter not_empty (p :: chunks)
    /\ conn_err w' = None /\ destroyed w' = destroyed w.
Proof.
  intros Hst Hwf Hpeek Herr Hended Hdest Hinc Hne Hlen Hfuel.
  pose proof (filter_not_empty_length p chunks) as Hk.
  set (k := List.length (filter not_empty (p :: chunks))) in *.
  destruct (write_body_forward r (EvEnd :: events) p chunks (fuel - k) w remaining
              Hst Hwf Hpeek Herr Hended Hdest Hinc Hne)
    as (w' & Hwb & R1 & R2 & R3 & R4 & R5 & R6 & R7 & R8); [lia | ].
  fold k in Hwb. replace (k + (fuel - k))%nat with fuel in Hwb by lia.
  set (missing := remaining - blen (p ++ List.concat chunks)) in *.
  assert (Hlen' : buf_length (buf w') = 0).
  { rewrite <- (peek_blen _ R3), R4. reflexivity. }
  assert (Hrd : exists w'',
             read r w' = (Thrown (Error (bytes "Unexpected EOF from HTTP body")), w'')
             /\ sent w'' = sent w' /\ conn_err w'' = None
             /\ destroyed w'' = destroyed w').
  { unfold reader_state in R2. unfold read. rewrite R2. unfold connLength_read.
    replace (missing =? 0) with false by (symmetry; apply Z.eqb_neq; unfold missing; lia).
    unfold bind at 1, get_buf at 1. rewrite Hlen'. change (0 =? 0) with true. cbv iota.
    unfold bind at 1. unfold bind at 1.
    rewrite (socketRead_end w' events R6 R7 R5).
    unfold bind at 1, modify_buf at 1. change (blen [] =? 0) with true. cbv iota.
    unfold throw. eexists. split; [reflexivity | ].
    cbn [sent conn_err destroyed set_buf set_conn_ended set_incoming].
    split; [reflexivity | ]. split; [exact R6 | reflexivity]. }
  destruct Hrd as (w'' & Hrd & E1 & E2 & E3).
  exists w''. split.
  - rewrite Hwb. destruct (fuel - k)%nat as [|f] eqn:E; [lia | ].
    cbn [write_body]. unfold bind at 1. rewrite Hrd. reflexivity.
  - split; [rewrite E1; exact R1 | ]. split; [exact E2 | ]. rewrite E3. exact R8.
Qed.

(** [writeHTTPRes] up to its body loop. *)
Lemma writeHTTPRes_header (fuel : nat) (w : World) (sc : Z) (hs : list Buffer)
    (r : BodyReader) (found : option Buffer) :
  conn_err w = None -> conn_ended w = false -> destroyed w = false ->
  0 <= reader_length r ->
  getField hs (bytes "Content-Length") = Ok found ->
  let res' := {| res_statusCode := sc;
                 res_headers := hs ++ [content_length_line (reader_length r)];
                 res_body := r |} in
  exists w1 header,
    encodeHTTPRes res' = Ok header
    /\ writeHTTPRes fuel {| res_statusCode := sc; res_headers := hs; res_body := r |} w
       = (write_body fuel r ;;; ret res') w1
    /\ sent w1 = sent w ++ [header]
    /\ buf w1 = buf w /\ readers w1 = readers w /\ same_socket w w1.
Proof.
  intros Herr Hended Hdest Hlen Hfound res'.
  destruct (encodeHTTPRes_snoc sc hs (content_length_line (reader_length r)) r)
    as (header & Henc & Hpos).
  unfold writeHTTPRes. cbn [res_body res_headers res_statusCode].
  destruct (reader_length r <? 0) eqn:E; [apply Z.ltb_lt in E; lia | ].
  rewrite Hfound.
  rewrite (bind_step _ _ w w found) by reflexivity.
  destruct (console_assert_frame (is_none found) "writeHTTPRes: Content-Length not set" w)
    as (w1 & Hca & C1 & C2 & C3 & (C4 & C5 & C6 & C7)).
  rewrite (bind_step _ _ _ _ _ Hca).
  cbv beta zeta. fold (content_length_line (reader_length r)).
  cbn [res_body res_headers res_statusCode].
  fold res'. fold res' in Henc.
  assert (Hl : lift (encodeHTTPRes res') w1 = (Returned header, w1))
    by (rewrite Henc; reflexivity).
  rewrite (bind_step _ _ _ _ _ Hl).
  assert (Hw : socketWrite header w1 = (Returned tt, set_sent (sent w1 ++ [header]) w1))
    by (apply socketWrite_ok; [congruence | congruence | congruence | exact Hpos]).
  rewrite (bind_step _ _ _ _ _ Hw).
  exists (set_sent (sent w1 ++ [header]) w1), header.
  split; [exact Henc | ]. split; [reflexivity | ].
  cbn [sent buf readers set_sent].
  split; [rewrite C1; reflexivity | ]. split; [exact C2 | ]. split; [exact C3 | ].
  unfold same_socket. cbn [incoming conn_err conn_ended destroyed set_sent].
  repeat split; assumption.
Qed.

(** The serve loop on an "/echo" request, up to the body loop of the
    answer: the header of the answer is out and announces the length the
    request declared. *)
Lemma serve_loop_echo_header (fuel : nat) (w : World) (method version : JsString)
    (headers : list Buffer) (v : Buffer) (te : option Buffer) (n : Z) (b0 : Buffer) :
  buf_wf (buf w) -> conn_err w = None -> conn_ended w = false -> destroyed w = false ->
  peek (buf w) = echo_request method version headers ++ b0 ->
  is_token method = true -> is_token version = true ->
  JS.str_eqb method (bytes "GET") || JS.str_eqb method (bytes "HEAD") = false ->
  forallb no_line_break headers = true ->
  forallb validateHeader headers = true ->
  getField headers (bytes "Content-Length") = Ok (Some v) ->
  getField headers (bytes "Transfer-Encoding") = Ok te ->
  JS.parseInt v = Some n -> 0 <= n ->
  exists w' reqBody,
    serve_loop (S fuel) w
    = (write_body fuel reqBody ;;;
       if JS.str_eqb version (bytes "1.0") then ret tt
       else drain fuel reqBody ;;; serve_loop fuel) w'
    /\ reader_state w' reqBody = Some (ConnLengthReader n)
    /\ buf_wf (buf w') /\ peek (buf w') = b0
    /\ sent w' = sent w ++ [ok_header n]
    /\ same_socket w w'.
Proof.
  intros Hwf Herr Hended Hdest Hpeek Hm Hv Hmeth Hnb Hval Hcl Hte Hlen Hn.
  set (msg := {| req_method := method; req_uri := bytes "/echo";
                 req_version := Some version; req_headers := headers |}).
  destruct (collectMessage_request_header w method (bytes "/echo") version headers b0
              Hwf Hpeek Hm eq_refl Hv Hnb Hval)
    as (w1 & Hcm & Hwf1 & Hpeek1 & Hsent1 & Hrs1 & (Hi1 & He1 & Hn1 & Hd1)).
  fold msg in Hcm.
  (* the request body reader *)
  set (reqBody := {| reader_length := n; reader_id := List.length (readers w1) |}).
  set (w2 := set_readers (readers w1 ++ [ConnLengthReader n]) w1).
  assert (Hrd : readerFromReq msg w1 = (Returned reqBody, w2)).
  { rewrite (readerFromReq_selection msg w1 (Some v) te n Hcl Hte Hlen).
    unfold no_body_method. cbn [req_method msg]. rewrite Hmeth.
    replace (0 <=? n) with true by (symmetry; apply Z.leb_le; exact Hn).
    reflexivity. }
  (* the response echoes the request body *)
  set (res := {| res_statusCode := 200;
                 res_headers := [bytes "Server: my_first_http_server"];
                 res_body := reqBody |}).
  assert (Hh : handleReq msg reqBody w2 = (Returned res, w2)) by reflexivity.
  assert (Herr2 : conn_err w2 = None) by (unfold w2; cbn [conn_err set_readers]; congruence).
  assert (Hended2 : conn_ended w2 = false)
    by (unfold w2; cbn [conn_ended set_readers]; congruence).
  assert (Hdest2 : destroyed w2 = false)
    by (unfold w2; cbn [destroyed set_readers]; congruence).
  destruct (writeHTTPRes_header fuel w2 200 [bytes "Server: my_first_http_server"]
              reqBody None Herr2 Hended2 Hdest2 Hn eq_refl)
    as (w3 & header & Henc & Hwr & Hsent3 & Hbuf3 & Hrs3 & (Hi3 & He3 & Hn3 & Hd3)).
  assert (Hheader : header = ok_header n).
  { assert (Hc : Ok header = Ok (ok_header n)).
    { rewrite <- Henc. cbn [app reader_length reqBody]. rewrite encodeHTTPRes_joined.
      cbn [JS.join]. unfold ok_header. rewrite <- !app_assoc. reflexivity. }
    injection Hc as Hc. exact Hc. }
  subst header.
  exists w3, reqBody. split.
  - rewrite serve_loop_S.
    rewrite (bind_step _ _ _ _ _ Hcm). rewrite (bind_step _ _ _ _ _ Hrd).
    rewrite (bind_step _ _ _ _ _ Hh).
    assert (Hvi : version_is msg "1.0" = JS.str_eqb version (bytes "1.0")) by reflexivity.
    rewrite Hvi. unfold bind at 1. unfold res. rewrite Hwr.
    unfold bind. destruct (write_body fuel reqBody w3) as [[[] | e | | ] w4]; reflexivity.
  - split.
    { unfold reader_state. rewrite Hrs3. unfold w2, reqBody.
      cbn [readers set_readers reader_id].
      rewrite nth_error_app2 by lia. rewrite Nat.sub_diag. reflexivity. }
    split; [rewrite Hbuf3; exact Hwf1 | ]. split; [rewrite Hbuf3; exact Hpeek1 | ].
    split; [rewrite Hsent3; unfold w2; cbn [sent set_readers]; rewrite Hsent1; reflexivity | ].
    unfold same_socket. unfold w2 in *.
    cbn [incoming conn_err conn_ended destroyed set_readers] in *.
    repeat split; congruence.
Qed.

(** X15.  The echo round trip: for a request to "/echo" with a header
    block of ASCII text, whose method is neither GET nor HEAD and whose
    Content-Length, as [getField] and [parseInt] read it, is the length of
    the body that follows (any bytes), the server writes a header that
    announces this length and then the body, in the pieces in which it
    arrived; when the stream ends it returns. *)
Theorem serveClient_echoes_body (method version : JsString) (headers : list Buffer)
    (v : Buffer) (te : option Buffer) (b0 : Buffer) (bs : list Buffer) (fuel : nat) :
  ascii_only (echo_request method version headers) = true ->
  is_token method = true -> is_token version = true ->
  JS.str_eqb method (bytes "GET") || JS.str_eqb method (bytes "HEAD") = false ->
  forallb no_line_break headers = true ->
  forallb validateHeader headers = true ->
  getField headers (bytes "Content-Length") = Ok (Some v) ->
  getField headers (bytes "Transfer-Encoding") = Ok te ->
  JS.parseInt v = Some (blen (b0 ++ List.concat bs)) ->
  forallb not_empty bs = true ->
  (List.length bs + 3 < fuel)%nat ->
  exists w',
    serveClient fuel
      (newConn (EvData (echo_request method version headers ++ b0)
                  :: map EvData bs ++ [EvEnd]))
    = (Returned tt, w')
    /\ sent w' = ok_header (blen (b0 ++ List.concat bs)) :: filter not_empty (b0 :: bs).
Proof.
  intros _ Hm Hv Hmeth Hnb Hval Hcl Hte Hlen Hne Hfuel.
  destruct fuel as [|[|fuel]]; try lia.
  destruct (serve_loop_first_chunk (S fuel) _ (map EvData bs ++ [EvEnd])
              (request_header_not_nil method (bytes "/echo") version headers b0))
    as (w & Hs & Hwf & Hpeek & Herr & Hended & Hinc & Hsent & _ & Hdest).
  fold (echo_request method version headers) in Hs, Hpeek.
  destruct (serve_loop_echo_header fuel w method version headers v te _ b0
              Hwf Herr Hended Hdest Hpeek Hm Hv Hmeth Hnb Hval Hcl Hte Hlen (blen_nonneg _))
    as (w1 & reqBody & Hstep & Hst1 & Hwf1 & Hpeek1 & Hsent1 & (Hi1 & He1 & Hn1 & Hd1)).
  destruct (write_body_echo reqBody [EvEnd] b0 bs fuel w1 Hst1 Hwf1 Hpeek1)
    as (w2 & Hwb & R1 & R2 & R3 & R4 & R5 & R6 & R7 & R8);
    [congruence | congruence | congruence | congruence | exact Hne | lia | ].
  rewrite Hs, Hstep. rewrite (bind_step _ _ _ _ _ Hwb).
  assert (Hsent2 : sent w2
                   = ok_header (blen (b0 ++ List.concat bs)) :: filter not_empty (b0 :: bs)).
  { rewrite R1, Hsent1, Hsent. reflexivity. }
  destruct (JS.str_eqb version (bytes "1.0")).
  - exists w2. split; [reflexivity | exact Hsent2].
  - assert (Hdr : drain fuel reqBody w2 = (Returned tt, w2))
      by (apply drain_connLength_zero; [exact R2 | lia]).
    rewrite (bind_step _ _ _ _ _ Hdr).
    destruct (serve_loop_clean_close fuel w2 [] R3 R4 R6 R7 R5)
      as (w' & Hclose & Hsent'); [lia | ].
    exists w'. split; [exact Hclose | ]. rewrite Hsent'. exact Hsent2.
Qed.

Lemma serveClient_echoes_body_witness :
  ascii_only (echo_request (bytes "POST") (bytes "HTTP/1.1") ex_echo_headers) = true
  /\ is_token (bytes "POST") = true /\ is_token (bytes "HTTP/1.1") = true
  /\ JS.str_eqb (bytes "POST") (bytes "GET") || JS.str_eqb (bytes "POST") (bytes "HEAD")
     = false
  /\ forallb no_line_break ex_echo_headers = true
  /\ forallb validateHeader ex_echo_headers = true
  /\ getField ex_echo_headers (bytes "Content-Length") = Ok (Some (bytes "5"))
  /\ getField ex_echo_headers (bytes "Transfer-Encoding") = Ok None
  /\ JS.parseInt (bytes "5") = Some (blen (bytes "he" ++ List.concat [bytes "llo"]))
  /\ forallb not_empty [bytes "llo"] = true
  /\ (List.length [bytes "llo"] + 3 < 5)%nat
  /\ exists w',
       serveClient 5
         (newConn (EvData (echo_request (bytes "POST") (bytes "HTTP/1.1") ex_echo_headers
                             ++ bytes "he")
                     :: map EvData [bytes "llo"] ++ [EvEnd]))
       = (Returned tt, w')
       /\ sent w'
          = ok_header (blen (bytes "he" ++ List.concat [bytes "llo"]))
              :: filter not_empty [bytes "he"; bytes "llo"].
Proof.
  assert (H1 : is_token (bytes "POST") = true) by reflexivity.
  assert (H2 : is_token (bytes "HTTP/1.1") = true) by reflexivity.
  assert (H3 : JS.str_eqb (bytes "POST") (bytes "GET")
               || JS.str_eqb (bytes "POST") (bytes "HEAD") = false) by reflexivity.
  assert (H4 : forallb no_line_break ex_echo_headers = true) by reflexivity.
  assert (H5 : forallb validateHeader ex_echo_headers = true) by reflexivity.
  assert (H6 : getField ex_echo_headers (bytes "Content-Length") = Ok (Some (bytes "5")))
    by reflexivity.
  assert (H7 : getField ex_echo_headers (bytes "Transfer-Encoding") = Ok None)
    by reflexivity.
  assert (H8 : JS.parseInt (bytes "5") = Some (blen (bytes "he" ++ List.concat [bytes "llo"])))
    by reflexivity.
  assert (H9 : forallb not_empty [bytes "llo"] = true) by reflexivity.
  assert (H10 : (List.length [bytes "llo"] + 3 < 5)%nat) by (cbn; lia).
  assert (H0 : ascii_only (echo_request (bytes "POST") (bytes "HTTP/1.1") ex_echo_headers)
               = true) by reflexivity.
  split; [exact H0 | ].
  split; [exact H1 | split; [exact H2 | split; [exact H3 | split; [exact H4 | ]]]].
  split; [exact H5 | split; [exact H6 | split; [exact H7 | split; [exact H8 | ]]]].
  split; [exact H9 | split; [exact H10 | ]].
  exact (serveClient_echoes_body (bytes "POST") (bytes "HTTP/1.1") ex_echo_headers
           (bytes "5") None (bytes "he") [bytes "llo"] 5
           H0 H1 H2 H3 H4 H5 H6 H7 H8 H9 H10).
Defined.

(** X16.  A body that ends early: when the stream ends before the bytes
    announced by the Content-Length of an "/echo" request have arrived (the
    header block being ASCII text and the length announced at most
    [JS.MAX_SAFE_INTEGER]), the server has already written a header that
    announces the full length; it forwards what arrived, writes no error
    response, and destroys the socket. *)
Theorem handleNewConn_truncated_body (method version : JsString) (headers : list Buffer)
    (v : Buffer) (te : option Buffer) (n : Z) (b0 : Buffer) (bs : list Buffer)
    (fuel : nat) :
  ascii_only (echo_request method version headers) = true ->
  n <= JS.MAX_SAFE_INTEGER ->
  is_token method = true -> is_token version = true ->
  JS.str_eqb method (bytes "GET") || JS.str_eqb method (bytes "HEAD") = false ->
  forallb no_line_break headers = true ->
  forallb validateHeader headers = true ->
  getField headers (bytes "Content-Length") = Ok (Some v) ->
  getField headers (bytes "Transfer-Encoding") = Ok te ->
  JS.parseInt v = Some n ->
  blen (b0 ++ List.concat bs) < n ->
  forallb not_empty bs = true ->
  (List.length bs + 3 < fuel)%nat ->
  exists w',
    handleNewConn fuel
      (newConn (EvData (echo_request method version headers ++ b0)
                  :: map EvData bs ++ [EvEnd]))
    = (Returned tt, w')
    /\ sent w' = ok_header n :: filter not_empty (b0 :: bs)
    /\ destroyed w' = true.
Proof.
  intros _ _ Hm Hv Hmeth Hnb Hval Hcl Hte Hlen Hshort Hne Hfuel.
  destruct fuel as [|[|fuel]]; try lia.
  set (w0 := newConn (EvData (echo_request method version headers ++ b0)
                        :: map EvData bs ++ [EvEnd])).
  destruct (serve_loop_first_chunk (S fuel) _ (map EvData bs ++ [EvEnd])
              (request_header_not_nil method (bytes "/echo") version headers b0))
    as (w & Hs & Hwf & Hpeek & Herr & Hended & Hinc & Hsent & _ & Hdest).
  fold (echo_request method version headers) in Hs, Hpeek. fold w0 in Hs.
  pose proof (blen_nonneg (b0 ++ List.concat bs)) as Hpos.
  destruct (serve_loop_echo_header fuel w method version headers v te n b0
              Hwf Herr Hended Hdest Hpeek Hm Hv Hmeth Hnb Hval Hcl Hte Hlen)
    as (w1 & reqBody & Hstep & Hst1 & Hwf1 & Hpeek1 & Hsent1 & (Hi1 & He1 & Hn1 & Hd1));
    [lia | ].
  destruct (write_body_short reqBody [] b0 bs fuel w1 n Hst1 Hwf1 Hpeek1)
    as (w2 & Hwb & R1 & R2 & R3);
    [congruence | congruence | congruence | congruence | exact Hne | exact Hshort
     | lia | ].
  assert (Hsc : serveClient (S (S fuel)) w0
                = (Thrown (Error (bytes "Unexpected EOF from HTTP body")), w2)).
  { rewrite Hs, Hstep. unfold bind at 1. rewrite Hwb. reflexivity. }
  unfold handleNewConn. rewrite Hsc.
  eexists. split; [reflexivity | ]. cbn [sent destroyed set_destroyed].
  split; [ | reflexivity]. rewrite R1, Hsent1, Hsent. reflexivity.
Qed.

Lemma handleNewConn_truncated_body_witness :
  ascii_only (echo_request (bytes "POST") (bytes "HTTP/1.1") ex_echo_headers) = true
  /\ 5 <= JS.MAX_SAFE_INTEGER
  /\ is_token (bytes "POST") = true /\ is_token (bytes "HTTP/1.1") = true
  /\ JS.str_eqb (bytes "POST") (bytes "GET") || JS.str_eqb (bytes "POST") (bytes "HEAD")
     = false
  /\ forallb no_line_break ex_echo_headers = true
  /\ forallb validateHeader ex_echo_headers = true
  /\ getField ex_echo_headers (bytes "Content-Length") = Ok (Some (bytes "5"))
  /\ getField ex_echo_headers (bytes "Transfer-Encoding") = Ok None
  /\ JS.parseInt (bytes "5") = Some 5
  /\ blen (bytes "he" ++ List.concat [bytes "l"]) < 5
  /\ forallb not_empty [bytes "l"] = true
  /\ (List.length [bytes "l"] + 3 < 5)%nat
  /\ exists w',
       handleNewConn 5
         (newConn (EvData (echo_request (bytes "POST") (bytes "HTTP/1.1") ex_echo_headers
                             ++ bytes "he")
                     :: map EvData [bytes "l"] ++ [EvEnd]))
       = (Returned tt, w')
       /\ sent w' = ok_header 5 :: filter not_empty [bytes "he"; bytes "l"]
       /\ destroyed w' = true.
Proof.
  assert (H1 : is_token (bytes "POST") = true) by reflexivity.
  assert (H2 : is_token (bytes "HTTP/1.1") = true) by reflexivity.
  assert (H3 : JS.str_eqb (bytes "POST") (bytes "GET")
               || JS.str_eqb (bytes "POST") (bytes "HEAD") = false) by reflexivity.
  assert (H4 : forallb no_line_break ex_echo_headers = true) by reflexivity.
  assert (H5 : forallb validateHeader ex_echo_headers = true) by reflexivity.
  assert (H6 : getField ex_echo_headers (bytes "Content-Length") = Ok (Some (bytes "5")))
    by reflexivity.
  assert (H7 : getField ex_echo_headers (bytes "Transfer-Encoding") = Ok None)
    by reflexivity.
  assert (H8 : JS.parseInt (bytes "5") = Some 5) by reflexivity.
  assert (H9 : blen (bytes "he" ++ List.concat [bytes "l"]) < 5) by (vm_compute; reflexivity).
  assert (H10 : forallb not_empty [bytes "l"] = true) by reflexivity.
  assert (H11 : (List.length [bytes "l"] + 3 < 5)%nat) by (cbn; lia).
  assert (H0 : ascii_only (echo_request (bytes "POST") (bytes "HTTP/1.1") ex_echo_headers)
               = true) by reflexivity.
  assert (H0' : 5 <= JS.MAX_SAFE_INTEGER) by (vm_compute; discriminate).
  split; [exact H0 | split; [exact H0' | ]].
  split; [exact H1 | split; [exact H2 | split; [exact H3 | split; [exact H4 | ]]]].
  split; [exact H5 | split; [exact H6 | split; [exact H7 | split; [exact H8 | ]]]].
  split; [exact H9 | split; [exact H10 | split; [exact H11 | ]]].
  exact (handleNewConn_truncated_body (bytes "POST") (bytes "HTTP/1.1") ex_echo_headers
           (bytes "5") None 5 (bytes "he") [bytes "l"] 5
           H0 H0' H1 H2 H3 H4 H5 H6 H7 H8 H9 H10 H11).
Defined.

(** ** A body without a length that is found *)

(** X17.  A request with a header block of ASCII text and a method other
    than GET and HEAD, in whose header list [getField] finds no
    Content-Length, is refused with 501 "TODO:", chunked or not, and the
    socket is destroyed. *)
Theorem handleNewConn_length_required (method uri version : JsString)
    (headers : list Buffer) (te : option Buffer) (rest : Buffer)
    (events : list SockEvent) (fuel : nat) :
  ascii_only (request_header method uri version headers) = true ->
  is_token method = true -> is_token uri = true -> is_token version = true ->
  JS.str_eqb method (bytes "GET") || JS.str_eqb method (bytes "HEAD") = false ->
  forallb no_line_break headers = true ->
  forallb validateHeader headers = true ->
  getField headers (bytes "Content-Length") = Ok None ->
  getField headers (bytes "Transfer-Encoding") = Ok te ->
  (3 <= fuel)%nat ->
  exists w',
    handleNewConn fuel
      (newConn (EvData (request_header method uri version headers ++ rest) :: events))
    = (Returned tt, w')
    /\ sent w' = error_response 501 (bytes "TODO:")
    /\ destroyed w' = true.
Proof.
  intros _ Hm Hu Hv Hmeth Hnb Hval Hcl Hte Hfuel.
  destruct fuel as [|[|fuel]]; try lia.
  destruct (serve_loop_first_chunk (S fuel) _ events
              (request_header_not_nil method uri version headers rest))
    as (w & Hs & Hwf & Hpeek & Herr & Hended & _ & Hsent & _ & Hdest).
  set (msg := {| req_method := method; req_uri := uri;
                 req_version := Some version; req_headers := headers |}).
  destruct (collectMessage_request_header w method uri version headers rest
              Hwf Hpeek Hm Hu Hv Hnb Hval)
    as (w1 & Hcm & Hwf1 & Hpeek1 & Hsent1 & Hrs1 & (Hi1 & He1 & Hn1 & Hd1)).
  fold msg in Hcm.
  assert (Hrd : readerFromReq msg w1 = (Thrown (HTTPError 501 (bytes "TODO:")), w1)).
  { rewrite (readerFromReq_selection msg w1 None te (-1) Hcl Hte eq_refl).
    unfold no_body_method. cbn [req_method msg]. rewrite Hmeth. reflexivity. }
  assert (Hthrown : serveClient (S (S fuel))
                      (newConn (EvData (request_header method uri version headers ++ rest)
                                  :: events))
                    = (Thrown (HTTPError 501 (bytes "TODO:")), w1)).
  { rewrite Hs, serve_loop_S. rewrite (bind_step _ _ _ _ _ Hcm).
    unfold bind at 1. rewrite Hrd. reflexivity. }
  assert (Herr1 : conn_err w1 = None) by congruence.
  assert (Hended1 : conn_ended w1 = false) by congruence.
  assert (Hdest1 : destroyed w1 = false) by congruence.
  destruct (handleNewConn_answers_error _ _ w1 _ _ Hthrown Herr1 Hended1 Hdest1)
    as (w' & H1 & H2 & H3); [lia | ].
  exists w'. rewrite H2, Hsent1, Hsent. repeat split; assumption.
Qed.

Lemma handleNewConn_length_required_witness :
  ascii_only (request_header (bytes "POST") (bytes "/echo") (bytes "HTTP/1.1")
                [bytes "Content-Length: 5"]) = true
  /\ is_token (bytes "POST") = true /\ is_token (bytes "/echo") = true
  /\ is_token (bytes "HTTP/1.1") = true
  /\ JS.str_eqb (bytes "POST") (bytes "GET") || JS.str_eqb (bytes "POST") (bytes "HEAD")
     = false
  /\ forallb no_line_break [bytes "Content-Length: 5"] = true
  /\ forallb validateHeader [bytes "Content-Length: 5"] = true
  /\ getField [bytes "Content-Length: 5"] (bytes "Content-Length") = Ok None
  /\ getField [bytes "Content-Length: 5"] (bytes "Transfer-Encoding") = Ok None
  /\ (3 <= 3)%nat
  /\ exists w',
       handleNewConn 3
         (newConn (EvData (request_header (bytes "POST") (bytes "/echo") (bytes "HTTP/1.1")
                             [bytes "Content-Length: 5"] ++ bytes "hello")
                     :: [EvEnd]))
       = (Returned tt, w')
       /\ sent w' = error_response 501 (bytes "TODO:")
       /\ destroyed w' = true.
Proof.
  assert (H1 : is_token (bytes "POST") = true) by reflexivity.
  assert (H2 : is_token (bytes "/echo") = true) by reflexivity.
  assert (H3 : is_token (bytes "HTTP/1.1") = true) by reflexivity.
  assert (H4 : JS.str_eqb (bytes "POST") (bytes "GET")
               || JS.str_eqb (bytes "POST") (bytes "HEAD") = false) by reflexivity.
  assert (H5 : forallb no_line_break [bytes "Content-Length: 5"] = true) by reflexivity.
  assert (H6 : forallb validateHeader [bytes "Content-Length: 5"] = true) by reflexivity.
  assert (H7 : getField [bytes "Content-Length: 5"] (bytes "Content-Length") = Ok None)
    by reflexivity.
  assert (H8 : getField [bytes "Content-Length: 5"] (bytes "Transfer-Encoding") = Ok None)
    by reflexivity.
  assert (H9 : (3 <= 3)%nat) by lia.
  assert (H0 : ascii_only (request_header (bytes "POST") (bytes "/echo") (bytes "HTTP/1.1")
                             [bytes "Content-Length: 5"]) = true) by reflexivity.
  split; [exact H0 | ].
  split; [exact H1 | split; [exact H2 | split; [exact H3 | split; [exact H4 | ]]]].
  split; [exact H5 | split; [exact H6 | split; [exact H7 | split; [exact H8 | ]]]].
  split; [exact H9 | ].
  exact (handleNewConn_length_required (bytes "POST") (bytes "/echo") (bytes "HTTP/1.1")
           [bytes "Content-Length: 5"] None (bytes "hello") [EvEnd] 3
           H0 H1 H2 H3 H4 H5 H6 H7 H8 H9).
Defined.

(** ** What a header lookup returns *)

Lemma str_eqb_same (a : list ascii) : JS.str_eqb a a = true.
Proof.
  induction a as [|c a IH]; [reflexivity | ].
  cbn [JS.str_eqb]. rewrite Ascii.eqb_refl, IH. reflexivity.
Qed.

(** X18.  On ASCII text (the key, the fields before the match and the
    matching field), [getField] compares names up to case and returns the
    value only up to its first colon: for the first field between the first
    and the last entry whose name matches, the text between the first and
    the second colon of the field, trimmed. *)
Theorem getField_value_up_to_colon (first last : Buffer) (pre post : list Buffer)
    (name v rest : list ascii) (key : JsString) :
  ascii_only key = true ->
  forallb ascii_only pre = true ->
  ascii_only (name ++ bytes ":" ++ v ++ bytes ":" ++ rest) = true ->
  forallb (fun c => negb (Ascii.eqb c ":")) name = true ->
  forallb (fun c => negb (Ascii.eqb c ":")) v = true ->
  forallb (fun h => negb (name_matches key h)) pre = true ->
  JS.toLowerCase key = JS.toLowerCase (JS.trim name) ->
  getField (first :: pre ++ (name ++ bytes ":" ++ v ++ bytes ":" ++ rest) :: post ++ [last])
    key
  = Ok (Some (JS.trim v)).
Proof.
  intros _ _ _ Hname Hv Hpre Hkey.
  set (f := name ++ bytes ":" ++ v ++ bytes ":" ++ rest).
  assert (Hsplit : JS.split ":" f = name :: v :: JS.split ":" rest).
  { unfold f. change (bytes ":") with [":"%char]. cbn [app].
    rewrite (split_app_sep ":" name _ Hname), (split_app_sep ":" v _ Hv). reflexivity. }
  unfold getField.
  change (first :: pre ++ f :: post ++ [last])
    with (first :: (pre ++ f :: post ++ [last])).
  replace (pre ++ f :: post ++ [last]) with ((pre ++ f :: post) ++ [last])
    by (rewrite <- app_assoc; reflexivity).
  rewrite index_range_interior.
  transitivity (field_value f).
  - apply (getField_scan_first_match pre f post key Hpre).
    unfold name_matches. rewrite Hsplit. cbn [nth]. rewrite Hkey. apply str_eqb_same.
  - unfold field_value. rewrite Hsplit. reflexivity.
Qed.

Lemma getField_value_up_to_colon_witness :
  ascii_only (bytes "host") = true
  /\ forallb ascii_only [bytes "Accept: x"] = true
  /\ ascii_only (bytes "HOST" ++ bytes ":" ++ bytes " 127.0.0.1" ++ bytes ":" ++ bytes "1234")
     = true
  /\ forallb (fun c => negb (Ascii.eqb c ":")) (bytes "HOST") = true
  /\ forallb (fun c => negb (Ascii.eqb c ":")) (bytes " 127.0.0.1") = true
  /\ forallb (fun h => negb (name_matches (bytes "host") h)) [bytes "Accept: x"] = true
  /\ JS.toLowerCase (bytes "host") = JS.toLowerCase (JS.trim (bytes "HOST"))
  /\ getField
       (bytes "A: b"
          :: [bytes "Accept: x"]
          ++ (bytes "HOST" ++ bytes ":" ++ bytes " 127.0.0.1" ++ bytes ":" ++ bytes "1234")
          :: [] ++ [bytes "Z: y"])
       (bytes "host")
     = Ok (Some (JS.trim (bytes " 127.0.0.1"))).
Proof.
  assert (H1 : forallb (fun c => negb (Ascii.eqb c ":")) (bytes "HOST") = true)
    by reflexivity.
  assert (H2 : forallb (fun c => negb (Ascii.eqb c ":")) (bytes " 127.0.0.1") = true)
    by reflexivity.
  assert (H3 : forallb (fun h => negb (name_matches (bytes "host") h)) [bytes "Accept: x"]
               = true) by reflexivity.
  assert (H4 : JS.toLowerCase (bytes "host") = JS.toLowerCase (JS.trim (bytes "HOST")))
    by reflexivity.
  split; [reflexivity | split; [reflexivity | split; [reflexivity | ]]].
  split; [exact H1 | split; [exact H2 | split; [exact H3 | split; [exact H4 | ]]]].
  exact (getField_value_up_to_colon (bytes "A: b") (bytes "Z: y") [bytes "Accept: x"] []
           (bytes "HOST") (bytes " 127.0.0.1") (bytes "1234") (bytes "host")
           eq_refl eq_refl eq_refl H1 H2 H3 H4).
Defined.

(** ** The line "quit" *)

Lemma answers_until_quit_app_quit (pre post : list Buffer) :
  existsb is_quit pre = true ->
  answers_until_quit (pre ++ post) = answers_until_quit pre.
Proof.
  induction pre as [|l pre IH]; [discriminate | ].
  cbn [existsb app answers_until_quit]. destruct (is_quit l); [reflexivity | ].
  cbn [orb]. intros H. rewrite (IH H). reflexivity.
Qed.

Lemma answers_until_quit_app_echo (pre post : list Buffer) :
  existsb is_quit pre = false ->
  answers_until_quit (pre ++ post) = map echo_reply pre ++ answers_until_quit post.
Proof.
  induction pre as [|l pre IH]; [reflexivity | ].
  cbn [existsb app answers_until_quit map]. destruct (is_quit l); [discriminate | ].
  cbn [orb]. intros H. rewrite (IH H). reflexivity.
Qed.

Lemma existsb_false_forallb (lines : list Buffer) :
  existsb is_quit lines = false ->
  forallb (fun l => negb (is_quit l)) lines = true.
Proof.
  induction lines as [|l lines IH]; [reflexivity | ].
  cbn [existsb forallb]. destruct (is_quit l); [discriminate | ].
  cbn [orb negb andb]. exact IH.
Qed.

(** On a destroyed socket the serve loop comes to nothing more. *)
Lemma line_serve_loop_destroyed (fuel : nat) (w : World) :
  buf_wf (buf w) -> conn_err w = None -> conn_ended w = false -> destroyed w = true ->
  (1 <= fuel)%nat ->
  exists o w',
    LineEcho.serve_loop fuel w = (o, w')
    /\ stuck_or_failed o
    /\ sent w' = sent w /\ destroyed w' = true.
Proof.
  intros Hwf Herr Hended Hd Hfuel. destruct fuel as [|fuel]; [lia | ].
  cbn [LineEcho.serve_loop].
  destruct (first_LF_split (peek (buf w))) as [Hno | (l & rest & Hs & Hl)].
  - rewrite (bind_step _ _ _ _ _ (line_collectMessage_none w Hwf Hno)).
    unfold bind at 1. unfold LineEcho.socketRead. rewrite Hd, Herr, Hended. cbn.
    exists Pending, w. split; [reflexivity | ].
    split; [left; reflexivity | split; [reflexivity | exact Hd]].
  - destruct (line_collectMessage_line w l rest Hwf Hs Hl)
      as (w1 & Hcm & Hwf1 & Hpeek1 & Hsent1 & (Hi1 & He1 & Hn1 & Hd1)).
    rewrite (bind_step _ _ _ _ _ Hcm).
    assert (Hwr : forall data,
               exists w2, LineEcho.socketWrite data w1
                          = (Thrown (Error (bytes "write after destroy")), w2)
                          /\ sent w2 = sent w1 /\ destroyed w2 = destroyed w1).
    { intros data. unfold LineEcho.socketWrite. rewrite Hd1, Hd, He1, Herr. cbn [andb is_none].
      destruct (console_assert_frame (0 <? blen data) "socketWrite: data.length > 0" w1)
        as (w2 & Hca & C1 & _ & _ & (_ & _ & _ & C7)).
      rewrite Hca. cbn [snd]. exists w2.
      split; [reflexivity | split; [exact C1 | congruence]]. }
    unfold LineEcho.processMessage.
    destruct (JS.str_eqb (l ++ [LF]) (bytes "quit" ++ [LF])); unfold bind; cbv zeta;
      match goal with
      | |- context [LineEcho.socketWrite ?d w1] =>
          destruct (Hwr d) as (w2 & Hw2 & S1 & S2); rewrite Hw2
      end;
      (exists (Thrown (Error (bytes "write after destroy"))), w2;
       split; [reflexivity | ];
       split; [right; eexists; reflexivity | ];
       split; congruence).
Qed.

(** The serve loop on a buffer whose complete lines include "quit". *)
Lemma line_serve_loop_buffered_quit (lines : list Buffer) :
  forall (fuel : nat) (w : World),
    fst (cut_lines (peek (buf w))) = lines ->
    existsb is_quit lines = true ->
    buf_wf (buf w) -> conn_err w = None -> conn_ended w = false -> destroyed w = false ->
    (List.length lines + 1 <= fuel)%nat ->
    exists o w',
      LineEcho.serve_loop fuel w = (o, w')
      /\ stuck_or_failed o
      /\ sent w' = sent w ++ answers_until_quit lines
      /\ destroyed w' = true.
Proof.
  induction lines as [|l0 lines IH]; intros fuel w Hlines Hq Hwf Herr Hended Hd Hfuel;
    [discriminate | ].
  destruct (first_LF_split (peek (buf w))) as [Hno | (l & rest & Hs & Hl)].
  { rewrite (cut_lines_no_LF _ Hno) in Hlines. discriminate. }
  rewrite Hs, (cut_lines_first_line l rest Hl) in Hlines. cbn [fst] in Hlines.
  injection Hlines as Hl0 Hrest. subst l0.
  cbn [List.length] in Hfuel. destruct fuel as [|fuel]; [lia | ].
  destruct (line_collectMessage_line w l rest Hwf Hs Hl)
    as (w1 & Hcm & Hwf1 & Hpeek1 & Hsent1 & (Hi1 & He1 & Hn1 & Hd1)).
  cbn [LineEcho.serve_loop]. rewrite (bind_step _ _ _ _ _ Hcm).
  cbn [existsb answers_until_quit] in Hq |- *.
  destruct (is_quit (l ++ [LF])) eqn:Eq.
  - (* the line is "quit" *)
    assert (Hpm : LineEcho.processMessage (l ++ [LF]) w1
                  = (Returned tt, set_destroyed true (set_sent (sent w1 ++ [[LF]]) w1))).
    { unfold LineEcho.processMessage. unfold is_quit in Eq. rewrite Eq.
      assert (Hw : LineEcho.socketWrite [LF] w1
                   = (Returned tt, set_sent (sent w1 ++ [[LF]]) w1)).
      { unfold LineEcho.socketWrite. rewrite Hd1, Hd. cbn [andb].
        apply socketWrite_ok; [congruence | congruence | congruence | reflexivity]. }
      rewrite (bind_step _ _ _ _ _ Hw). reflexivity. }
    rewrite (bind_step _ _ _ _ _ Hpm).
    set (w2 := set_destroyed true _).
    destruct (line_serve_loop_destroyed fuel w2) as (o & w' & Hs' & Ho & Hsent' & Hd');
      [exact Hwf1 | unfold w2; cbn; congruence | unfold w2; cbn; congruence
       | reflexivity | lia | ].
    exists o, w'. split; [exact Hs' | ]. split; [exact Ho | ].
    split; [rewrite Hsent'; unfold w2; cbn [sent set_destroyed set_sent]; congruence
           | exact Hd'].
  - cbn [orb] in Hq.
    assert (Hpm : LineEcho.processMessage (l ++ [LF]) w1
                  = (Returned tt, set_sent (sent w1 ++ [echo_reply (l ++ [LF])]) w1)).
    { apply line_processMessage_echo; [congruence | congruence | congruence | exact Eq]. }
    rewrite (bind_step _ _ _ _ _ Hpm).
    set (w2 := set_sent _ w1).
    destruct (IH fuel w2) as (o & w' & Hs' & Ho & Hsent' & Hd');
      [unfold w2; cbn [buf set_sent]; rewrite Hpeek1; exact Hrest | exact Hq
       | exact Hwf1 | unfold w2; cbn; congruence | unfold w2; cbn; congruence
       | unfold w2; cbn; congruence | lia | ].
    exists o, w'. split; [exact Hs' | ]. split; [exact Ho | ].
    split; [ | exact Hd'].
    rewrite Hsent'. unfold w2. cbn [sent set_sent]. rewrite Hsent1, <- app_assoc.
    reflexivity.
Qed.

Lemma line_serve_loop_chunks_quit (chunks : list Buffer) (events : list SockEvent) :
  forall (fuel : nat) (w : World),
    buf_wf (buf w) -> no_LF (peek (buf w)) = true ->
    conn_err w = None -> conn_ended w = false -> destroyed w = false ->
    incoming w = map EvData chunks ++ events ->
    forallb not_empty chunks = true ->
    existsb is_quit (fst (cut_lines (peek (buf w) ++ List.concat chunks))) = true ->
    (List.length chunks
     + List.length (fst (cut_lines (peek (buf w) ++ List.concat chunks))) < fuel)%nat ->
    exists o w',
      LineEcho.serve_loop fuel w = (o, w')
      /\ stuck_or_failed o
      /\ sent w'
         = sent w
             ++ answers_until_quit (fst (cut_lines (peek (buf w) ++ List.concat chunks)))
      /\ destroyed w' = true.
Proof.
  induction chunks as [|c chunks IH];
    intros fuel w Hwf Hno Herr Hended Hd Hinc Hne Hq Hfuel.
  - cbn [List.concat] in Hq. rewrite app_nil_r in Hq.
    rewrite (cut_lines_no_LF _ Hno) in Hq. discriminate.
  - destruct fuel as [|fuel]; [lia | ].
    cbn [forallb] in Hne. apply andb_true_iff in Hne as [Hc Hne].
    cbn [map app] in Hinc. cbn [List.concat] in Hq, Hfuel |- *.
    rewrite app_assoc in Hq, Hfuel |- *.
    rewrite cut_lines_app in Hq, Hfuel |- *. cbn [fst snd] in Hq, Hfuel |- *.
    rewrite length_app in Hfuel. cbn [List.length] in Hfuel.
    cbn [LineEcho.serve_loop].
    rewrite (bind_step _ _ _ _ _ (line_collectMessage_none w Hwf Hno)).
    assert (Hrd : LineEcho.socketRead w
                  = (Returned c, set_incoming (map EvData chunks ++ events) w)).
    { rewrite (line_socketRead_live w Hd). apply socketRead_data; assumption. }
    rewrite (bind_step _ _ _ _ _ Hrd).
    set (w1 := set_incoming _ w).
    unfold bind at 1, modify_buf at 1.
    set (w2 := set_buf (bufferPush (buf w1) c) w1).
    assert (Hpos : (blen c =? 0) = false).
    { apply Z.eqb_neq. destruct c; [discriminate | unfold blen; cbn; lia]. }
    rewrite Hpos.
    destruct (bufferPush_spec (buf w) c Hwf) as (B1 & B2 & _).
    assert (Hwf2 : buf_wf (buf w2)) by exact B1.
    assert (Hpeek2 : peek (buf w2) = peek (buf w) ++ c) by exact B2.
    set (lines1 := fst (cut_lines (peek (buf w) ++ c))) in *.
    destruct (existsb is_quit lines1) eqn:Eq1.
    + (* "quit" is among the lines completed by this chunk *)
      rewrite (answers_until_quit_app_quit lines1 _ Eq1).
      destruct (line_serve_loop_buffered_quit lines1 fuel w2)
        as (o & w' & Hs' & Ho & Hsent' & Hd');
        [rewrite Hpeek2; reflexivity | exact Eq1 | exact Hwf2 | exact Herr | exact Hended
         | exact Hd | lia | ].
      exists o, w'. split; [exact Hs' | ]. split; [exact Ho | ].
      split; [exact Hsent' | exact Hd'].
    + rewrite existsb_app, Eq1 in Hq. cbn [orb] in Hq.
      rewrite (answers_until_quit_app_echo lines1 _ Eq1).
      set (n := List.length lines1) in *.
      destruct (line_serve_loop_buffered n (fuel - n) w2)
        as (w3 & Hs3 & Hwf3 & Herr3 & Hd3 & Hpeek3 & Hsent3 & Hinc3 & Hended3);
        [rewrite Hpeek2; reflexivity | exact Hwf2 | exact Herr | exact Hended | exact Hd
         | rewrite Hpeek2; apply existsb_false_forallb; exact Eq1 | ].
      replace (n + (fuel - n))%nat with fuel in Hs3 by lia.
      rewrite Hpeek2 in Hpeek3, Hsent3.
      destruct (IH (fuel - n)%nat w3) as (o & w' & Hs' & Ho & Hsent' & Hd');
        [exact Hwf3 | rewrite Hpeek3; apply cut_lines_tail_no_LF | exact Herr3
         | rewrite Hended3; exact Hended | exact Hd3 | rewrite Hinc3; reflexivity
         | exact Hne | rewrite Hpeek3; exact Hq | rewrite Hpeek3; lia | ].
      exists o, w'. split; [rewrite Hs3; exact Hs' | ]. split; [exact Ho | ].
      split; [ | exact Hd'].
      rewrite Hsent', Hsent3, Hpeek3, <- app_assoc. reflexivity.
Qed.

(** X19.  The line "quit" ends the service: whatever the chunks, once the
    stream holds a line "quit" the server has echoed the lines before it,
    answered it with an empty line and destroyed the socket; it writes
    nothing for the lines after it and its serve loop does not return. *)
Theorem line_echo_server_quits (chunks : list Buffer) (events : list SockEvent)
    (fuel : nat) :
  forallb not_empty chunks = true ->
  existsb is_quit (fst (cut_lines (List.concat chunks))) = true ->
  (List.length chunks + List.length (fst (cut_lines (List.concat chunks))) < fuel)%nat ->
  exists o w',
    LineEcho.serveClient fuel (newConn (map EvData chunks ++ events)) = (o, w')
    /\ stuck_or_failed o
    /\ sent w' = answers_until_quit (fst (cut_lines (List.concat chunks)))
    /\ destroyed w' = true.
Proof.
  intros Hne Hq Hfuel.
  apply (line_serve_loop_chunks_quit chunks events fuel (newConn (map EvData chunks ++ events)));
    try reflexivity; try assumption.
  exact emptyDynamicBuf_wf.
Qed.

Lemma line_echo_server_quits_witness :
  forallb not_empty ex_quit_chunks = true
  /\ existsb is_quit (fst (cut_lines (List.concat ex_quit_chunks))) = true
  /\ (List.length ex_quit_chunks
      + List.length (fst (cut_lines (List.concat ex_quit_chunks))) < 6)%nat
  /\ exists o w',
       LineEcho.serveClient 6 (newConn (map EvData ex_quit_chunks ++ [EvEnd])) = (o, w')
       /\ stuck_or_failed o
       /\ sent w' = [bytes "Echo: hi" ++ [LF]; [LF]]
       /\ destroyed w' = true.
Proof.
  assert (H1 : forallb not_empty ex_quit_chunks = true) by reflexivity.
  assert (H2 : existsb is_quit (fst (cut_lines (List.concat ex_quit_chunks))) = true)
    by reflexivity.
  assert (H3 : (List.length ex_quit_chunks
                + List.length (fst (cut_lines (List.concat ex_quit_chunks))) < 6)%nat)
    by (cbn; lia).
  split; [exact H1 | split; [exact H2 | split; [exact H3 | ]]].
  exact (line_echo_server_quits ex_quit_chunks [EvEnd] 6 H1 H2 H3).
Defined.
